(** * Dragonfly2 daemon: origin-client registry, proxy transport and piece fetcher

    A shallow embedding of
      - [pkg/source/source_client.go]            (modules [Source], [SourceManager]),
      - [client/daemon/transport/transport.go]   (module [Transport]),
      - [client/daemon/peer/piece_downloader.go] (modules [Peer], [PieceDownloader]),
      - [scheduler/resource/host.go]             (module [Resource]),
      - the HDFS origin client                   (module [HDFS]),
    and a model of the stream peer task under back-source, after the design
    document (module [StreamTask]), together with the properties the design
    document states about them.

    Conventions.  Go [string]s are [string] (sequences of bytes); Go maps
    are [gmap]s; Go [int], [int64], [uint64] are [Z] with the wrap-around
    written out where the code can overflow; a Go [error] that may be [nil]
    is an [option]; a function that can panic returns an outcome type with
    an explicit panic case. *)

From Stdlib Require Import ZArith String Ascii List Bool Lia DecimalString.
From stdpp Require Import gmap strings list.

Open Scope Z_scope.

(** ** Go standard library: the parts of [strings], [strconv], [net/textproto]
    and [regexp] the program calls *)

Module Go.

(** [strings.ToLower] restricted to its ASCII fast path: bytes ['A'..'Z']
    are mapped to ['a'..'z'], every other byte is kept. *)
Definition lower_byte (c : ascii) : ascii :=
  let n := nat_of_ascii c in
  if ((65 <=? n)%nat && (n <=? 90)%nat)%bool then ascii_of_nat (n + 32) else c.

Definition upper_byte (c : ascii) : ascii :=
  let n := nat_of_ascii c in
  if ((97 <=? n)%nat && (n <=? 122)%nat)%bool then ascii_of_nat (n - 32) else c.

Fixpoint ToLower (s : string) : string :=
  match s with
  | EmptyString => EmptyString
  | String c s' => String (lower_byte c) (ToLower s')
  end.

(** *** [net/textproto]: canonical header keys *)

Definition is_lower (c : ascii) : bool :=
  let n := nat_of_ascii c in ((97 <=? n)%nat && (n <=? 122)%nat)%bool.

Definition is_upper (c : ascii) : bool :=
  let n := nat_of_ascii c in ((65 <=? n)%nat && (n <=? 90)%nat)%bool.

Definition is_digit (c : ascii) : bool :=
  let n := nat_of_ascii c in ((48 <=? n)%nat && (n <=? 57)%nat)%bool.

(** [validHeaderFieldByte]: the token bytes of RFC 7230. *)
Definition validHeaderFieldByte (c : ascii) : bool :=
  (is_lower c || is_upper c || is_digit c
   || existsb (Ascii.eqb c) (list_ascii_of_string "!#$%&'*+-.^_`|~"))%bool.

(** The rewriting loop of [canonicalMIMEHeaderKey]: upper case at the
    start and after each dash, lower case elsewhere. *)
Fixpoint canonical_loop (upper : bool) (s : string) : string :=
  match s with
  | EmptyString => EmptyString
  | String c s' =>
      let c' := if (upper && is_lower c)%bool then upper_byte c
                else if (negb upper && is_upper c)%bool then lower_byte c
                else c in
      String c' (canonical_loop (Ascii.eqb c' "-"%char) s')
  end.

(** [textproto.CanonicalMIMEHeaderKey]: a key holding a byte that is not a
    token byte is returned unchanged. *)
Definition CanonicalMIMEHeaderKey (s : string) : string :=
  if forallb validHeaderFieldByte (list_ascii_of_string s)
  then canonical_loop true s
  else s.

(** *** [net/http]: the [Header] map *)

Abbreviation http_Header := (gmap string (list string)).

(** [func (h Header) Get(key string) string] *)
Definition Header_Get (h : http_Header) (key : string) : string :=
  match h !! CanonicalMIMEHeaderKey key with
  | Some (v :: _) => v
  | _ => EmptyString
  end.

(** [func (h Header) Set(key, value string)] *)
Definition Header_Set (h : http_Header) (key value : string) : http_Header :=
  <[CanonicalMIMEHeaderKey key := [value]]> h.

(** [func (h Header) Add(key, value string)] *)
Definition Header_Add (h : http_Header) (key value : string) : http_Header :=
  let k := CanonicalMIMEHeaderKey key in
  <[k := default [] (h !! k) ++ [value]]> h.

(** [func (h Header) Del(key string)] *)
Definition Header_Del (h : http_Header) (key : string) : http_Header :=
  delete (CanonicalMIMEHeaderKey key) h.

(** *** [strconv] *)

Definition digit_val (c : ascii) : option Z :=
  if is_digit c then Some (Z.of_nat (nat_of_ascii c) - 48) else None.

(** The digit loop of [strconv.ParseUint] in base 10; the accumulator is
    unbounded here, the range is checked by the caller. *)
Fixpoint ParseUint_loop (s : string) (acc : Z) : option Z :=
  match s with
  | EmptyString => Some acc
  | String c s' =>
      match digit_val c with
      | Some d => ParseUint_loop s' (acc * 10 + d)
      | None => None
      end
  end.

Definition ParseUint10 (s : string) : option Z :=
  match s with
  | EmptyString => None
  | _ => ParseUint_loop s 0
  end.

(** [strconv.ParseInt(s, 10, 64)]: an optional sign, then decimal digits;
    [None] stands for a non-nil error (syntax or range). *)
Definition ParseInt10_64 (s : string) : option Z :=
  match s with
  | EmptyString => None
  | String c s' =>
      let '(neg, digits) :=
        if Ascii.eqb c "+"%char then (false, s')
        else if Ascii.eqb c "-"%char then (true, s')
        else (false, s) in
      match ParseUint10 digits with
      | None => None
      | Some un =>
          let cutoff := 2 ^ 63 in
          if (negb neg && (cutoff <=? un))%bool then None
          else if (neg && (cutoff <? un))%bool then None
          else Some (if neg then - un else un)
      end
  end.

(** [fmt.Sprintf("%d", n)] for a non-negative [n]. *)
Definition FormatUint (n : Z) : string :=
  NilZero.string_of_uint (N.to_uint (Z.to_N n)).

(** *** [regexp]: the fragment of the syntax the program uses; [Void] is
    [OpNoMatch] of [regexp/syntax], the expression that matches nothing *)

Inductive re : Type :=
  | Void
  | Eps
  | Lit (c : ascii)
  | AnyNotNL
  | Cat (r1 r2 : re)
  | Alt (r1 r2 : re)
  | Star (r : re).

(** [x+] *)
Definition Plus (r : re) : re := Cat r (Star r).

(** A literal string. *)
Fixpoint Lits (l : list ascii) : re :=
  match l with
  | [] => Eps
  | c :: l' => Cat (Lit c) (Lits l')
  end.

(** A compiled expression: the flags say whether it opens with [^] and
    closes with [$] (no [m] flag: begin and end of text). *)
Record Regexp : Type := mkRegexp {
  beginText : bool;
  expr : re;
  endText : bool
}.

Definition newline : ascii := ascii_of_nat 10.

(** The language of an expression.  [.] matches any byte but a newline
    (no [s] flag). *)
Inductive Matches : re -> list ascii -> Prop :=
  | MEps : Matches Eps []
  | MLit c : Matches (Lit c) [c]
  | MAny c : c <> newline -> Matches AnyNotNL [c]
  | MCat r1 r2 s1 s2 : Matches r1 s1 -> Matches r2 s2 -> Matches (Cat r1 r2) (s1 ++ s2)
  | MAltL r1 r2 s : Matches r1 s -> Matches (Alt r1 r2) s
  | MAltR r1 r2 s : Matches r2 s -> Matches (Alt r1 r2) s
  | MStar0 r : Matches (Star r) []
  | MStarS r s1 s2 : Matches r s1 -> Matches (Star r) s2 -> Matches (Star r) (s1 ++ s2).

(** What [MatchString] decides: some substring of the text is in the
    language, at the start of the text under [^] and up to its end under [$]. *)
Definition MatchesIn (R : Regexp) (text : list ascii) : Prop :=
  exists pre m post,
    text = pre ++ m ++ post /\
    (beginText R = true -> pre = []) /\
    (endText R = true -> post = []) /\
    Matches (expr R) m.

(** The matcher, by derivatives. *)
Fixpoint nullable (r : re) : bool :=
  match r with
  | Void => false
  | Eps => true
  | Lit _ => false
  | AnyNotNL => false
  | Cat r1 r2 => nullable r1 && nullable r2
  | Alt r1 r2 => nullable r1 || nullable r2
  | Star _ => true
  end.

Fixpoint deriv (c : ascii) (r : re) : re :=
  match r with
  | Void => Void
  | Eps => Void
  | Lit c' => if Ascii.eqb c c' then Eps else Void
  | AnyNotNL => if Ascii.eqb c newline then Void else Eps
  | Cat r1 r2 =>
      if nullable r1
      then Alt (Cat (deriv c r1) r2) (deriv c r2)
      else Cat (deriv c r1) r2
  | Alt r1 r2 => Alt (deriv c r1) (deriv c r2)
  | Star r1 => Cat (deriv c r1) (Star r1)
  end.

(** The whole of [s] is in the language of [r]. *)
Fixpoint matches (r : re) (s : list ascii) : bool :=
  match s with
  | [] => nullable r
  | c :: s' => matches (deriv c r) s'
  end.

(** Some prefix of [s] is in the language of [r]. *)
Fixpoint matches_prefix (r : re) (s : list ascii) : bool :=
  nullable r ||
  match s with
  | [] => false
  | c :: s' => matches_prefix (deriv c r) s'
  end.

Definition matches_here (R : Regexp) (s : list ascii) : bool :=
  if endText R then matches (expr R) s else matches_prefix (expr R) s.

(** Try every start position (only the first under [^]). *)
Fixpoint matches_from (R : Regexp) (s : list ascii) : bool :=
  matches_here R s ||
  match s with
  | [] => false
  | _ :: s' => matches_from R s'
  end.

(** [func (re *Regexp) MatchString(s string) bool] *)
Definition MatchString (R : Regexp) (s : string) : bool :=
  let text := list_ascii_of_string s in
  if beginText R then matches_here R text else matches_from R text.

End Go.

(** ** [pkg/source/source_client.go] *)

Module Source.

(** [UnexpectedStatusCodeError]: the allowed codes and the code received. *)
Record UnexpectedStatusCodeError : Type := mkUnexpected {
  allowed : list Z;
  got : Z
}.

(** [func (e UnexpectedStatusCodeError) Got() int] *)
Definition Got (e : UnexpectedStatusCodeError) : Z := got e.

(** The [for _, v := range allowed] loop of [CheckResponseCode]; [all] is
    the whole slice, kept for the error value built after the loop. *)
Fixpoint CheckResponseCode_range (respCode : Z) (all rest : list Z)
  : option UnexpectedStatusCodeError :=
  match rest with
  | [] => Some (mkUnexpected all respCode)
  | v :: rest' =>
      if respCode =? v then None else CheckResponseCode_range respCode all rest'
  end.

(** [func CheckResponseCode(respCode int, allowed []int) error];
    [None] is the [nil] error. *)
Definition CheckResponseCode (respCode : Z) (allowed : list Z)
  : option UnexpectedStatusCodeError :=
  CheckResponseCode_range respCode allowed allowed.

Section ClientManager.

(** Resource clients are interface values holding pointers (for instance
    [NewHDFSSourceClient()]); [!=] on them is pointer identity, a decidable
    equality.  Adapters and hooks are opaque. *)
Context {ResourceClient : Type} `{EqDecision ResourceClient}.
Context {requestAdapter Hook : Type}.

(** [strings.ToLower]. *)
Variable ToLower : string -> string.

(** [type clientWrapper struct] *)
Record clientWrapper : Type := mkWrapper {
  adapter : requestAdapter;
  hooks : list Hook;
  rc : ResourceClient
}.

(** The dynamic type of a value stored in [clients]: [Register] stores a
    pointer to a [clientWrapper]; [GetClient] stores what [LoadPlugin] returned, a bare
    resource client. *)
Inductive client : Type :=
  | Wrapper (w : clientWrapper)
  | Plugin (c : ResourceClient).

(** The [error] values [Register] builds with [errors.Errorf]. *)
Inductive RegisterError : Type :=
  | ErrAlreadyExist (scheme : string) (current : client).

(** What a call does: return an [error] (possibly [nil]) or panic. *)
Inductive outcome : Type :=
  | Return (err : option RegisterError)
  | Panics.

(** [func (m *clientManager) doRegister(scheme string, resourceClient ResourceClient)] *)
Definition doRegister (clients : gmap string client) (scheme : string) (c : client)
  : gmap string client :=
  <[ToLower scheme := c]> clients.

(** [func (m *clientManager) Register(scheme, resourceClient, adaptor, hooks...) error]
    on the [clients] map of the manager; the mutex has no effect on a
    single call.  The type assertion of the stored value to a pointer to
    [clientWrapper] panics on a value of another dynamic type. *)
Definition Register (clients : gmap string client) (scheme : string)
    (resourceClient : ResourceClient) (adaptor : requestAdapter) (hks : list Hook)
  : outcome * gmap string client :=
  let scheme := ToLower scheme in
  match clients !! scheme with
  | Some cl =>
      match cl with
      | Wrapper w =>
          if decide (rc w = resourceClient)
          then (Return None, clients)
          else (Return (Some (ErrAlreadyExist scheme cl)), clients)
      | Plugin _ => (Panics, clients)
      end
  | None =>
      (Return None, doRegister clients scheme (Wrapper (mkWrapper adaptor hks resourceClient)))
  end.

(** [func (m *clientManager) UnRegister(scheme string)] *)
Definition UnRegister (clients : gmap string client) (scheme : string)
  : gmap string client :=
  delete (ToLower scheme) clients.

End ClientManager.

End Source.

(** ** [client/daemon/transport/transport.go] *)

Module Transport.
Import Go.

(** [url.URL], the fields the transport reads. *)
Module URL.
Record t : Type := mk {
  Scheme : string;
  Host : string;
  Path : string;
  RawQuery : string
}.
End URL.

(** [http.Request], the fields the transport reads or writes. *)
Module Request.
Record t : Type := mk {
  Method : string;
  URL : URL.t;
  Host : string;
  Header : http_Header;
  Proto : string;
  ProtoMajor : Z;
  ProtoMinor : Z
}.

Definition with_Header (h : http_Header) (r : t) : t :=
  mk (Method r) (URL r) (Host r) h (Proto r) (ProtoMajor r) (ProtoMinor r).

Definition with_Host (host : string) (r : t) : t :=
  mk (Method r) (URL r) host (Header r) (Proto r) (ProtoMajor r) (ProtoMinor r).
End Request.

(** [http.Response], the fields [download] fills in; the body is an
    [io.ReadCloser], possibly [nil]. *)
Module Response.
Record t (B : Type) : Type := mk {
  StatusCode : Z;
  Body : option B;
  Header : http_Header;
  ContentLength : Z;
  Proto : string;
  ProtoMajor : Z;
  ProtoMinor : Z
}.
Arguments mk {B}.
Arguments StatusCode {B}.
Arguments Body {B}.
Arguments Header {B}.
Arguments ContentLength {B}.
Arguments Proto {B}.
Arguments ProtoMajor {B}.
Arguments ProtoMinor {B}.
End Response.

(** [base.UrlMeta] *)
Module UrlMeta.
Record t : Type := mk {
  Digest : string;
  Tag : string;
  Range : string;
  Filter : string;
  Header : gmap string string
}.
End UrlMeta.

(** [peer.StreamTaskRequest] *)
Module StreamTaskRequest.
Record t : Type := mk {
  URL : string;
  URLMeta : UrlMeta.t;
  PeerID : string
}.
End StreamTaskRequest.

(** [http.MethodGet], [http.StatusOK] *)
Definition MethodGet : string := "GET".
Definition StatusOK : Z := 200.

(** [headers.ContentLength] of [github.com/go-http-utils/headers]. *)
Definition headers_ContentLength : string := "Content-Length".

(** Modelled from the spec: the constants [config.HeaderDragonflyFilter]
    and [config.HeaderDragonflyBiz] of [client/config], which is not among
    the sources; the header names are those the design document gives. *)
Definition HeaderDragonflyFilter : string := "X-Dragonfly-Filter".
Definition HeaderDragonflyBiz : string := "X-Dragonfly-Biz".

(** [var layerReg = regexp.MustCompile("^.+/blobs/sha256.*$")] *)
Definition layerReg : Regexp :=
  mkRegexp true
    (Cat (Plus AnyNotNL)
         (Cat (Lits (list_ascii_of_string "/blobs/sha256")) (Star AnyNotNL)))
    true.

(** [propagation.TraceContext{}.Fields()] of OpenTelemetry: the W3C trace
    context header names. *)
Definition traceContext_Fields : list string := ["traceparent"; "tracestate"]%string.

(** [var hopHeaders] *)
Definition hopHeaders : list string :=
  [ "Connection"; "Proxy-Connection"; "Keep-Alive"; "Proxy-Authenticate";
    "Proxy-Authorization"; "Te"; "Trailer"; "Transfer-Encoding"; "Upgrade";
    "Accept"; "User-Agent"; "X-Forwarded-For" ]%string.

(** [func delHopHeaders(header http.Header)]: the two [range] loops. *)
Definition delHopHeaders (header : http_Header) : http_Header :=
  fold_left Header_Del traceContext_Fields (fold_left Header_Del hopHeaders header).

(** [func NeedUseDragonfly(req *http.Request) bool] *)
Definition NeedUseDragonfly (req : Request.t) : bool :=
  String.eqb (Request.Method req) MethodGet
  && MatchString layerReg (URL.Path (Request.URL req)).

(** Modelled from the spec: [httputils.PickHeader] of
    [pkg/util/net/httputils], which is not among the sources.  It harvests
    a header: the value of [key] is taken out of the header map and
    returned, and the configured default is returned when the request has
    no such header.  The second component is the header map afterwards. *)
Definition PickHeader (header : http_Header) (key defaultValue : string)
  : string * http_Header :=
  match Header_Get header key with
  | EmptyString => (defaultValue, header)
  | v => (v, Header_Del header key)
  end.

Section Transport.

(** [Body]: the [io.ReadCloser] streams; [Err]: the errors of the
    collaborators (base round tripper, peer task manager). *)
Context {Body Err : Type}.

(** [func (u *URL) String() string] and [idgen.PeerID]. *)
Variable URL_String : URL.t -> string.
Variable idgen_PeerID : string -> string.

(** [httputils.HeaderToMap] and [httputils.MapToHeader] convert between
    [http.Header] and [map[string]string]; they are not among the sources
    and are left open. *)
Variable HeaderToMap : http_Header -> gmap string string.
Variable MapToHeader : option (gmap string string) -> http_Header.

(** [config.HeaderDragonflyTask] and [config.HeaderDragonflyPeer], read
    only to decorate an error. *)
Variables HeaderDragonflyTask HeaderDragonflyPeer : string.

(** The errors [RoundTrip] returns: the collaborator's, or [download]'s
    decorated one. *)
Inductive error : Type :=
  | Upstream (e : Err)
  | TaskPeerError (task peer : string) (e : Err).

(** What [StartStreamTask] returns: [(body, attr, err)]. *)
Record StreamTaskResult : Type := mkStreamTaskResult {
  st_body : option Body;
  st_attr : option (gmap string string);
  st_err : option Err
}.

(** [type transport struct]; the two collaborators are their call
    behaviour. *)
Record transport : Type := mkTransport {
  baseRoundTripper : Request.t -> option (Response.t Body) * option Err;
  shouldUseDragonfly : Request.t -> bool;
  StartStreamTask : StreamTaskRequest.t -> StreamTaskResult;
  peerHost_Ip : string;
  defaultFilter : string;
  defaultBiz : string;
  dumpHTTPContent : bool
}.

(** The calls a round trip makes to its collaborators, with their argument. *)
Inductive event : Type :=
  | CallBaseRoundTrip (req : Request.t)
  | CallStartStreamTask (r : StreamTaskRequest.t).

(** [attr[key]] on a possibly nil map. *)
Definition attr_get (attr : option (gmap string string)) (key : string) : option string :=
  match attr with
  | Some m => m !! key
  | None => None
  end.

(** The first half of [download]: the [StreamTaskRequest] it builds from
    the request.  [PickHeader] and [delHopHeaders] update [req.Header] in
    place, so every step works on the header map the previous one left. *)
Definition download_request (rt : transport) (req : Request.t) : StreamTaskRequest.t :=
  let url := URL_String (Request.URL req) in
  let peerID := idgen_PeerID (peerHost_Ip rt) in
  let rg := Header_Get (Request.Header req) "Range" in
  let '(digest, range) :=
    if (0 <? String.length rg)%nat then (EmptyString, rg) else (EmptyString, EmptyString) in
  let '(filter, header1) :=
    PickHeader (Request.Header req) HeaderDragonflyFilter (defaultFilter rt) in
  let '(tag, header2) := PickHeader header1 HeaderDragonflyBiz (defaultBiz rt) in
  let header3 := delHopHeaders header2 in
  StreamTaskRequest.mk url
    (UrlMeta.mk digest tag range filter (HeaderToMap header3))
    peerID.

(** [func (rt *transport) download(ctx, req)], returning the response and
    the error. *)
Definition download (rt : transport) (req : Request.t)
  : list event * (option (Response.t Body) * option error) :=
  let sreq := download_request rt req in
  let r := StartStreamTask rt sreq in
  ([CallStartStreamTask sreq],
   match st_err r with
   | Some err =>
       match st_attr r with
       | Some attr =>
           (None, Some (TaskPeerError (default EmptyString (attr !! HeaderDragonflyTask))
                                      (default EmptyString (attr !! HeaderDragonflyPeer)) err))
       | None => (None, Some (Upstream err))
       end
   | None =>
       let hdr := MapToHeader (st_attr r) in
       let contentLength :=
         match attr_get (st_attr r) headers_ContentLength with
         | Some l =>
             match ParseInt10_64 l with
             | Some i => i
             | None => -1
             end
         | None => -1
         end in
       (Some (Response.mk StatusOK (st_body r) hdr contentLength
                (Request.Proto req) (Request.ProtoMajor req) (Request.ProtoMinor req)),
        None)
   end).

(** [func (rt *transport) RoundTrip(req *http.Request)], returning the
    response and the error;
    the metrics, the logs and [processDumpHTTPContent] do not change what
    is returned. *)
Definition RoundTrip (rt : transport) (req : Request.t)
  : list event * (option (Response.t Body) * option error) :=
  if shouldUseDragonfly rt req then
    let req := Request.with_Header (Header_Del (Request.Header req) "Accept-Encoding") req in
    download rt req
  else
    let req := Request.with_Host (URL.Host (Request.URL req)) req in
    let req := Request.with_Header
                 (Header_Set (Request.Header req) "Host" (Request.Host req)) req in
    let '(resp, err) := baseRoundTripper rt req in
    ([CallBaseRoundTrip req], (resp, Upstream <$> err)).

End Transport.

End Transport.

(** ** [client/daemon/peer/piece_downloader.go] *)

Module Peer.
Import Go.

(** [base.PieceInfo]; [RangeStart] is a [uint64], [RangeSize] a [uint32],
    [PieceNum] an [int32]. *)
Module PieceInfo.
Record t : Type := mk {
  PieceNum : Z;
  RangeStart : Z;
  RangeSize : Z;
  PieceMd5 : string;
  PieceOffset : Z;
  PieceStyle : Z
}.
End PieceInfo.

(** [type DownloadPieceRequest struct], without its logger and storage
    driver. *)
Module DownloadPieceRequest.
Record t : Type := mk {
  piece : PieceInfo.t;
  TaskID : string;
  PeerID : string;
  DstPid : string;
  DstAddr : string;
  CalcDigest : bool
}.
End DownloadPieceRequest.

(** The [http.Request] handed to the client: method, parsed URL and
    headers; [U] is the type of a parsed URL. *)
Module HTTPRequest.
Record t {U : Type} : Type := mk {
  Method : string;
  URL : U;
  Header : http_Header
}.
Arguments mk {U} Method URL Header.
Arguments Method {U} _.
Arguments URL {U} _.
Arguments Header {U} _.
End HTTPRequest.

(** Modelled from the spec: the constant [upload.PeerDownloadHTTPPathPrefix]
    of [client/daemon/upload], which is not among the sources; the peer
    upload endpoint is [GET /download/<firstThreeOfTaskID>/<taskID>]. *)
Definition PeerDownloadHTTPPathPrefix : string := "/download/".

(** [uint64] arithmetic wraps around. *)
Definition wrap64 (x : Z) : Z := x mod 2 ^ 64.

(** [strings.Builder]: the text written so far. *)
Definition Builder : Type := string.
Definition WriteString (b : Builder) (s : string) : Builder := (b ++ s)%string.

(** [[]byte(s)[:n]]: slicing beyond the length panics ([None]). *)
Definition slice_to (s : string) (n : nat) : option string :=
  if (n <=? String.length s)%nat then Some (substring 0 n s) else None.

Section HTTPRequestBuilder.

(** [net/url] and [net/http], of the Go library: the parsed form of a URL,
    [url.Parse] ([None] when it returns an error), and [removeEmptyPort] as
    [http.NewRequestWithContext] applies it to the host of the parsed
    URL. *)
Context {U : Type}.
Variable url_Parse : string -> option U.
Variable removeEmptyPort : U -> U.

(** [http.NewRequestWithContext(ctx, method, url, nil)] for a valid method
    and a context that is not nil: it returns an error, and no request,
    exactly when [url.Parse] does; the new request has an empty header. *)
Definition NewRequestWithContext (method url : string) : option (@HTTPRequest.t U) :=
  match url_Parse url with
  | None => None
  | Some u => Some (HTTPRequest.mk method (removeEmptyPort u) ∅)
  end.

(** [func buildDownloadPieceHTTPRequest(ctx, d) *http.Request]; [None]
    when it panics: on the slice expression, or on [req.Header] when
    [NewRequestWithContext], whose error is dropped, has returned no
    request. *)
Definition buildDownloadPieceHTTPRequest (d : DownloadPieceRequest.t)
  : option (@HTTPRequest.t U) :=
  let b : Builder := EmptyString in
  let b := WriteString b "http://" in
  let b := WriteString b (DownloadPieceRequest.DstAddr d) in
  let b := WriteString b PeerDownloadHTTPPathPrefix in
  match slice_to (DownloadPieceRequest.TaskID d) 3 with
  | None => None
  | Some first3 =>
      let b := WriteString b first3 in
      let b := WriteString b "/" in
      let b := WriteString b (DownloadPieceRequest.TaskID d) in
      let b := WriteString b "?peerId=" in
      let b := WriteString b (DownloadPieceRequest.DstPid d) in
      let u := b in
      match NewRequestWithContext "GET" u with
      | None => None
      | Some req =>
          let p := DownloadPieceRequest.piece d in
          let header :=
            Header_Add (HTTPRequest.Header req) "Range"
              ("bytes=" ++ FormatUint (PieceInfo.RangeStart p) ++ "-"
                 ++ FormatUint (wrap64 (PieceInfo.RangeStart p + PieceInfo.RangeSize p - 1)))%string in
          Some (HTTPRequest.mk (HTTPRequest.Method req) (HTTPRequest.URL req) header)
      end
  end.

End HTTPRequestBuilder.

(** [http.StatusNotFound] *)
Definition StatusNotFound : Z := 404.

Section Downloader.

(** Errors of the HTTP client. *)
Context {Err : Type}.

(** The hex MD5 digest of a byte sequence ([crypto/md5]). *)
Variable Md5 : list Byte.byte -> string.

(** What a [Read] can return besides [nil]. *)
Inductive rerror : Type :=
  | EOF
  | ErrDigestNotMatch
  | ErrRead (e : Err).

(** The readers [DownloadPiece] builds.
    - [BodyReader data last]: the response body; [data] is what the peer
      still has to deliver and [last] what the read after the last byte
      returns ([EOF], or the error that cut the transfer);
    - [LimitReader r n]: [io.LimitReader(r, n)];
    - [DigestReader r written hexDigest]: the reader of
      [digestutils.NewDigestReader]; [written] is what went into its hash. *)
Inductive Reader : Type :=
  | BodyReader (data : list Byte.byte) (last : rerror)
  | LimitReader (r : Reader) (n : Z)
  | DigestReader (r : Reader) (written : list Byte.byte) (hexDigest : string).

(** Modelled from the spec: [digestutils.NewDigestReader] of
    [pkg/util/digestutils], which is not among the sources: a reader that
    verifies [MD5(body) == PieceMD5] incrementally and fails its final read
    with a digest-mismatch error. *)
Definition NewDigestReader (r : Reader) (hexDigest : string) : Reader :=
  DigestReader r [] hexDigest.

(** One [Read(p)] with [len(p) = k]: the bytes read, the error, and the
    reader afterwards. *)
Fixpoint Read (r : Reader) (k : nat) : list Byte.byte * option rerror * Reader :=
  match r with
  | BodyReader data last =>
      match data with
      | [] => ([], Some last, r)
      | _ => (firstn k data, None, BodyReader (skipn k data) last)
      end
  | LimitReader r' n =>
      if n <=? 0 then ([], Some EOF, r)
      else
        let k' := if n <? Z.of_nat k then Z.to_nat n else k in
        let '(bs, err, r'') := Read r' k' in
        (bs, err, LimitReader r'' (n - Z.of_nat (length bs)))
  | DigestReader r' written hexDigest =>
      let '(bs, err, r'') := Read r' k in
      match err with
      | Some EOF =>
          let written' := written ++ bs in
          if String.eqb (Md5 written') hexDigest
          then (bs, Some EOF, DigestReader r'' written' hexDigest)
          else (bs, Some ErrDigestNotMatch, DigestReader r'' written' hexDigest)
      | Some e => (bs, Some e, DigestReader r'' written hexDigest)
      | None => (bs, None, DigestReader r'' (written ++ bs) hexDigest)
      end
  end.

(** [io.ReadAll]: read with a buffer of [k] bytes until an error; [EOF] is
    reported as [nil].  [fuel] bounds the number of reads. *)
Fixpoint ReadAll_loop (fuel : nat) (k : nat) (r : Reader) (acc : list Byte.byte)
  : option (list Byte.byte * option rerror) :=
  match fuel with
  | O => None
  | S fuel' =>
      let '(bs, err, r') := Read r k in
      match err with
      | Some EOF => Some (acc ++ bs, None)
      | Some e => Some (acc ++ bs, Some e)
      | None => ReadAll_loop fuel' k r' (acc ++ bs)
      end
  end.

(** The bytes the underlying body still holds. *)
Fixpoint pending (r : Reader) : nat :=
  match r with
  | BodyReader data _ => length data
  | LimitReader r' _ => pending r'
  | DigestReader r' _ _ => pending r'
  end.

Definition ReadAll (k : nat) (r : Reader) : option (list Byte.byte * option rerror) :=
  ReadAll_loop (S (pending r)) k r [].

(** [http.Response], the fields [DownloadPiece] reads. *)
Record HTTPResponse : Type := mkHTTPResponse {
  Status : string;
  StatusCode : Z;
  Body : Reader
}.

(** What [httpClient.Do] returns: an error or a response. *)
Inductive DoResult : Type :=
  | DoError (e : Err)
  | DoResponse (resp : HTTPResponse).

(** [type pieceDownloadError struct] *)
Record pieceDownloadError : Type := mkPieceDownloadError {
  connectionError : bool;
  status : string;
  statusCode : Z;
  target : string;
  err : option Err
}.

(** A Go [error] value: a [*pieceDownloadError] or something else. *)
Inductive error : Type :=
  | PieceDownloadError (e : pieceDownloadError)
  | OtherError (e : Err).

(** [func isConnectionError(err error) bool] *)
Definition isConnectionError (e : error) : bool :=
  match e with
  | PieceDownloadError e => connectionError e
  | OtherError _ => false
  end.

(** [func isPieceNotFound(err error) bool] *)
Definition isPieceNotFound (e : error) : bool :=
  match e with
  | PieceDownloadError e => statusCode e =? StatusNotFound
  | OtherError _ => false
  end.

(** What [DownloadPiece] does: return [(reader, closer, nil)], return
    [(nil, nil, err)], or panic while building the request. *)
Inductive outcome : Type :=
  | Ok (reader closer : Reader)
  | Fail (e : error)
  | Panics.

(** [url.Parse] and [removeEmptyPort], as above. *)
Context {U : Type}.
Variable url_Parse : string -> option U.
Variable removeEmptyPort : U -> U.

(** [func (p *pieceDownloader) DownloadPiece(ctx, req)]; [Do] is
    [p.httpClient.Do]. *)
Definition DownloadPiece (Do : @HTTPRequest.t U -> DoResult) (req : DownloadPieceRequest.t)
  : outcome :=
  match buildDownloadPieceHTTPRequest url_Parse removeEmptyPort req with
  | None => Panics
  | Some hreq =>
      match Do hreq with
      | DoError e =>
          Fail (PieceDownloadError
                  (mkPieceDownloadError true EmptyString 0 EmptyString (Some e)))
      | DoResponse resp =>
          if 299 <? StatusCode resp then
            Fail (PieceDownloadError
                    (mkPieceDownloadError false (Status resp) (StatusCode resp) EmptyString None))
          else
            let p := DownloadPieceRequest.piece req in
            let reader :=
              if DownloadPieceRequest.CalcDigest req
              then NewDigestReader (LimitReader (Body resp) (PieceInfo.RangeSize p))
                     (PieceInfo.PieceMd5 p)
              else Body resp in
            Ok reader (Body resp)
      end
  end.

End Downloader.

End Peer.

(** ** The stream peer task: piece fetch, back-source and the read side

    Modelled from the spec: the conductor and the piece manager
    ([peertask_conductor.go], [piece_manager.go]) and the piece store are
    not among the sources; only the test that drives them is.  The
    definitions below follow sections 3, 4.1, 4.2 and 4.4 of the design
    document: the piece store with its digest validation, the directive
    handling, the fetch of a piece from a peer with its MD5 check, the
    back-source over the origin stream, completion, and the stream
    surface. *)

Module StreamTask.

Abbreviation bytes := (list Byte.byte).

(** A piece as a peer advertises it. *)
Record PieceInfo : Type := mkPieceInfo {
  PieceNum : nat;
  RangeStart : nat;
  RangeSize : nat;
  PieceMd5 : string
}.

(** The piece a report is about: a piece of the task, or the
    [EndPieceNum] sentinel of the final result. *)
Inductive ReportedPiece : Type :=
  | Piece (num : nat)
  | EndPieceNum.

(** A report to the scheduler. *)
Record PieceResult : Type := mkPieceResult {
  ResultPieceNum : ReportedPiece;
  Success : bool;
  FinishedCount : nat
}.

(** The states of the conductor. *)
Inductive State : Type :=
  | Init
  | Running
  | BackSourcing
  | Succeeded
  | Failed.

(** The partition of the [PieceStore] that belongs to one task: the pieces
    present, each with its MD5 and its bytes, the recorded [PieceMD5Sign],
    whether the task was invalidated, and the [Store] operations the
    partition has served, by piece number and in order. *)
Record PieceStore : Type := mkPieceStore {
  pieces : gmap nat (string * bytes);
  pieceMd5Sign : option string;
  invalid : bool;
  storeCalls : list nat
}.

(** The origin response body: the bytes not yet consumed, and what was
    done on the stream. *)
Inductive StreamOp : Type :=
  | Discarded (size : nat)
  | ReadChunk (size : nat).

Record OriginStream : Type := mkOriginStream {
  unread : bytes;
  streamOps : list StreamOp
}.

(** Seek over [size] bytes of the stream. *)
Definition discard (size : nat) (s : OriginStream) : OriginStream :=
  mkOriginStream (skipn size (unread s)) (streamOps s ++ [Discarded size]).

(** Read the next [size] bytes of the stream. *)
Definition readChunk (size : nat) (s : OriginStream) : bytes * OriginStream :=
  (firstn size (unread s),
   mkOriginStream (skipn size (unread s)) (streamOps s ++ [ReadChunk size])).

(** The conductor of one task: its state, its partition of the piece
    store, its completion bitmap and the reports sent so far. *)
Record Conductor : Type := mkConductor {
  state : State;
  store : PieceStore;
  bitmap : gset nat;
  reports : list PieceResult
}.

(** A directive of the scheduler: a packet naming a main peer, given here
    by what that peer answers (the [PieceMd5Sign] it advertises once it has
    completed the task, the pieces it advertises and the body its upload
    endpoint serves for each), or the [NeedBackSource] sentinel. *)
Inductive Directive : Type :=
  | PeerPacket (sign : option string) (pieceInfos : list (PieceInfo * option bytes))
  | NeedBackSource.

(** [PieceStore.Store]: idempotent per [PieceNum]; a second [Store] for a
    piece already present is a no-op and returns the stored size. *)
Definition Store (s : PieceStore) (p : PieceInfo) (data : bytes) : nat * PieceStore :=
  let calls := storeCalls s ++ [PieceNum p] in
  match pieces s !! PieceNum p with
  | Some (_, old) =>
      (length old, mkPieceStore (pieces s) (pieceMd5Sign s) (invalid s) calls)
  | None =>
      (length data,
       mkPieceStore (<[PieceNum p := (PieceMd5 p, data)]> (pieces s))
         (pieceMd5Sign s) (invalid s) calls)
  end.

(** [PieceStore.UpdateTask]: record the [PieceMD5Sign] a peer advertises;
    the first one recorded stays. *)
Definition UpdateTask (s : PieceStore) (sign : option string) : PieceStore :=
  match pieceMd5Sign s with
  | Some _ => s
  | None => mkPieceStore (pieces s) sign (invalid s) (storeCalls s)
  end.

Section Task.

(** [MD5] of a piece and the aggregate [SHA256] over the MD5s of the
    pieces, both in hexadecimal. *)
Variable Md5 : bytes -> string.
Variable Sha256 : list string -> string.

(** The origin content (its length is the known content length) and the
    piece size. *)
Variable origin : bytes.
Variable pieceSize : nat.

Definition contentLength : nat := length origin.

(** [TotalPieces]: the content length over the piece size, rounded up. *)
Definition totalPieces : nat := (contentLength + pieceSize - 1) / pieceSize.

(** The MD5s of pieces [i], [i+1], ... of the store, in order; [None] when
    one of them is missing. *)
Fixpoint pieceMd5s (s : gmap nat (string * bytes)) (i n : nat) : option (list string) :=
  match n with
  | O => Some []
  | S n' =>
      match s !! i, pieceMd5s s (S i) n' with
      | Some (md5, _), Some rest => Some (md5 :: rest)
      | _, _ => None
      end
  end.

(** [PieceStore.ValidateDigest]: recompute the aggregate and compare it
    with the recorded [PieceMD5Sign]; with no sign recorded there is
    nothing it could differ from. *)
Definition ValidateDigest (s : PieceStore) : bool :=
  match pieceMd5Sign s with
  | None => true
  | Some sign =>
      match pieceMd5s (pieces s) 0 totalPieces with
      | Some md5s => String.eqb (Sha256 md5s) sign
      | None => false
      end
  end.

(** Invalidate the stored task. *)
Definition Invalidate (s : PieceStore) : PieceStore :=
  mkPieceStore (pieces s) (pieceMd5Sign s) true (storeCalls s).

(** On success of a piece: [Store], set the bitmap bit, report with
    [FinishedCount = popcount(bitmap)]. *)
Definition pieceSucceeded (c : Conductor) (p : PieceInfo) (data : bytes) : Conductor :=
  let bm := {[PieceNum p]} ∪ bitmap c in
  mkConductor (state c) (snd (Store (store c) p data)) bm
    (reports c ++ [mkPieceResult (Piece (PieceNum p)) true (size bm)]).

(** A failed fetch: a failure report; the piece stays outstanding. *)
Definition pieceFailed (c : Conductor) (num : nat) : Conductor :=
  mkConductor (state c) (store c) (bitmap c)
    (reports c ++ [mkPieceResult (Piece num) false (size (bitmap c))]).

(** Fetch one advertised piece from the peer, unless it is already done.
    The fetcher verifies [MD5(body) == PieceMD5]; a body that fails the
    check fails the fetch and is not stored. *)
Definition fetchPiece (c : Conductor) (p : PieceInfo * option bytes) : Conductor :=
  if decide (PieceNum (fst p) ∈ bitmap c) then c
  else match snd p with
       | Some data =>
           if String.eqb (Md5 data) (PieceMd5 (fst p))
           then pieceSucceeded c (fst p) data
           else pieceFailed c (PieceNum (fst p))
       | None => pieceFailed c (PieceNum (fst p))
       end.

(** The [i]-th piece of the origin content. *)
Definition slice (i : nat) : bytes :=
  firstn pieceSize (skipn (i * pieceSize) origin).

(** The size the back-source gives piece [i]. *)
Definition sizeOf (i : nat) : nat := Nat.min pieceSize (contentLength - i * pieceSize).

(** The store and the bitmap agree, and every stored piece holds the bytes
    of the origin under their MD5. *)
Definition wellFormed (c : Conductor) : Prop :=
  dom (pieces (store c)) = bitmap c /\
  forall j m d, pieces (store c) !! j = Some (m, d) -> d = slice j /\ m = Md5 d.

(** The pieces of [i .. i+n) that are still outstanding. *)
Definition outstanding (done : gset nat) (i n : nat) : list nat :=
  filter (fun j => j ∉ done) (seq i n).

(** The report of a piece the back-source stored, when it started from the
    bitmap [done] at piece [i]. *)
Definition sourceReport (done : gset nat) (i j : nat) : PieceResult :=
  mkPieceResult (Piece j) true (size (done ∪ set_seq i (S (j - i)))).

(** The back-source loop over the origin stream: piece [pieceNum] takes the
    next [size] bytes; a piece whose bit is set is skipped in the stream,
    any other is read, stored with the MD5 of its bytes and reported as if
    fetched from a peer.  [n] pieces remain. *)
Fixpoint backSource_loop (n pieceNum : nat) (stream : OriginStream) (c : Conductor)
  : OriginStream * Conductor :=
  match n with
  | O => (stream, c)
  | S n' =>
      let size := sizeOf pieceNum in
      if decide (pieceNum ∈ bitmap c) then
        backSource_loop n' (S pieceNum) (discard size stream) c
      else
        let '(chunk, stream') := readChunk size stream in
        let p := mkPieceInfo pieceNum (pieceNum * pieceSize) size (Md5 chunk) in
        backSource_loop n' (S pieceNum) stream' (pieceSucceeded c p chunk)
  end.

(** Completion, when every piece is done: the final result with the
    [EndPieceNum] sentinel, then [ValidateDigest]; on mismatch the stored
    task is invalidated and the task has failed. *)
Definition complete (c : Conductor) : Conductor :=
  if decide (size (bitmap c) = totalPieces) then
    let final := mkPieceResult EndPieceNum true totalPieces in
    if ValidateDigest (store c)
    then mkConductor Succeeded (store c) (bitmap c) (reports c ++ [final])
    else mkConductor Failed (Invalidate (store c)) (bitmap c) (reports c ++ [final])
  else c.

(** Back-source: download the origin from its first byte and run the loop;
    the first component is the origin stream afterwards. *)
Definition backSource (c : Conductor) : OriginStream * Conductor :=
  let '(stream, c') :=
    backSource_loop totalPieces 0 (mkOriginStream origin [])
      (mkConductor BackSourcing (store c) (bitmap c) (reports c)) in
  (stream, complete c').

(** One directive.  A task that has succeeded or failed has closed its
    scheduler stream and handles no further directive. *)
Definition handle (c : Conductor) (d : Directive) : Conductor :=
  match state c with
  | Succeeded | Failed => c
  | _ =>
      match d with
      | PeerPacket sign pieceInfos =>
          complete (fold_left fetchPiece pieceInfos
                      (mkConductor Running (UpdateTask (store c) sign) (bitmap c) (reports c)))
      | NeedBackSource => snd (backSource c)
      end
  end.

Definition start : Conductor := mkConductor Init (mkPieceStore ∅ None false []) ∅ [].

(** The task under a sequence of directives. *)
Definition run (ds : list Directive) : Conductor := fold_left handle ds start.

(** The stream surface read to completion: pieces [i], [i+1], ... in
    order; [None] when a piece is missing (the reader would block). *)
Fixpoint readPieces (s : gmap nat (string * bytes)) (i n : nat) : option bytes :=
  match n with
  | O => Some []
  | S n' =>
      match s !! i, readPieces s (S i) n' with
      | Some (_, d), Some rest => Some (d ++ rest)
      | _, _ => None
      end
  end.

Definition readAll (c : Conductor) : option bytes :=
  readPieces (pieces (store c)) 0 totalPieces.

(** The aggregate digest of the origin content. *)
Definition originSign : string := Sha256 (map (fun i => Md5 (slice i)) (seq 0 totalPieces)).

(** The packet of the scenario: the peer advertises piece 0 only, with the
    MD5 given, serves the body given for it, and advertises the sign
    given. *)
Definition piece0 (md5 : string) : PieceInfo :=
  mkPieceInfo 0 0 (Nat.min pieceSize contentLength) md5.
Definition firstPacket (sign : option string) (md5 : string) (body : bytes) : Directive :=
  PeerPacket sign [(piece0 md5, Some body)].

End Task.

End StreamTask.

(** ** [pkg/source/source_client.go]: the manager, [GetClient] and the
    package-level entry points *)

Module SourceManager.
Import Source.

(** The three sentinel errors of the package. *)
Inductive sentinel : Type :=
  | ResourceNotReachable
  | NoClientFound
  | ClientNotSupportList.

(** An [error] as the package sees it: one of its sentinels, an error
    wrapped by [errors.Wrapf], or an error of a collaborator. *)
Inductive goerror (E : Type) : Type :=
  | Sentinel (s : sentinel)
  | Wrapf (cause : goerror E) (msg : string)
  | Foreign (e : E).
Arguments Sentinel {E}.
Arguments Wrapf {E}.
Arguments Foreign {E}.

Definition sentinel_eqb (a b : sentinel) : bool :=
  match a, b with
  | ResourceNotReachable, ResourceNotReachable => true
  | NoClientFound, NoClientFound => true
  | ClientNotSupportList, ClientNotSupportList => true
  | _, _ => false
  end.

(** [errors.Is(err, target)] for a sentinel target: walk the chain of
    causes. *)
Fixpoint errors_Is {E : Type} (err : goerror E) (target : sentinel) : bool :=
  match err with
  | Sentinel s => sentinel_eqb s target
  | Wrapf cause _ => errors_Is cause target
  | Foreign _ => false
  end.

(** [func IsResourceNotReachableError(err error) bool] *)
Definition IsResourceNotReachableError {E : Type} (err : goerror E) : bool :=
  errors_Is err ResourceNotReachable.

(** [func IsNoClientFoundError(err error) bool] *)
Definition IsNoClientFoundError {E : Type} (err : goerror E) : bool :=
  errors_Is err NoClientFound.

(** [const UnknownSourceFileLen = -2] *)
Definition UnknownSourceFileLen : Z := -2.

Section Manager.

Context {ResourceClient : Type} `{EqDecision ResourceClient}.
Context {requestAdapter Hook : Type}.

(** [strings.ToLower]. *)
Variable ToLower : string -> string.

(** [LoadPlugin(dir, scheme)] of the package's plugin loader, which is not
    among the sources: the resource client of the plugin, or an error
    ([None]). *)
Variable LoadPlugin : string -> string -> option ResourceClient.

Local Abbreviation client := (@Source.client ResourceClient requestAdapter Hook).

(** [type clientManager struct], without its mutex. *)
Record clientManager : Type := mkManager {
  clients : gmap string client;
  pluginDir : string
}.

(** [type Option func(c *clientManager)] *)
Definition Option : Type := clientManager -> clientManager.

(** [func NewManager() ClientManager] *)
Definition NewManager : clientManager := mkManager ∅ EmptyString.

(** [func UpdatePluginDir(pluginDir string)] on the manager. *)
Definition UpdatePluginDir (m : clientManager) (dir : string) : clientManager :=
  mkManager (clients m) dir.

(** [Register] and [UnRegister] on the manager. *)
Definition Register (m : clientManager) (scheme : string) (resourceClient : ResourceClient)
    (adaptor : requestAdapter) (hks : list Hook) : outcome * clientManager :=
  let '(out, cs) := Source.Register ToLower (clients m) scheme resourceClient adaptor hks in
  (out, mkManager cs (pluginDir m)).

Definition UnRegister (m : clientManager) (scheme : string) : clientManager :=
  mkManager (Source.UnRegister ToLower (clients m) scheme) (pluginDir m).

(** [func (m *clientManager) GetClient(scheme string, options ...Option)
    (ResourceClient, bool)]: the client found or loaded, and the manager
    afterwards.  The locks have no effect on a single call; the second
    lookup, under the write lock, finds what the first found. *)
Definition GetClient (m : clientManager) (scheme : string) (options : list Option)
  : option client * bool * clientManager :=
  let scheme := ToLower scheme in
  match clients m !! scheme with
  | Some c => (Some c, true, m)
  | None =>
      let m := fold_left (fun m opt => opt m) options m in
      match LoadPlugin (pluginDir m) scheme with
      | None => (None, false, m)
      | Some rc =>
          (Some (Plugin rc), true,
           mkManager (doRegister ToLower (clients m) scheme (Plugin rc)) (pluginDir m))
      end
  end.

(** *** The entry points of the package, on its default manager *)

(** [Request], [Response] and [ExpireInfo] are declared in files of the
    package that are not among the sources; what the entry points do with
    a request is given by the functions below. *)
Context {Request Response ExpireInfo E : Type}.

(** [request.URL.Scheme] *)
Variable Scheme : Request -> string.
(** [_, ok := request.Context().Deadline()] *)
Variable hasDeadline : Request -> bool.
(** [request.WithContext(ctx)] for the context with the four-second
    timeout. *)
Variable WithTimeout : Request -> Request.
(** [request.Header.get(Range)] and [request.Header.Add(Range, "0-0")]. *)
Variable Header_get_Range : Request -> string.
Variable Header_Add_Range_0_0 : Request -> Request.
(** Calling a [requestAdapter]. *)
Variable adapt : requestAdapter -> Request -> Request.

(** The methods of the interface [ResourceClient]. *)
Variable rc_GetContentLength : ResourceClient -> Request -> Z * option (goerror E).
Variable rc_IsSupportRange : ResourceClient -> Request -> bool * option (goerror E).
Variable rc_IsExpired : ResourceClient -> Request -> ExpireInfo -> bool * option (goerror E).
Variable rc_Download : ResourceClient -> Request -> option Response * option (goerror E).
Variable rc_GetLastModified : ResourceClient -> Request -> Z * option (goerror E).

(** The methods of [*clientWrapper] call the wrapped client on the adapted
    request; a client loaded from a plugin is called as it is. *)
Definition client_GetContentLength (c : client) (request : Request) :=
  match c with
  | Wrapper w => rc_GetContentLength (rc w) (adapt (adapter w) request)
  | Plugin c => rc_GetContentLength c request
  end.

Definition client_IsSupportRange (c : client) (request : Request) :=
  match c with
  | Wrapper w => rc_IsSupportRange (rc w) (adapt (adapter w) request)
  | Plugin c => rc_IsSupportRange c request
  end.

Definition client_IsExpired (c : client) (request : Request) (info : ExpireInfo) :=
  match c with
  | Wrapper w => rc_IsExpired (rc w) (adapt (adapter w) request) info
  | Plugin c => rc_IsExpired c request info
  end.

Definition client_Download (c : client) (request : Request) :=
  match c with
  | Wrapper w => rc_Download (rc w) (adapt (adapter w) request)
  | Plugin c => rc_Download c request
  end.

Definition client_GetLastModified (c : client) (request : Request) :=
  match c with
  | Wrapper w => rc_GetLastModified (rc w) (adapt (adapter w) request)
  | Plugin c => rc_GetLastModified c request
  end.

(** [errors.Wrapf(ErrNoClientFound, "scheme: %s", request.URL.Scheme)] *)
Definition noClient (request : Request) : goerror E :=
  Wrapf (Sentinel NoClientFound) ("scheme: " ++ Scheme request).

(** The request with the default timeout when it has no deadline. *)
Definition withDefaultTimeout (request : Request) : Request :=
  if hasDeadline request then request else WithTimeout request.

(** [func GetContentLength(request *Request) (int64, error)] *)
Definition GetContentLength (m : clientManager) (request : Request)
  : Z * option (goerror E) * clientManager :=
  match GetClient m (Scheme request) [] with
  | (Some c, true, m') => (client_GetContentLength c (withDefaultTimeout request), m')
  | (_, _, m') => (UnknownSourceFileLen, Some (noClient request), m')
  end.

(** [func IsSupportRange(request *Request) (bool, error)] *)
Definition IsSupportRange (m : clientManager) (request : Request)
  : bool * option (goerror E) * clientManager :=
  match GetClient m (Scheme request) [] with
  | (Some c, true, m') =>
      let request := withDefaultTimeout request in
      let request :=
        if String.eqb (Header_get_Range request) EmptyString
        then Header_Add_Range_0_0 request else request in
      (client_IsSupportRange c request, m')
  | (_, _, m') => (false, Some (noClient request), m')
  end.

(** [func IsExpired(request *Request, info *ExpireInfo) (bool, error)] *)
Definition IsExpired (m : clientManager) (request : Request) (info : ExpireInfo)
  : bool * option (goerror E) * clientManager :=
  match GetClient m (Scheme request) [] with
  | (Some c, true, m') => (client_IsExpired c (withDefaultTimeout request) info, m')
  | (_, _, m') => (false, Some (noClient request), m')
  end.

(** [func GetLastModified(request *Request) (int64, error)] *)
Definition GetLastModified (m : clientManager) (request : Request)
  : Z * option (goerror E) * clientManager :=
  match GetClient m (Scheme request) [] with
  | (Some c, true, m') => (client_GetLastModified c (withDefaultTimeout request), m')
  | (_, _, m') => (-1, Some (noClient request), m')
  end.

(** [func Download(request *Request)], returning the response and the
    error: no timeout is set here. *)
Definition Download (m : clientManager) (request : Request)
  : option Response * option (goerror E) * clientManager :=
  match GetClient m (Scheme request) [] with
  | (Some c, true, m') => (client_Download c request, m')
  | (_, _, m') => (None, Some (noClient request), m')
  end.

End Manager.

End SourceManager.

(** ** [client/daemon/peer/piece_downloader.go]: [NewPieceDownloader] *)

Module PieceDownloader.

Section New.

(** [http.RoundTripper] values and the errors of the options. *)
Context {RoundTripper Err : Type}.

(** [var defaultTransport http.RoundTripper] *)
Variable defaultTransport : RoundTripper.

(** [http.Client], the two fields that are set; a [nil] transport is
    [None]. *)
Record http_Client : Type := mkClient {
  Transport : option RoundTripper;
  Timeout : Z
}.

(** [type pieceDownloader struct] *)
Record pieceDownloader : Type := mkDownloader {
  transport : option RoundTripper;
  httpClient : option http_Client
}.

(** An option, a function from a pointer to the downloader to an [error]:
    what it leaves of the
    downloader, and its error. *)
Definition option_func : Type := pieceDownloader -> pieceDownloader * option Err.

(** [func WithTransport(rt http.RoundTripper)], returning an option. *)
Definition WithTransport (rt : option RoundTripper) : option_func :=
  fun d => (mkDownloader rt (httpClient d), None).

(** The [for _, opt := range opts] loop of [NewPieceDownloader]: the first
    error ends it. *)
Fixpoint apply_opts (opts : list option_func) (pd : pieceDownloader)
  : pieceDownloader + Err :=
  match opts with
  | [] => inl pd
  | opt :: opts' =>
      match opt pd with
      | (_, Some err) => inr err
      | (pd', None) => apply_opts opts' pd'
      end
  end.

(** [func NewPieceDownloader(timeout, opts...) (PieceDownloader, error)] *)
Definition NewPieceDownloader (timeout : Z) (opts : list option_func)
  : option pieceDownloader * option Err :=
  match apply_opts opts (mkDownloader None None) with
  | inr err => (None, Some err)
  | inl pd =>
      let tr := match transport pd with
                | None => Some defaultTransport
                | Some rt => Some rt
                end in
      (Some (mkDownloader tr (Some (mkClient tr timeout))), None)
  end.

End New.

End PieceDownloader.

(** ** [scheduler/resource/host.go] *)

Module Resource.

(** [const defaultUploadLoadLimit = 100] *)
Definition defaultUploadLoadLimit : Z := 100.

(** Conversion to [int32] and [int32] arithmetic wrap around. *)
Definition wrap_int32 (x : Z) : Z := (x + 2 ^ 31) mod 2 ^ 32 - 2 ^ 31.

(** [scheduler.PeerHost], the fields [NewHost] reads. *)
Module PeerHost.
Record t : Type := mk {
  Uuid : string;
  Ip : string;
  HostName : string;
  RpcPort : Z;
  DownPort : Z;
  SecurityDomain : string;
  Idc : string;
  NetTopology : string;
  Location : string
}.
End PeerHost.

Section Host.

(** [Peer] is declared in a file that is not among the sources; the host
    reads its [ID] only. *)
Context {Peer : Type}.
Variable Peer_ID : Peer -> string.

(** [type Host struct], without its logger.  [Peers] is a [sync.Map] whose
    keys are peer IDs; the two times are what [time.Now()] returned. *)
Record Host : Type := mkHost {
  ID : string;
  IP : string;
  Hostname : string;
  Port : Z;
  DownloadPort : Z;
  SecurityDomain : string;
  IDC : string;
  NetTopology : string;
  Location : string;
  UploadLoadLimit : Z;
  Peers : gmap string Peer;
  IsCDN : bool;
  CreateAt : Z;
  UpdateAt : Z
}.

Definition with_Peers (ps : gmap string Peer) (h : Host) : Host :=
  mkHost (ID h) (IP h) (Hostname h) (Port h) (DownloadPort h) (SecurityDomain h) (IDC h)
    (NetTopology h) (Location h) (UploadLoadLimit h) ps (IsCDN h) (CreateAt h) (UpdateAt h).

(** [type HostOption func(h *Host) *Host] *)
Definition HostOption : Type := Host -> Host.

(** [func WithUploadLoadLimit(limit int32) HostOption] *)
Definition WithUploadLoadLimit (limit : Z) : HostOption :=
  fun h =>
    mkHost (ID h) (IP h) (Hostname h) (Port h) (DownloadPort h) (SecurityDomain h) (IDC h)
      (NetTopology h) (Location h) limit (Peers h) (IsCDN h) (CreateAt h) (UpdateAt h).

(** [func WithIsCDN(isCDN bool) HostOption] *)
Definition WithIsCDN (isCDN : bool) : HostOption :=
  fun h =>
    mkHost (ID h) (IP h) (Hostname h) (Port h) (DownloadPort h) (SecurityDomain h) (IDC h)
      (NetTopology h) (Location h) (UploadLoadLimit h) (Peers h) isCDN (CreateAt h) (UpdateAt h).

(** [func NewHost(rawHost *scheduler.PeerHost, options ...HostOption) *Host];
    [now1] and [now2] are the two readings of the clock. *)
Definition NewHost (now1 now2 : Z) (rawHost : PeerHost.t) (options : list HostOption) : Host :=
  fold_left (fun h opt => opt h) options
    (mkHost (PeerHost.Uuid rawHost) (PeerHost.Ip rawHost) (PeerHost.HostName rawHost)
       (PeerHost.RpcPort rawHost) (PeerHost.DownPort rawHost)
       (PeerHost.SecurityDomain rawHost) (PeerHost.Idc rawHost)
       (PeerHost.NetTopology rawHost) (PeerHost.Location rawHost)
       defaultUploadLoadLimit ∅ false now1 now2).

(** [func (h *Host) LoadPeer(key string)], returning the peer and [ok]. *)
Definition LoadPeer (h : Host) (key : string) : option Peer * bool :=
  match Peers h !! key with
  | None => (None, false)
  | Some p => (Some p, true)
  end.

(** [func (h *Host) StorePeer(peer *Peer)] *)
Definition StorePeer (h : Host) (peer : Peer) : Host :=
  with_Peers (<[Peer_ID peer := peer]> (Peers h)) h.

(** [func (h *Host) LoadOrStorePeer(peer *Peer)], returning the peer and
    [loaded], and the
    host afterwards. *)
Definition LoadOrStorePeer (h : Host) (peer : Peer) : Peer * bool * Host :=
  match Peers h !! Peer_ID peer with
  | Some p => (p, true, h)
  | None => (peer, false, with_Peers (<[Peer_ID peer := peer]> (Peers h)) h)
  end.

(** [func (h *Host) DeletePeer(key string)] *)
Definition DeletePeer (h : Host) (key : string) : Host :=
  with_Peers (delete key (Peers h)) h.

(** [func (h *Host) LenPeers() int]: [Range] visits every entry once. *)
Definition LenPeers (h : Host) : Z :=
  map_fold (fun _ _ len => len + 1) 0 (Peers h).

(** [func (h *Host) FreeUploadLoad() int32] *)
Definition FreeUploadLoad (h : Host) : Z :=
  wrap_int32 (UploadLoadLimit h - wrap_int32 (LenPeers h)).

End Host.

End Resource.

(** ** The HDFS origin client ([pkg/source/hdfsprotocol]) *)

Module HDFS.
Import Go.

(** [strings.Split(s, sep)] for a one-byte separator. *)
Fixpoint Split (sep : ascii) (s : string) : list string :=
  match s with
  | EmptyString => [EmptyString]
  | String c s' =>
      if Ascii.eqb c sep then EmptyString :: Split sep s'
      else match Split sep s' with
           | x :: xs => String c x :: xs
           | [] => [String c EmptyString]
           end
  end.

(** [hdfs.ClientOptions] as [getHDFSClient] fills it in: the addresses, the
    user, and the configuration [dfs.client.use.datanode.hostname = true]. *)
Record ClientOptions : Type := mkOptions {
  Addresses : list string;
  User : string;
  UseDatanodeHostname : bool
}.

(** [os.FileInfo] of an HDFS file: its size and its modification time in
    nanoseconds since the epoch. *)
Record FileInfo : Type := mkFileInfo {
  Size : Z;
  ModTime_UnixNano : Z
}.

Section Client.

(** [*hdfs.Client] values and the errors of the HDFS library and of
    [os/user]. *)
Context {Client Err : Type}.

(** The errors of the origin client: its own, with the URL, or one of the
    library. *)
Inductive error : Type :=
  | CreateClientFailed (url : Transport.URL.t)
  | LibraryError (e : Err).

(** [user.Current()]: the user name, or an error. *)
Variable user_Current : string + Err.
(** [hdfs.NewClient(options)] *)
Variable NewClient : ClientOptions -> Client + Err.
(** [hdfsClient.Stat(path)] *)
Variable Stat : Client -> string -> FileInfo + Err.
(** [t.Format(source.LastModifiedLayout)] on a time given in nanoseconds. *)
Variable FormatLastModified : Z -> string.

(** [type hdfsSourceClient struct]: its map of clients by host. *)
Abbreviation clientMap := (gmap string Client).

(** [func (h *hdfsSourceClient) getHDFSClient(url *url.URL)], returning
    the client or an error, and the map afterwards. *)
Definition getHDFSClient (h : clientMap) (url : Transport.URL.t)
  : (Client + Err) * clientMap :=
  match h !! Transport.URL.Host url with
  | Some client => (inl client, h)
  | None =>
      let options := mkOptions (Split ","%char (Transport.URL.Host url)) EmptyString true in
      match user_Current with
      | inr err => (inr err, h)
      | inl username =>
          let options := mkOptions (Addresses options) username (UseDatanodeHostname options) in
          match NewClient options with
          | inr err => (inr err, h)
          | inl client => (inl client, <[Transport.URL.Host url := client]> h)
          end
      end
  end.

(** [func (h *hdfsSourceClient) getHDFSClientAndPath(url *url.URL)]: the
    client and the path, or the package's own error. *)
Definition getHDFSClientAndPath (h : clientMap) (url : Transport.URL.t)
  : (Client * string + error) * clientMap :=
  match getHDFSClient h url with
  | (inr _, h') => (inr (CreateClientFailed url), h')
  | (inl client, h') => (inl (client, Transport.URL.Path url), h')
  end.

(** [func (h *hdfsSourceClient) GetContentLength(request) (int64, error)] *)
Definition GetContentLength (h : clientMap) (url : Transport.URL.t)
  : Z * option error * clientMap :=
  match getHDFSClientAndPath h url with
  | (inr err, h') => (SourceManager.UnknownSourceFileLen, Some err, h')
  | (inl (hdfsClient, path), h') =>
      match Stat hdfsClient path with
      | inr err => (SourceManager.UnknownSourceFileLen, Some (LibraryError err), h')
      | inl info => (Size info, None, h')
      end
  end.

(** [func (h *hdfsSourceClient) IsSupportRange(request) (bool, error)] *)
Definition IsSupportRange (h : clientMap) (url : Transport.URL.t)
  : bool * option error * clientMap :=
  match getHDFSClientAndPath h url with
  | (inr err, h') => (false, Some err, h')
  | (inl (hdfsClient, path), h') =>
      match Stat hdfsClient path with
      | inr err => (false, Some (LibraryError err), h')
      | inl _ => (true, None, h')
      end
  end.

(** [func (h *hdfsSourceClient) IsExpired(request, info) (bool, error)];
    [lastModified] is [info.LastModified]. *)
Definition IsExpired (h : clientMap) (url : Transport.URL.t) (lastModified : string)
  : bool * option error * clientMap :=
  match getHDFSClientAndPath h url with
  | (inr err, h') => (false, Some err, h')
  | (inl (hdfsClient, path), h') =>
      match Stat hdfsClient path with
      | inr err => (false, Some (LibraryError err), h')
      | inl fileInfo =>
          (negb (String.eqb (FormatLastModified (ModTime_UnixNano fileInfo)) lastModified),
           None, h')
      end
  end.

(** [func (h *hdfsSourceClient) GetLastModified(request) (int64, error)]:
    milliseconds, by the truncating division of Go. *)
Definition GetLastModified (h : clientMap) (url : Transport.URL.t)
  : Z * option error * clientMap :=
  match getHDFSClientAndPath h url with
  | (inr err, h') => (-1, Some err, h')
  | (inl (hdfsClient, path), h') =>
      match Stat hdfsClient path with
      | inr err => (-1, Some (LibraryError err), h')
      | inl info => (Z.quot (ModTime_UnixNano info) 1000000, None, h')
      end
  end.

End Client.

End HDFS.

(** ** Concrete instances used in the examples below *)

Module Examples.
Import Go Transport.

(** A conversion to a flat map that keeps the first value of each header. *)
Definition firstValues (h : http_Header) : gmap string string :=
  (fun vs => default EmptyString (head vs)) <$> h.

Definition singleValues (attr : option (gmap string string)) : http_Header :=
  (fun v => [v]) <$> default ∅ attr.

(** A peer task manager that serves every task with a ten-byte stream. *)
Definition serveTen (r : StreamTaskRequest.t) : @StreamTaskResult (list Byte.byte) string :=
  mkStreamTaskResult (Some (repeat Byte.x00 10))
    (Some {[ "Content-Length"%string := "10"%string ]}) None.

Definition noBase (req : Request.t)
  : option (Response.t (list Byte.byte)) * option string :=
  (None, Some "no route"%string).

Definition proxy : @transport (list Byte.byte) string :=
  mkTransport noBase NeedUseDragonfly serveTen "10.0.0.1" "Expires&Signature" "d7y" false.

Definition roundTrip :=
  RoundTrip (fun u => (URL.Scheme u ++ "://" ++ URL.Host u ++ URL.Path u)%string)
    (fun ip => (ip ++ "-1-uuid")%string) firstValues singleValues
    "X-Dragonfly-Task" "X-Dragonfly-Peer" (Body := list Byte.byte) (Err := string).

Definition layerRequest : Request.t :=
  Request.mk "GET" (URL.mk "https" "registry.example" "/v2/nginx/blobs/sha256:0a1b" "")
    "proxy.local"
    (list_to_map [ ("Accept-Encoding", ["gzip"]); ("User-Agent", ["docker/20.10"]);
                   ("Range", ["bytes=0-9"]); ("X-Dragonfly-Biz", ["team-a"]);
                   ("Traceparent", ["00-aa-bb-01"]); ("Authorization", ["Bearer t"]) ]%string)
    "HTTP/1.1" 1 1.

Definition manifestRequest : Request.t :=
  Request.mk "GET" (URL.mk "https" "registry.example" "/v2/nginx/manifests/latest" "")
    "proxy.local"
    (list_to_map [ ("User-Agent", ["docker/20.10"]) ]%string)
    "HTTP/1.1" 1 1.

Definition request (method path : string) : Request.t :=
  Request.mk method (URL.mk "https" "registry.example" path "") "" ∅ "HTTP/1.1" 1 1.

End Examples.

Module PeerExamples.
Import Go Peer.

Definition samplePiece : PieceInfo.t := PieceInfo.mk 1 1024 1024 "0cc175b9c0f1b6a831c399e269772661" 1024 0.

Definition sampleRequest : DownloadPieceRequest.t :=
  DownloadPieceRequest.mk samplePiece "0a1b2c3d4e" "peer-a" "peer-x" "10.0.0.7:65002" true.

(** A stand-in for the digest in the examples: the sum of the bytes, in
    decimal. *)
Definition byteSum (bs : list Byte.byte) : string :=
  FormatUint (Z.of_nat (list_sum (map Byte.to_nat bs))).

Definition abc : list Byte.byte := [Byte.x61; Byte.x62; Byte.x63].

(** [url.Parse] on the texts of the examples: like the one of the library
    it refuses a text that holds an ASCII control character; it is taken to
    accept any other, and the parsed URL is shown by its text.  The hosts
    of the examples have a port, so that [removeEmptyPort] changes
    nothing. *)
Definition stringContainsCTLByte (s : string) : bool :=
  existsb (fun c => (nat_of_ascii c <? 32)%nat || (nat_of_ascii c =? 127)%nat)
    (list_ascii_of_string s).

Definition parseURL (rawURL : string) : option string :=
  if stringContainsCTLByte rawURL then None else Some rawURL.

Definition keepHost (u : string) : string := u.

(** A request whose task ID ends in a line feed. *)
Definition lineFeedRequest : DownloadPieceRequest.t :=
  DownloadPieceRequest.mk samplePiece ("abc" ++ String newline EmptyString)
    "peer-a" "peer-x" "10.0.0.7:65002" true.

(** A peer that answers every request with status 200 and the body [abc]. *)
Definition peerOK (hreq : @HTTPRequest.t string) : @DoResult string :=
  DoResponse (mkHTTPResponse "200 OK" 200 (BodyReader abc EOF)).

Definition peerGone (hreq : @HTTPRequest.t string) : @DoResult string :=
  DoResponse (mkHTTPResponse "404 Not Found" 404 (BodyReader [] EOF)).

Definition peerDown (hreq : @HTTPRequest.t string) : @DoResult string :=
  DoError "connection refused"%string.

(** A request for the first byte of the task, with the digest of [a]. *)
Definition firstByteRequest (calcDigest : bool) : DownloadPieceRequest.t :=
  DownloadPieceRequest.mk (PieceInfo.mk 0 0 1 "97" 0 0)
    "0a1b2c3d4e" "peer-a" "peer-x" "10.0.0.7:65002" calcDigest.

End PeerExamples.

Module StreamTaskExamples.
Import StreamTask.

(** Ten bytes in pieces of four: piece 0 comes from the peer, pieces 1 and
    2 from the origin. *)
Definition tenBytes : bytes :=
  [Byte.x30; Byte.x31; Byte.x32; Byte.x33; Byte.x34;
   Byte.x35; Byte.x36; Byte.x37; Byte.x38; Byte.x39].

(** A stand-in for the aggregate digest in the examples: the MD5s joined
    by commas. *)
Definition joinDigests (md5s : list string) : string := String.concat "," md5s.

(** The scenario on [tenBytes]: the packet of an honest peer, and the two
    runs. *)
Definition honestPacket : Directive :=
  firstPacket tenBytes 4
    (Some (originSign PeerExamples.byteSum joinDigests tenBytes 4))
    (PeerExamples.byteSum (slice tenBytes 4 0)) (slice tenBytes 4 0).

Definition runTen (ds : list Directive) : Conductor :=
  run PeerExamples.byteSum joinDigests tenBytes 4 ds.

End StreamTaskExamples.

(** ** More concrete instances: a registry of numbered clients, a failing
    peer task manager, a host of named peers, an HDFS library *)

Module RegistryExamples.
Import Source SourceManager.

(** Clients are numbers; adapters and hooks carry nothing. *)
Abbreviation manager := (@clientManager nat unit unit).

Definition empty : manager := NewManager.

(** A plugin directory that holds a client for [oss] only. *)
Definition ossPlugin (dir scheme : string) : option nat :=
  if String.eqb scheme "oss" then Some 9%nat else None.

Definition noPlugin (dir scheme : string) : option nat := None.

(** Requests are their scheme; a client answers with its number. *)
Definition answerLength (c : nat) (request : string) : Z * option (goerror string) :=
  (Z.of_nat c, None).
Definition answerBool (c : nat) (request : string) : bool * option (goerror string) :=
  (true, None).
Definition answerExpired (c : nat) (request : string) (info : unit)
  : bool * option (goerror string) := (false, None).
Definition answerDownload (c : nat) (request : string)
  : option (list Byte.byte) * option (goerror string) := (Some [], None).

Definition tt_adapt (a : unit) (request : string) : string := request.

End RegistryExamples.

Module TransportFailureExamples.
Import Go Transport Examples.

(** A peer task manager that fails every task and names it. *)
Definition failTask (r : StreamTaskRequest.t) : @StreamTaskResult (list Byte.byte) string :=
  mkStreamTaskResult None
    (Some {[ "X-Dragonfly-Task"%string := "task-1"%string;
             "X-Dragonfly-Peer"%string := "peer-1"%string ]})
    (Some "back source failed"%string).

Definition brokenProxy : @transport (list Byte.byte) string :=
  mkTransport noBase NeedUseDragonfly failTask "10.0.0.1" "Expires&Signature" "d7y" false.

(** The layer request of [Examples.layerRequest] as another client sends
    it over a kept-alive connection, without compression and without a
    trace. *)
Definition layerRequestKeepAlive : Request.t :=
  Request.mk "GET" (URL.mk "https" "registry.example" "/v2/nginx/blobs/sha256:0a1b" "")
    "proxy.local"
    (list_to_map [ ("Connection", ["keep-alive"]); ("User-Agent", ["curl/8.0"]);
                   ("Range", ["bytes=0-9"]); ("X-Dragonfly-Biz", ["team-a"]);
                   ("Authorization", ["Bearer t"]) ]%string)
    "HTTP/1.1" 1 1.

End TransportFailureExamples.

Module PieceDownloaderExamples.
Import PieceDownloader.

(** Transports are names. *)
Definition badOption : @option_func string string :=
  fun d => (d, Some "bad option"%string).

End PieceDownloaderExamples.

Module HostExamples.
Import Resource.

(** A peer is its ID and a piece count. *)
Definition rawHost : PeerHost.t :=
  PeerHost.mk "host-1" "10.0.0.9" "node-9" 8002 8001 "" "idc-a" "sw1|r1" "cn|hz".

Definition host0 : @Host (string * Z) := NewHost 1000 1001 rawHost [].

Definition host2 : @Host (string * Z) :=
  StorePeer fst (StorePeer fst host0 ("peer-a"%string, 3)) ("peer-b"%string, 0).

(** A host limited to one upload that holds two peers. *)
Definition crowded : @Host (string * Z) :=
  StorePeer fst
    (StorePeer fst (NewHost 1000 1001 rawHost [WithUploadLoadLimit 1]) ("peer-a"%string, 3))
    ("peer-b"%string, 0).

End HostExamples.

Module HDFSExamples.
Import HDFS.

(** Clients are numbered by the number of their addresses. *)
Definition newClient (options : ClientOptions) : nat + string :=
  inl (length (Addresses options)).

Definition refuse (options : ClientOptions) : nat + string :=
  inr "connection refused"%string.

Definition stat (client : nat) (path : string) : FileInfo + string :=
  inl (mkFileInfo 42 0).

Definition nameNodes : Transport.URL.t :=
  Transport.URL.mk "hdfs" "nn1:8020,nn2:8020" "/data/part-0" "".

Definition otherFile : Transport.URL.t :=
  Transport.URL.mk "hdfs" "nn1:8020,nn2:8020" "/data/part-1" "".

End HDFSExamples.

(** * Properties *)

(** ** The origin-client registry and the status check *)

Section SourceProperties.

Import Source.

Lemma CheckResponseCode_range_decide (respCode : Z) (all rest : list Z) :
  CheckResponseCode_range respCode all rest =
  if decide (respCode ∈ rest) then None else Some (mkUnexpected all respCode).
Proof.
  induction rest as [|v rest IH]; cbn [CheckResponseCode_range].
  - rewrite decide_False by apply not_elem_of_nil. reflexivity.
  - destruct (Z.eqb_spec respCode v) as [->|Hne].
    + rewrite decide_True by left. reflexivity.
    + rewrite IH. destruct (decide (respCode ∈ rest)) as [Hin|Hin].
      * rewrite decide_True by (by right). reflexivity.
      * rewrite decide_False; [reflexivity|].
        intros [?|?]%elem_of_cons; contradiction.
Qed.

(** C10: for every status code and every list of allowed codes,
    [CheckResponseCode] returns [nil] exactly when the code is in the list;
    otherwise it returns an [UnexpectedStatusCodeError] whose [Got()] is the
    code (and whose allowed list is the one given). *)
Theorem CheckResponseCode_nil_iff_allowed (respCode : Z) (allowed : list Z) :
  (CheckResponseCode respCode allowed = None <-> respCode ∈ allowed) /\
  (respCode ∉ allowed ->
   exists e, CheckResponseCode respCode allowed = Some e /\
             Got e = respCode /\ Source.allowed e = allowed).
Proof.
  unfold CheckResponseCode. rewrite CheckResponseCode_range_decide.
  split.
  - case_decide; split; intros; done.
  - intros Hn. rewrite decide_False by done. eexists. split; [reflexivity|done].
Qed.

Lemma CheckResponseCode_witness :
  (500 ∉ [200; 206]) /\
  exists e, CheckResponseCode 500 [200; 206] = Some e /\
            Got e = 500 /\ Source.allowed e = [200; 206].
Proof.
  assert (Hn : 500 ∉ [200; 206]) by (rewrite !not_elem_of_cons; repeat split; [lia | lia | apply not_elem_of_nil]).
  split; [exact Hn|].
  exact (proj2 (CheckResponseCode_nil_iff_allowed 500 [200; 206]) Hn).
Defined.

Context {ResourceClient : Type} `{EqDecision ResourceClient}.
Context {requestAdapter Hook : Type}.
Variable ToLower : string -> string.
Hypothesis ToLower_idempotent : forall s, ToLower (ToLower s) = ToLower s.

Implicit Types clients : gmap string (@client ResourceClient requestAdapter Hook).

(** A first registration stores a wrapper of the client under the lower-case
    scheme. *)
Lemma Register_fresh clients scheme resourceClient adaptor hks :
  clients !! ToLower scheme = None ->
  Register ToLower clients scheme resourceClient adaptor hks =
  (Return None,
   <[ToLower scheme := Wrapper (mkWrapper adaptor hks resourceClient)]> clients).
Proof.
  intros Hfree. unfold Register, doRegister. rewrite Hfree.
  by rewrite ToLower_idempotent.
Qed.

(** A registration over a wrapper leaves the map alone, and is an error
    exactly when the clients differ. *)
Lemma Register_present clients scheme w resourceClient adaptor hks :
  clients !! ToLower scheme = Some (Wrapper w) ->
  Register ToLower clients scheme resourceClient adaptor hks =
  (Return (if decide (rc w = resourceClient) then None
           else Some (ErrAlreadyExist (ToLower scheme) (Wrapper w))),
   clients).
Proof.
  intros Hw. unfold Register. rewrite Hw. by case_decide.
Qed.

(** Another scheme is never touched. *)
Lemma Register_other clients scheme resourceClient adaptor hks k :
  k <> ToLower scheme ->
  snd (Register ToLower clients scheme resourceClient adaptor hks) !! k = clients !! k.
Proof.
  intros Hk. unfold Register, doRegister.
  destruct (clients !! ToLower scheme) as [[w|c]|] eqn:E; simpl; try done.
  - by case_decide.
  - rewrite ToLower_idempotent. by rewrite lookup_insert_ne.
Qed.

End SourceProperties.

(** [strings.ToLower] on its ASCII path is idempotent. *)
Lemma lower_byte_idempotent (c : ascii) : Go.lower_byte (Go.lower_byte c) = Go.lower_byte c.
Proof. destruct c as [[] [] [] [] [] [] [] []]; reflexivity. Qed.

Lemma ToLower_idempotent (s : string) : Go.ToLower (Go.ToLower s) = Go.ToLower s.
Proof.
  induction s as [|c s IH]; simpl; [done|].
  by rewrite lower_byte_idempotent, IH.
Qed.

(** C5: [Register] stores the client under the lower-case form of the
    scheme; a second [Register] for the same scheme (in any letter case)
    returns [nil] and leaves the registry unchanged when it is given the
    client already registered, and returns an error and leaves the registry
    unchanged when it is given another client. *)
Theorem Register_lowercase_idempotent_conflict
    {ResourceClient : Type} `{EqDecision ResourceClient} {requestAdapter Hook : Type}
    (ToLower : string -> string)
    (ToLower_idem : forall s, ToLower (ToLower s) = ToLower s)
    (clients : gmap string (@Source.client ResourceClient requestAdapter Hook))
    (scheme : string) (resourceClient : ResourceClient)
    (adaptor : requestAdapter) (hks : list Hook) :
  clients !! ToLower scheme = None ->
  let stored := Source.Wrapper (Source.mkWrapper adaptor hks resourceClient) in
  let clients1 := <[ToLower scheme := stored]> clients in
  Source.Register ToLower clients scheme resourceClient adaptor hks
    = (Source.Return None, clients1) /\
  clients1 !! ToLower scheme = Some stored /\
  forall scheme' resourceClient' adaptor' hks',
    ToLower scheme' = ToLower scheme ->
    (resourceClient' = resourceClient ->
     Source.Register ToLower clients1 scheme' resourceClient' adaptor' hks'
       = (Source.Return None, clients1)) /\
    (resourceClient' <> resourceClient ->
     exists e,
       Source.Register ToLower clients1 scheme' resourceClient' adaptor' hks'
         = (Source.Return (Some e), clients1)).
Proof.
  intros Hfree stored clients1.
  split; [by apply Register_fresh|].
  assert (Hl : clients1 !! ToLower scheme = Some stored)
    by apply lookup_insert_eq.
  split; [done|].
  intros scheme' rc' a' h' Hs.
  rewrite <- Hs in Hl.
  rewrite (Register_present ToLower clients1 scheme' _ rc' a' h' Hl). simpl.
  split; intros Hrc.
  - by rewrite decide_True.
  - rewrite decide_False by done. by eexists.
Qed.

Lemma Register_witness :
  let stored : @Source.client nat unit unit := Source.Wrapper (Source.mkWrapper tt [] 7%nat) in
  let clients1 := <["hdfs"%string := stored]> (∅ : gmap string Source.client) in
  Source.Register Go.ToLower ∅ "HDFS" 7%nat tt [] = (Source.Return None, clients1) /\
  clients1 !! "hdfs"%string = Some stored /\
  Source.Register Go.ToLower clients1 "Hdfs" 7%nat tt [] = (Source.Return None, clients1) /\
  exists e, Source.Register Go.ToLower clients1 "hdfs" 8%nat tt []
            = (Source.Return (Some e), clients1).
Proof.
  pose proof (Register_lowercase_idempotent_conflict
                (ResourceClient := nat) (requestAdapter := unit) (Hook := unit)
                Go.ToLower ToLower_idempotent ∅ "HDFS" 7%nat tt []
                (lookup_empty _)) as (H1 & H2 & H3).
  simpl in *.
  split; [exact H1|]. split; [exact H2|]. split.
  - exact (proj1 (H3 "Hdfs"%string 7%nat tt [] eq_refl) eq_refl).
  - apply (proj2 (H3 "hdfs"%string 8%nat tt [] eq_refl)). lia.
Defined.

(** A value stored by [GetClient] from a plugin is not a wrapper: a
    [Register] for its scheme panics on the type assertion. *)
Example Register_over_plugin_panics :
  fst (Source.Register (ResourceClient := nat) (requestAdapter := unit) (Hook := unit)
         Go.ToLower {[ "oss"%string := Source.Plugin 3%nat ]} "OSS" 3%nat tt [])
  = Source.Panics.
Proof. vm_compute. reflexivity. Qed.

(** ** The library functions on sample inputs *)

Section GoExamples.
Import Go.

Example CanonicalMIMEHeaderKey_lower_case :
  CanonicalMIMEHeaderKey "accept-encoding" = "Accept-Encoding"%string.
Proof. reflexivity. Qed.

Example CanonicalMIMEHeaderKey_trace_fields :
  map CanonicalMIMEHeaderKey Transport.traceContext_Fields
  = ["Traceparent"; "Tracestate"]%string.
Proof. reflexivity. Qed.

Example CanonicalMIMEHeaderKey_hop_headers :
  map CanonicalMIMEHeaderKey Transport.hopHeaders = Transport.hopHeaders.
Proof. reflexivity. Qed.

Example CanonicalMIMEHeaderKey_with_space :
  CanonicalMIMEHeaderKey "x forwarded-for" = "x forwarded-for"%string.
Proof. reflexivity. Qed.

Example ParseInt_plain : ParseInt10_64 "10240" = Some 10240.
Proof. reflexivity. Qed.

Example ParseInt_signs :
  ParseInt10_64 "+7" = Some 7 /\ ParseInt10_64 "-7" = Some (-7).
Proof. split; reflexivity. Qed.

Example ParseInt_syntax :
  ParseInt10_64 "" = None /\ ParseInt10_64 "-" = None /\
  ParseInt10_64 "12a" = None /\ ParseInt10_64 "1_000" = None /\
  ParseInt10_64 " 5" = None.
Proof. repeat split; reflexivity. Qed.

Example ParseInt_range :
  ParseInt10_64 "9223372036854775807" = Some (2 ^ 63 - 1) /\
  ParseInt10_64 "9223372036854775808" = None /\
  ParseInt10_64 "-9223372036854775808" = Some (- 2 ^ 63) /\
  ParseInt10_64 "-9223372036854775809" = None.
Proof. repeat split; vm_compute; reflexivity. Qed.

Example FormatUint_samples :
  FormatUint 0 = "0"%string /\ FormatUint 2047 = "2047"%string.
Proof. split; reflexivity. Qed.

End GoExamples.

(** ** The regular-expression matcher *)

Section RegexpProperties.
Import Go.

Lemma Matches_Cat_inv r1 r2 s :
  Matches (Cat r1 r2) s ->
  exists s1 s2, s = s1 ++ s2 /\ Matches r1 s1 /\ Matches r2 s2.
Proof. inversion 1; subst; eauto. Qed.

Lemma Matches_Alt_inv r1 r2 s :
  Matches (Alt r1 r2) s -> Matches r1 s \/ Matches r2 s.
Proof. inversion 1; subst; eauto. Qed.

Lemma Matches_Void s : ~ Matches Void s.
Proof. inversion 1. Qed.

Lemma Matches_Eps_inv s : Matches Eps s -> s = [].
Proof. by inversion 1. Qed.

(** A non-empty word of [r*] starts with a non-empty word of [r]. *)
Lemma Matches_Star_cons r c s :
  Matches (Star r) (c :: s) ->
  exists s1 s2, s = s1 ++ s2 /\ Matches r (c :: s1) /\ Matches (Star r) s2.
Proof.
  intros H. remember (Star r) as r' eqn:Er. remember (c :: s) as w eqn:Ew.
  induction H as [| | | | | | |r0 s1 s2 H1 _ H2 IH2]; try discriminate.
  injection Er as ->.
  destruct s1 as [|c1 s1]; simpl in Ew.
  - by apply IH2.
  - injection Ew as -> <-. eauto.
Qed.

Lemma nullable_Matches r : nullable r = true <-> Matches r [].
Proof.
  induction r as [| | | |r1 IH1 r2 IH2|r1 IH1 r2 IH2|r IH]; simpl.
  - split; [done|]. by intros ?%Matches_Void.
  - split; [constructor|done].
  - split; [done|]. inversion 1.
  - split; [done|]. inversion 1.
  - rewrite andb_true_iff, IH1, IH2. split.
    + intros [H1 H2]. exact (MCat _ _ [] [] H1 H2).
    + intros (s1 & s2 & E & H1 & H2)%Matches_Cat_inv.
      symmetry in E. apply app_eq_nil in E as [-> ->]. done.
  - rewrite orb_true_iff, IH1, IH2. split.
    + intros [?|?]; [by apply MAltL | by apply MAltR].
    + apply Matches_Alt_inv.
  - split; [constructor|done].
Qed.

Lemma deriv_Matches c r s : Matches (deriv c r) s <-> Matches r (c :: s).
Proof.
  revert s.
  induction r as [| | c' | |r1 IH1 r2 IH2|r1 IH1 r2 IH2|r IH]; intros s; simpl.
  - split; inversion 1.
  - split; inversion 1.
  - destruct (Ascii.eqb_spec c c') as [->|Hne].
    + split.
      * intros ->%Matches_Eps_inv. constructor.
      * inversion 1; subst. constructor.
    + split; [by intros ?%Matches_Void|]. inversion 1; subst. done.
  - destruct (Ascii.eqb_spec c newline) as [->|Hne].
    + split; [by intros ?%Matches_Void|]. inversion 1; subst. done.
    + split.
      * intros ->%Matches_Eps_inv. by constructor.
      * inversion 1; subst. constructor.
  - assert (Hcat : Matches (Cat (deriv c r1) r2) s <->
                   exists s1 s2, s = s1 ++ s2 /\ Matches r1 (c :: s1) /\ Matches r2 s2).
    { split.
      - intros (s1 & s2 & -> & H1 & H2)%Matches_Cat_inv.
        exists s1, s2. by rewrite <- IH1.
      - intros (s1 & s2 & -> & H1 & H2). apply MCat; [by apply IH1|done]. }
    destruct (nullable r1) eqn:En.
    + split.
      * intros [H|H]%Matches_Alt_inv.
        -- apply Hcat in H as (s1 & s2 & -> & H1 & H2).
           exact (MCat _ _ (c :: s1) s2 H1 H2).
        -- apply IH2 in H. apply nullable_Matches in En.
           exact (MCat _ _ [] (c :: s) En H).
      * intros (s1 & s2 & E & H1 & H2)%Matches_Cat_inv.
        destruct s1 as [|c1 s1]; simpl in E.
        -- subst s2. apply MAltR. by apply IH2.
        -- injection E as <- ->. apply MAltL, Hcat. eauto.
    + rewrite Hcat. split.
      * intros (s1 & s2 & -> & H1 & H2). exact (MCat _ _ (c :: s1) s2 H1 H2).
      * intros (s1 & s2 & E & H1 & H2)%Matches_Cat_inv.
        destruct s1 as [|c1 s1]; simpl in E.
        -- apply nullable_Matches in H1. congruence.
        -- injection E as <- ->. eauto.
  - split.
    + intros [H|H]%Matches_Alt_inv; [apply MAltL, IH1|apply MAltR, IH2]; done.
    + intros [H|H]%Matches_Alt_inv; [apply MAltL, IH1|apply MAltR, IH2]; done.
  - split.
    + intros (s1 & s2 & -> & H1 & H2)%Matches_Cat_inv.
      apply IH in H1. exact (MStarS _ (c :: s1) s2 H1 H2).
    + intros (s1 & s2 & -> & H1 & H2)%Matches_Star_cons.
      apply MCat; [by apply IH|done].
Qed.

Lemma matches_Matches r s : matches r s = true <-> Matches r s.
Proof.
  revert r. induction s as [|c s IH]; intros r; simpl.
  - apply nullable_Matches.
  - rewrite IH. apply deriv_Matches.
Qed.

Lemma matches_prefix_Matches r s :
  matches_prefix r s = true <-> exists m post, s = m ++ post /\ Matches r m.
Proof.
  revert r. induction s as [|c s IH]; intros r; simpl.
  - rewrite orb_false_r, nullable_Matches. split.
    + intros H. by exists [], [].
    + intros (m & post & E & H). symmetry in E.
      apply app_eq_nil in E as [-> ->]. done.
  - rewrite orb_true_iff, nullable_Matches, IH. split.
    + intros [H|(m & post & -> & H)].
      * by exists [], (c :: s).
      * exists (c :: m), post. split; [done|]. by apply deriv_Matches.
    + intros (m & post & E & H).
      destruct m as [|c1 m]; simpl in E; [by left|].
      injection E as <- ->. right. exists m, post. split; [done|].
      by apply deriv_Matches.
Qed.

Lemma matches_here_Matches R s :
  matches_here R s = true <->
  exists m post, s = m ++ post /\ (endText R = true -> post = []) /\ Matches (expr R) m.
Proof.
  unfold matches_here. destruct (endText R).
  - rewrite matches_Matches. split.
    + intros H. exists s, []. by rewrite app_nil_r.
    + intros (m & post & -> & Hp & H). rewrite (Hp eq_refl), app_nil_r. done.
  - rewrite matches_prefix_Matches. split.
    + intros (m & post & -> & H). exists m, post. done.
    + intros (m & post & -> & _ & H). eauto.
Qed.

Lemma matches_from_Matches R s :
  matches_from R s = true <->
  exists pre m post, s = pre ++ m ++ post /\
    (endText R = true -> post = []) /\ Matches (expr R) m.
Proof.
  induction s as [|c s IH]; simpl.
  - rewrite orb_false_r, matches_here_Matches. split.
    + intros (m & post & E & H). exists [], m, post. done.
    + intros (pre & m & post & E & H). symmetry in E.
      apply app_eq_nil in E as [-> E]. eauto.
  - rewrite orb_true_iff, matches_here_Matches, IH. split.
    + intros [(m & post & E & H)|(pre & m & post & -> & H)].
      * by exists [], m, post.
      * by exists (c :: pre), m, post.
    + intros (pre & m & post & E & H).
      destruct pre as [|c1 pre]; simpl in E.
      * left. eauto.
      * injection E as <- ->. right. eauto.
Qed.

(** [MatchString] decides the language of the compiled expression. *)
Lemma MatchString_MatchesIn R s :
  MatchString R s = true <-> MatchesIn R (list_ascii_of_string s).
Proof.
  unfold MatchString, MatchesIn. destruct (beginText R) eqn:Eb.
  - rewrite matches_here_Matches. split.
    + intros (m & post & E & Hp & H). exists [], m, post. done.
    + intros (pre & m & post & E & Hb & Hp & H).
      rewrite (Hb eq_refl) in E. exists m, post. done.
  - rewrite matches_from_Matches. split.
    + intros (pre & m & post & E & Hp & H). exists pre, m, post. done.
    + intros (pre & m & post & E & _ & Hp & H). exists pre, m, post. done.
Qed.

Lemma Matches_Lits l s : Matches (Lits l) s <-> s = l.
Proof.
  revert s. induction l as [|c l IH]; intros s; simpl.
  - split; [apply Matches_Eps_inv | intros ->; constructor].
  - split.
    + intros (s1 & s2 & -> & H1 & H2)%Matches_Cat_inv.
      inversion H1; subst. apply IH in H2 as ->. done.
    + intros ->. apply (MCat _ _ [c] l); [constructor | by apply IH].
Qed.

Lemma Matches_Star_AnyNotNL s :
  Matches (Star AnyNotNL) s <-> newline ∉ s.
Proof.
  split.
  - intros H. remember (Star AnyNotNL) as r eqn:Er.
    induction H as [| | | | | | |r0 s1 s2 H1 _ H2 IH2]; try discriminate.
    + apply not_elem_of_nil.
    + injection Er as ->. inversion H1; subst. simpl.
      apply not_elem_of_cons. split; [done | by apply IH2].
  - induction s as [|c s IH]; intros Hn.
    + constructor.
    + apply not_elem_of_cons in Hn as [Hc Hs].
      apply (MStarS _ [c] s); [by constructor | by apply IH].
Qed.

Lemma Matches_Plus_AnyNotNL s :
  Matches (Plus AnyNotNL) s <-> s <> [] /\ (newline ∉ s).
Proof.
  unfold Plus. split.
  - intros (s1 & s2 & -> & H1 & H2)%Matches_Cat_inv.
    inversion H1; subst. apply Matches_Star_AnyNotNL in H2. simpl.
    split; [done|]. apply not_elem_of_cons. done.
  - intros [Hne Hn]. destruct s as [|c s]; [done|].
    apply not_elem_of_cons in Hn as [Hc Hs].
    apply (MCat _ _ [c] s); [by constructor | by apply Matches_Star_AnyNotNL].
Qed.

End RegexpProperties.

(** ** HTTP headers *)

Section HeaderProperties.
Import Go.

Lemma Header_Del_lookup (h : http_Header) (key k : string) :
  Header_Del h key !! k =
  if decide (k = CanonicalMIMEHeaderKey key) then None else h !! k.
Proof.
  unfold Header_Del. case_decide as E.
  - subst. apply lookup_delete_eq.
  - by apply lookup_delete_ne.
Qed.

Lemma fold_Header_Del_lookup (keys : list string) (h : http_Header) (k : string) :
  fold_left Header_Del keys h !! k =
  if decide (k ∈ map CanonicalMIMEHeaderKey keys) then None else h !! k.
Proof.
  revert h. induction keys as [|key keys IH]; intros h; cbn [fold_left map].
  - rewrite decide_False by apply not_elem_of_nil. done.
  - rewrite IH, Header_Del_lookup.
    destruct (decide (k ∈ map CanonicalMIMEHeaderKey keys)) as [Hin|Hin].
    + rewrite decide_True by (by right). done.
    + destruct (decide (k = CanonicalMIMEHeaderKey key)) as [->|Hne].
      * rewrite decide_True by left. done.
      * rewrite decide_False; [done|]. intros [?|?]%elem_of_cons; done.
Qed.

Lemma Header_Set_lookup (h : http_Header) (key v k : string) :
  Header_Set h key v !! k =
  if decide (k = CanonicalMIMEHeaderKey key) then Some [v] else h !! k.
Proof.
  unfold Header_Set. case_decide as E.
  - subst. apply lookup_insert_eq.
  - by apply lookup_insert_ne.
Qed.

Lemma Header_Get_Del_ne (h : http_Header) (key key' : string) :
  CanonicalMIMEHeaderKey key <> CanonicalMIMEHeaderKey key' ->
  Header_Get (Header_Del h key') key = Header_Get h key.
Proof.
  intros Hne. unfold Header_Get. rewrite Header_Del_lookup.
  rewrite decide_False by done. done.
Qed.

End HeaderProperties.

(** ** The proxy transport *)

Section TransportProperties.
Import Go Transport.

(** The language of [layerReg], spelled out: a non-empty prefix, the text
    [/blobs/sha256], any suffix, and no newline anywhere around it. *)
Lemma layerReg_language (text : list ascii) :
  MatchesIn layerReg text <->
  exists p q, text = p ++ list_ascii_of_string "/blobs/sha256" ++ q /\
              p <> [] /\ (newline ∉ p) /\ (newline ∉ q).
Proof.
  unfold MatchesIn, layerReg. cbn [beginText endText expr].
  split.
  - intros (pre & m & post & -> & Hb & He & H).
    rewrite (Hb eq_refl), (He eq_refl), app_nil_r. simpl app at 1.
    apply Matches_Cat_inv in H as (p & m2 & -> & Hp & H).
    apply Matches_Cat_inv in H as (l & q & -> & Hl & Hq).
    apply Matches_Lits in Hl as ->.
    apply Matches_Plus_AnyNotNL in Hp as [Hp1 Hp2].
    apply Matches_Star_AnyNotNL in Hq.
    exists p, q. done.
  - intros (p & q & -> & Hp1 & Hp2 & Hq).
    exists [], (p ++ list_ascii_of_string "/blobs/sha256" ++ q), [].
    rewrite app_nil_r. repeat split; try done.
    apply MCat; [by apply Matches_Plus_AnyNotNL|].
    apply MCat; [by apply Matches_Lits | by apply Matches_Star_AnyNotNL].
Qed.

(** C6: the default routing predicate [NeedUseDragonfly] is true exactly
    when the request method is [GET] and the URL path matches the regular
    expression [^.+/blobs/sha256.*$]: anchored at both ends, one byte or
    more that are no newline, the text [/blobs/sha256], then any number of
    bytes that are no newline.  The second part spells the language of the
    expression out. *)
Theorem NeedUseDragonfly_iff_GET_and_layer_path (req : Request.t) :
  let pattern :=
    mkRegexp true
      (Cat (Cat AnyNotNL (Star AnyNotNL))
           (Cat (Lits (list_ascii_of_string "/blobs/sha256")) (Star AnyNotNL)))
      true in
  let path := list_ascii_of_string (URL.Path (Request.URL req)) in
  (NeedUseDragonfly req = true <->
   Request.Method req = "GET"%string /\ MatchesIn pattern path) /\
  (MatchesIn pattern path <->
   exists p q, path = p ++ list_ascii_of_string "/blobs/sha256" ++ q /\
               p <> [] /\ (newline ∉ p) /\ (newline ∉ q)).
Proof.
  intros pattern path. change pattern with layerReg. split.
  - unfold NeedUseDragonfly, MethodGet.
    rewrite andb_true_iff, String.eqb_eq, MatchString_MatchesIn. done.
  - apply layerReg_language.
Qed.

Context {Body Err : Type}.
Variable URL_String : URL.t -> string.
Variable idgen_PeerID : string -> string.
Variable HeaderToMap : http_Header -> gmap string string.
Variable MapToHeader : option (gmap string string) -> http_Header.
Variables HeaderDragonflyTask HeaderDragonflyPeer : string.

Local Abbreviation RoundTrip' :=
  (RoundTrip URL_String idgen_PeerID HeaderToMap MapToHeader
     HeaderDragonflyTask HeaderDragonflyPeer (Body := Body) (Err := Err)).

Implicit Types (rt : @transport Body Err) (req : Request.t).

Lemma PickHeader_value (h : http_Header) (key d : string) :
  fst (PickHeader h key d) =
  if decide (Header_Get h key = EmptyString) then d else Header_Get h key.
Proof.
  unfold PickHeader. destruct (Header_Get h key) eqn:E; cbn [fst].
  - by rewrite decide_True.
  - by rewrite decide_False.
Qed.

Lemma PickHeader_lookup (h : http_Header) (key d k : string) :
  k <> CanonicalMIMEHeaderKey key ->
  snd (PickHeader h key d) !! k = h !! k.
Proof.
  intros Hk. unfold PickHeader. destruct (Header_Get h key); simpl; [done|].
  rewrite Header_Del_lookup. by rewrite decide_False.
Qed.

Lemma PickHeader_Get (h : http_Header) (key d key' : string) :
  CanonicalMIMEHeaderKey key' <> CanonicalMIMEHeaderKey key ->
  Header_Get (snd (PickHeader h key d)) key' = Header_Get h key'.
Proof.
  intros Hk. unfold Header_Get. by rewrite PickHeader_lookup.
Qed.

Lemma delHopHeaders_lookup (h : http_Header) (k : string) :
  delHopHeaders h !! k =
  if decide (k ∈ map CanonicalMIMEHeaderKey (hopHeaders ++ traceContext_Fields))
  then None else h !! k.
Proof.
  unfold delHopHeaders. rewrite !fold_Header_Del_lookup, map_app.
  destruct (decide (k ∈ map CanonicalMIMEHeaderKey traceContext_Fields)) as [H1|H1];
    destruct (decide (k ∈ map CanonicalMIMEHeaderKey hopHeaders)) as [H2|H2];
    destruct (decide (k ∈ map CanonicalMIMEHeaderKey hopHeaders
                        ++ map CanonicalMIMEHeaderKey traceContext_Fields)) as [H3|H3];
    try done; exfalso.
  - apply H3, elem_of_app; auto.
  - apply H3, elem_of_app; auto.
  - apply H3, elem_of_app; auto.
  - apply elem_of_app in H3 as [?|?]; done.
Qed.

Lemma length_zero_empty (s : string) : (0 <? String.length s)%nat = false -> s = EmptyString.
Proof. by destruct s. Qed.

(** C8 (as amended): a request the routing predicate rejects is forwarded
    to the base round tripper, once, with [Host] set to the host of its URL
    and with the [Host] header set to that single value; every other header
    is the one of the incoming request, and the answer of the base round
    tripper is returned. *)
Theorem RoundTrip_direct_sets_only_Host rt req :
  shouldUseDragonfly rt req = false ->
  let host := URL.Host (Request.URL req) in
  let req' := Request.with_Header (<["Host"%string := [host]]> (Request.Header req))
                (Request.with_Host host req) in
  RoundTrip' rt req =
    ([CallBaseRoundTrip req'],
     (fst (baseRoundTripper rt req'), Upstream <$> snd (baseRoundTripper rt req'))) /\
  Request.Header req' !! "Host"%string = Some [host] /\
  (forall k, k <> "Host"%string -> Request.Header req' !! k = Request.Header req !! k).
Proof.
  intros Hno host req'. split; [|split].
  - unfold RoundTrip. rewrite Hno. cbn [Request.Host Request.with_Host Request.Header].
    fold host. change (Header_Set (Request.Header req) "Host" host)
      with (<["Host"%string := [host]]> (Request.Header req)).
    fold req'. by destruct (baseRoundTripper rt req').
  - apply lookup_insert_eq.
  - intros k Hk. simpl. by rewrite lookup_insert_ne.
Qed.

(** C7: when a request is routed via dragonfly and [StartStreamTask]
    succeeds, the response has status 200, its body is the stream
    [StartStreamTask] returned, and its [ContentLength] is the integer
    parsed from the [Content-Length] entry of the attribute map when there
    is one and it parses, and -1 otherwise. *)
Theorem RoundTrip_dragonfly_response rt req sreq :
  shouldUseDragonfly rt req = true ->
  fst (RoundTrip' rt req) = [CallStartStreamTask sreq] ->
  st_err (StartStreamTask rt sreq) = None ->
  exists resp,
    snd (RoundTrip' rt req) = (Some resp, None) /\
    Response.StatusCode resp = 200 /\
    Response.Body resp = st_body (StartStreamTask rt sreq) /\
    Response.ContentLength resp =
      match attr_get (st_attr (StartStreamTask rt sreq)) "Content-Length" with
      | Some l => default (-1) (ParseInt10_64 l)
      | None => -1
      end.
Proof.
  intros Hyes. unfold RoundTrip. rewrite Hyes. unfold download.
  cbn [fst snd]. intros [= <-] Herr. rewrite Herr.
  eexists. split; [reflexivity|]. cbn [Response.StatusCode Response.Body Response.ContentLength].
  split; [reflexivity|]. split; [reflexivity|].
  unfold headers_ContentLength.
  destruct (attr_get _ _) as [l|]; [|done]. by destruct (ParseInt10_64 l).
Qed.

(** C9: for a request routed via dragonfly, [StartStreamTask] is called
    once; the header map its [UrlMeta] is built from has lost
    [Accept-Encoding], the twelve hop-by-hop headers and the two
    trace-context headers, each named below; the filter and the tag are the
    values of [X-Dragonfly-Filter] and [X-Dragonfly-Biz], or the configured
    defaults when the request has none; the range is the value of [Range];
    and every header whose canonical name is none of those removed or
    harvested is as it came in. *)
Theorem RoundTrip_dragonfly_headers rt req :
  shouldUseDragonfly rt req = true ->
  exists sreq h',
    fst (RoundTrip' rt req) = [CallStartStreamTask sreq] /\
    let meta := StreamTaskRequest.URLMeta sreq in
    let h := Request.Header req in
    UrlMeta.Header meta = HeaderToMap h' /\
    (forall name,
       name ∈ [ "Accept-Encoding"; "Connection"; "Proxy-Connection"; "Keep-Alive";
                "Proxy-Authenticate"; "Proxy-Authorization"; "Te"; "Trailer";
                "Transfer-Encoding"; "Upgrade"; "Accept"; "User-Agent";
                "X-Forwarded-For"; "traceparent"; "tracestate" ]%string ->
       h' !! CanonicalMIMEHeaderKey name = None) /\
    UrlMeta.Filter meta =
      (if decide (Header_Get h "X-Dragonfly-Filter" = EmptyString)
       then defaultFilter rt else Header_Get h "X-Dragonfly-Filter") /\
    UrlMeta.Tag meta =
      (if decide (Header_Get h "X-Dragonfly-Biz" = EmptyString)
       then defaultBiz rt else Header_Get h "X-Dragonfly-Biz") /\
    UrlMeta.Range meta = Header_Get h "Range" /\
    (forall k,
       k ∉ [ "Accept-Encoding"; "X-Dragonfly-Filter"; "X-Dragonfly-Biz";
             "Connection"; "Proxy-Connection"; "Keep-Alive"; "Proxy-Authenticate";
             "Proxy-Authorization"; "Te"; "Trailer"; "Transfer-Encoding"; "Upgrade";
             "Accept"; "User-Agent"; "X-Forwarded-For";
             "Traceparent"; "Tracestate" ]%string ->
       h' !! k = h !! k).
Proof.
  change [ "Accept-Encoding"; "Connection"; "Proxy-Connection"; "Keep-Alive";
           "Proxy-Authenticate"; "Proxy-Authorization"; "Te"; "Trailer";
           "Transfer-Encoding"; "Upgrade"; "Accept"; "User-Agent";
           "X-Forwarded-For"; "traceparent"; "tracestate" ]%string
    with ("Accept-Encoding"%string :: hopHeaders ++ traceContext_Fields).
  change [ "Accept-Encoding"; "X-Dragonfly-Filter"; "X-Dragonfly-Biz";
           "Connection"; "Proxy-Connection"; "Keep-Alive"; "Proxy-Authenticate";
           "Proxy-Authorization"; "Te"; "Trailer"; "Transfer-Encoding"; "Upgrade";
           "Accept"; "User-Agent"; "X-Forwarded-For";
           "Traceparent"; "Tracestate" ]%string
    with (map CanonicalMIMEHeaderKey
            ("Accept-Encoding"%string :: "X-Dragonfly-Filter"%string
               :: "X-Dragonfly-Biz"%string :: hopHeaders ++ traceContext_Fields)).
  intros Hyes. unfold RoundTrip. rewrite Hyes. unfold download, download_request.
  cbn [fst Request.Header Request.with_Header Request.URL].
  set (h := Request.Header req).
  set (h0 := Header_Del h "Accept-Encoding").
  pose proof (PickHeader_value h0 HeaderDragonflyFilter (defaultFilter rt)) as Hf.
  pose proof (PickHeader_lookup h0 HeaderDragonflyFilter (defaultFilter rt)) as Hl1.
  pose proof (PickHeader_Get h0 HeaderDragonflyFilter (defaultFilter rt)) as Hg1.
  destruct (PickHeader h0 HeaderDragonflyFilter (defaultFilter rt)) as [filter h1].
  pose proof (PickHeader_value h1 HeaderDragonflyBiz (defaultBiz rt)) as Ht.
  pose proof (PickHeader_lookup h1 HeaderDragonflyBiz (defaultBiz rt)) as Hl2.
  destruct (PickHeader h1 HeaderDragonflyBiz (defaultBiz rt)) as [tag h2].
  cbn [fst snd] in *.
  assert (Hrange : forall rg,
    (let '(digest, range) :=
       if (0 <? String.length rg)%nat then (EmptyString, rg) else (EmptyString, EmptyString) in
     StreamTaskRequest.mk (URL_String (Request.URL req))
       (UrlMeta.mk digest tag range filter (HeaderToMap (delHopHeaders h2)))
       (idgen_PeerID (peerHost_Ip rt))) =
    StreamTaskRequest.mk (URL_String (Request.URL req))
       (UrlMeta.mk EmptyString tag rg filter (HeaderToMap (delHopHeaders h2)))
       (idgen_PeerID (peerHost_Ip rt))).
  { intros rg. destruct (0 <? String.length rg)%nat eqn:E; [done|].
    by rewrite (length_zero_empty rg E). }
  rewrite Hrange. clear Hrange.
  eexists _, (delHopHeaders h2). split; [reflexivity|].
  cbn [StreamTaskRequest.URLMeta UrlMeta.Header UrlMeta.Filter UrlMeta.Tag UrlMeta.Range].
  split; [reflexivity|].
  pose proof (delHopHeaders_lookup h2) as Hdel.
  split; [|split; [|split; [|split]]].
  - intros name Hin. rewrite Hdel.
    apply elem_of_cons in Hin as [->|Hin].
    + rewrite decide_False by (apply (bool_decide_unpack _); vm_compute; exact I).
      rewrite Hl2 by (vm_compute; discriminate).
      rewrite Hl1 by (vm_compute; discriminate).
      subst h0. rewrite Header_Del_lookup. by rewrite decide_True.
    + rewrite decide_True; [done|]. by apply list_elem_of_In, in_map, list_elem_of_In.
  - rewrite Hf. subst h0.
    rewrite (Header_Get_Del_ne h HeaderDragonflyFilter "Accept-Encoding")
      by (vm_compute; discriminate). done.
  - rewrite Ht, Hg1 by (vm_compute; discriminate). subst h0.
    rewrite (Header_Get_Del_ne h HeaderDragonflyBiz "Accept-Encoding")
      by (vm_compute; discriminate). done.
  - subst h0. apply Header_Get_Del_ne. vm_compute; discriminate.
  - intros k Hk. rewrite Hdel.
    cbn [map] in Hk. apply not_elem_of_cons in Hk as [Hk0 Hk].
    apply not_elem_of_cons in Hk as [Hk1 Hk]. apply not_elem_of_cons in Hk as [Hk2 Hk].
    rewrite decide_False by done.
    rewrite Hl2 by done. rewrite Hl1 by done.
    subst h0. rewrite Header_Del_lookup. by rewrite decide_False.
Qed.

End TransportProperties.

Section TransportExamples.
Import Go Transport Examples.

Example NeedUseDragonfly_layer :
  NeedUseDragonfly (request "GET" "/v2/library/nginx/blobs/sha256:0a1b") = true.
Proof. vm_compute. reflexivity. Qed.

Example NeedUseDragonfly_manifest :
  NeedUseDragonfly (request "GET" "/v2/library/nginx/manifests/latest") = false.
Proof. vm_compute. reflexivity. Qed.

Example NeedUseDragonfly_no_prefix :
  NeedUseDragonfly (request "GET" "/blobs/sha256:0a1b") = false.
Proof. vm_compute. reflexivity. Qed.

Example NeedUseDragonfly_head :
  NeedUseDragonfly (request "HEAD" "/v2/library/nginx/blobs/sha256:0a1b") = false.
Proof. vm_compute. reflexivity. Qed.

(** C8, as the design document states it, fails: the forwarded request
    carries a [Host] header the incoming request did not have. *)
Lemma RoundTrip_direct_headers_differ :
  shouldUseDragonfly proxy manifestRequest = false /\
  exists req',
    fst (roundTrip proxy manifestRequest) = [CallBaseRoundTrip req'] /\
    Request.Header manifestRequest !! "Host"%string = None /\
    Request.Header req' !! "Host"%string = Some ["registry.example"%string] /\
    Request.Header req' <> Request.Header manifestRequest.
Proof.
  split; [vm_compute; reflexivity|].
  eexists. split; [reflexivity|].
  split; [vm_compute; reflexivity|].
  split; [vm_compute; reflexivity|].
  intros E. apply (f_equal (fun h => h !! "Host"%string)) in E.
  vm_compute in E. discriminate.
Qed.

Lemma RoundTrip_direct_witness :
  shouldUseDragonfly proxy manifestRequest = false /\
  fst (roundTrip proxy manifestRequest) =
    [CallBaseRoundTrip
       (Request.with_Header
          (<["Host"%string := ["registry.example"%string]]> (Request.Header manifestRequest))
          (Request.with_Host "registry.example" manifestRequest))].
Proof.
  assert (H : shouldUseDragonfly proxy manifestRequest = false) by (vm_compute; reflexivity).
  split; [exact H|].
  pose proof (RoundTrip_direct_sets_only_Host
                (fun u => (URL.Scheme u ++ "://" ++ URL.Host u ++ URL.Path u)%string)
                (fun ip => (ip ++ "-1-uuid")%string) firstValues singleValues
                "X-Dragonfly-Task" "X-Dragonfly-Peer" proxy manifestRequest H) as [E _].
  unfold roundTrip. rewrite E. reflexivity.
Defined.

Lemma RoundTrip_dragonfly_response_witness :
  shouldUseDragonfly proxy layerRequest = true /\
  exists resp,
    snd (roundTrip proxy layerRequest) = (Some resp, None) /\
    Response.StatusCode resp = 200 /\
    Response.ContentLength resp = 10.
Proof.
  assert (H : shouldUseDragonfly proxy layerRequest = true) by (vm_compute; reflexivity).
  split; [exact H|].
  destruct (RoundTrip_dragonfly_response
              (fun u => (URL.Scheme u ++ "://" ++ URL.Host u ++ URL.Path u)%string)
              (fun ip => (ip ++ "-1-uuid")%string) firstValues singleValues
              "X-Dragonfly-Task" "X-Dragonfly-Peer" proxy layerRequest _ H eq_refl eq_refl)
    as (resp & E & Hs & _ & Hl).
  exists resp. split; [exact E|]. split; [exact Hs|].
  rewrite Hl. vm_compute. reflexivity.
Defined.

Lemma RoundTrip_dragonfly_headers_witness :
  shouldUseDragonfly proxy layerRequest = true /\
  exists sreq,
    fst (roundTrip proxy layerRequest) = [CallStartStreamTask sreq] /\
    UrlMeta.Filter (StreamTaskRequest.URLMeta sreq) = "Expires&Signature"%string /\
    UrlMeta.Tag (StreamTaskRequest.URLMeta sreq) = "team-a"%string /\
    UrlMeta.Range (StreamTaskRequest.URLMeta sreq) = "bytes=0-9"%string /\
    UrlMeta.Header (StreamTaskRequest.URLMeta sreq) !! "User-Agent"%string = None /\
    UrlMeta.Header (StreamTaskRequest.URLMeta sreq) !! "Traceparent"%string = None /\
    UrlMeta.Header (StreamTaskRequest.URLMeta sreq) !! "Accept-Encoding"%string = None /\
    UrlMeta.Header (StreamTaskRequest.URLMeta sreq) !! "Authorization"%string
      = Some "Bearer t"%string.
Proof.
  assert (H : shouldUseDragonfly proxy layerRequest = true) by (vm_compute; reflexivity).
  split; [exact H|].
  destruct (RoundTrip_dragonfly_headers
              (fun u => (URL.Scheme u ++ "://" ++ URL.Host u ++ URL.Path u)%string)
              (fun ip => (ip ++ "-1-uuid")%string) firstValues singleValues
              "X-Dragonfly-Task" "X-Dragonfly-Peer" proxy layerRequest H)
    as (sreq & h' & E & Hh & Hgone & Hf & Ht & Hr & Hkept).
  exists sreq. split; [exact E|].
  rewrite Hf, Ht, Hr, Hh. unfold firstValues. rewrite !lookup_fmap.
  split; [vm_compute; reflexivity|]. split; [vm_compute; reflexivity|].
  split; [vm_compute; reflexivity|].
  assert (G1 : h' !! "User-Agent"%string = None)
    by exact (Hgone "User-Agent"%string
                ltac:(apply (bool_decide_unpack _); vm_compute; exact I)).
  assert (G2 : h' !! "Traceparent"%string = None)
    by exact (Hgone "traceparent"%string
                ltac:(apply (bool_decide_unpack _); vm_compute; exact I)).
  assert (G3 : h' !! "Accept-Encoding"%string = None)
    by exact (Hgone "Accept-Encoding"%string
                ltac:(apply (bool_decide_unpack _); vm_compute; exact I)).
  rewrite G1, G2, G3.
  rewrite (Hkept "Authorization"%string) by (apply (bool_decide_unpack _); vm_compute; exact I).
  split; [reflexivity|]. split; [reflexivity|]. split; [reflexivity|].
  vm_compute. reflexivity.
Defined.

Lemma NeedUseDragonfly_witness :
  NeedUseDragonfly layerRequest = true /\
  NeedUseDragonfly (request "HEAD" "/v2/nginx/blobs/sha256:0a1b") = false.
Proof.
  split.
  - apply (proj1 (NeedUseDragonfly_iff_GET_and_layer_path layerRequest)).
    split; [reflexivity|].
    apply (proj2 (NeedUseDragonfly_iff_GET_and_layer_path layerRequest)).
    exists (list_ascii_of_string "/v2/nginx"), (list_ascii_of_string ":0a1b").
    split; [reflexivity|]. split; [discriminate|].
    split; apply (bool_decide_unpack _); vm_compute; exact I.
  - destruct (NeedUseDragonfly (request "HEAD" "/v2/nginx/blobs/sha256:0a1b")) eqn:E; [|done].
    apply (proj1 (NeedUseDragonfly_iff_GET_and_layer_path _)) in E as [Hm _].
    discriminate.
Defined.

Example layerRequest_meta_header :
  exists sreq,
    fst (roundTrip proxy layerRequest) = [CallStartStreamTask sreq] /\
    UrlMeta.Header (StreamTaskRequest.URLMeta sreq) =
      list_to_map [ ("Authorization", "Bearer t"); ("Range", "bytes=0-9") ]%string.
Proof.
  eexists. split; [reflexivity|]. apply map_eq. intros k.
  vm_compute. reflexivity.
Qed.

End TransportExamples.

(** ** The piece downloader *)

Section PeerProperties.
Import Go Peer PeerExamples.

Lemma string_app_assoc (a b c : string) :
  ((a ++ b) ++ c)%string = (a ++ (b ++ c))%string.
Proof.
  induction a as [|x a IH]; [reflexivity|].
  change (String x ((a ++ b) ++ c) = String x (a ++ (b ++ c)))%string.
  by rewrite IH.
Qed.

Lemma slice_to_Some (s : string) (n : nat) :
  (n <= String.length s)%nat -> slice_to s n = Some (substring 0 n s).
Proof.
  intros H. unfold slice_to. by rewrite (proj2 (Nat.leb_le _ _) H).
Qed.

Lemma slice_to_None (s : string) (n : nat) :
  (String.length s < n)%nat -> slice_to s n = None.
Proof.
  intros H. unfold slice_to.
  destruct (Nat.leb_spec n (String.length s)); [lia | done].
Qed.

(** With a positive size and an end inside the [uint64] range, the
    wrap-around does not show. *)
Lemma wrap64_range_end (start size : Z) :
  0 <= start -> 0 < size -> start + size <= 2 ^ 64 ->
  wrap64 (start + size - 1) = start + size - 1.
Proof. intros. unfold wrap64. apply Z.mod_small. lia. Qed.

Context {U : Type}.
Variable url_Parse : string -> option U.
Variable removeEmptyPort : U -> U.

(** C4 (as amended): for a request whose task ID has at least three
    characters, the HTTP request built for the piece download is what
    [http.NewRequestWithContext] makes of the method [GET] and the text
    [http://<DstAddr>/download/<first three characters of TaskID>/<TaskID>?peerId=<DstPid>],
    with the single header [Range: bytes=<RangeStart>-<RangeStart+RangeSize-1>]
    added, the end of the range being computed in [uint64]: a [GET] of the
    parsed URL when [url.Parse] accepts the text, and no request at all
    when it does not. *)
Theorem buildDownloadPieceHTTPRequest_GET_url_range (d : DownloadPieceRequest.t) :
  (3 <= String.length (DownloadPieceRequest.TaskID d))%nat ->
  let taskID := DownloadPieceRequest.TaskID d in
  let start := PieceInfo.RangeStart (DownloadPieceRequest.piece d) in
  let size := PieceInfo.RangeSize (DownloadPieceRequest.piece d) in
  let text := ("http://" ++ DownloadPieceRequest.DstAddr d ++ "/download/"
                 ++ substring 0 3 taskID ++ "/" ++ taskID
                 ++ "?peerId=" ++ DownloadPieceRequest.DstPid d)%string in
  buildDownloadPieceHTTPRequest url_Parse removeEmptyPort d =
    match url_Parse text with
    | Some u =>
        Some (HTTPRequest.mk "GET" (removeEmptyPort u)
                {[ "Range"%string :=
                     [("bytes=" ++ FormatUint start ++ "-"
                         ++ FormatUint (wrap64 (start + size - 1)))%string] ]})
    | None => None
    end /\
  (0 <= start -> 0 < size -> start + size <= 2 ^ 64 ->
   wrap64 (start + size - 1) = start + size - 1).
Proof.
  intros Hlen taskID start size text. split; [|apply wrap64_range_end].
  unfold buildDownloadPieceHTTPRequest, NewRequestWithContext.
  rewrite slice_to_Some by done.
  unfold WriteString, PeerDownloadHTTPPathPrefix. fold taskID start size.
  rewrite !string_app_assoc. fold text.
  change (EmptyString ++ text)%string with text.
  destruct (url_Parse text) as [u|]; [|done].
  cbn [HTTPRequest.Method HTTPRequest.URL HTTPRequest.Header].
  unfold Header_Add. rewrite lookup_empty. cbn [default app].
  change (CanonicalMIMEHeaderKey "Range") with "Range"%string.
  rewrite insert_empty. reflexivity.
Qed.

(** The request is missing exactly when the task ID is shorter than three
    bytes or [url.Parse] refuses the URL text. *)
Lemma buildDownloadPieceHTTPRequest_None (d : DownloadPieceRequest.t) :
  let taskID := DownloadPieceRequest.TaskID d in
  buildDownloadPieceHTTPRequest url_Parse removeEmptyPort d = None <->
  (String.length taskID < 3)%nat \/
  url_Parse ("http://" ++ DownloadPieceRequest.DstAddr d ++ "/download/"
               ++ substring 0 3 taskID ++ "/" ++ taskID
               ++ "?peerId=" ++ DownloadPieceRequest.DstPid d)%string = None.
Proof.
  intros taskID.
  destruct (Nat.le_gt_cases 3 (String.length taskID)) as [Hlen|Hlen].
  - destruct (buildDownloadPieceHTTPRequest_GET_url_range d Hlen) as [E _].
    cbv zeta in E. fold taskID in E. rewrite E.
    destruct (url_Parse _) as [u|].
    + split; [discriminate | intros [?|?]; [lia | discriminate]].
    + split; auto.
  - unfold buildDownloadPieceHTTPRequest. fold taskID.
    rewrite slice_to_None by lia. split; auto.
Qed.

Context {Err : Type}.
Variable Md5 : list Byte.byte -> string.

Local Abbreviation Reader := (@Reader Err).
Local Abbreviation EOF := (@EOF Err).





(** C2 (as amended): [DownloadPiece] returns an error exactly when the
    round trip fails or the status code is at least 300.  The first error
    is a connection error, the second is not; a 404 is a piece-not-found.
    Below 300 no error is returned and the closer is the response body; the
    reader is the response body when [CalcDigest] is off, and the digest
    reader over the limited body when it is on. *)
Theorem DownloadPiece_outcome
    (Do : HTTPRequest.t -> @DoResult Err) (req : DownloadPieceRequest.t) :
  ((exists err, DownloadPiece url_Parse removeEmptyPort Do req = Fail err) <->
   (exists hreq, buildDownloadPieceHTTPRequest url_Parse removeEmptyPort req = Some hreq /\
      ((exists e, Do hreq = DoError e) \/
       (exists resp, Do hreq = DoResponse resp /\ 300 <= StatusCode resp)))) /\
  (forall hreq, buildDownloadPieceHTTPRequest url_Parse removeEmptyPort req = Some hreq ->
     (forall e, Do hreq = DoError e ->
        exists err, DownloadPiece url_Parse removeEmptyPort Do req = Fail err /\
                    isConnectionError err = true /\ isPieceNotFound err = false) /\
     (forall resp, Do hreq = DoResponse resp -> 300 <= StatusCode resp ->
        exists err, DownloadPiece url_Parse removeEmptyPort Do req = Fail err /\
                    isConnectionError err = false /\
                    isPieceNotFound err = (StatusCode resp =? 404)) /\
     (forall resp, Do hreq = DoResponse resp -> StatusCode resp < 300 ->
        let p := DownloadPieceRequest.piece req in
        DownloadPiece url_Parse removeEmptyPort Do req =
          Ok (if DownloadPieceRequest.CalcDigest req
              then NewDigestReader (LimitReader (Body resp) (PieceInfo.RangeSize p))
                     (PieceInfo.PieceMd5 p)
              else Body resp)
             (Body resp))).
Proof.
  unfold DownloadPiece. split.
  - destruct (buildDownloadPieceHTTPRequest url_Parse removeEmptyPort req) as [hreq|].
    + destruct (Do hreq) as [e|resp] eqn:EDo.
      * split; [|eauto]. intros _. exists hreq. split; [done|]. left. eauto.
      * destruct (Z.ltb_spec 299 (StatusCode resp)) as [Hs|Hs].
        -- split; [|eauto]. intros _. exists hreq. split; [done|]. right.
           exists resp. split; [done|lia].
        -- split; [by intros [? ?]|].
           intros (hreq' & [= <-] & [[e He]|(resp' & He & Hs')]).
           ++ congruence.
           ++ rewrite EDo in He. injection He as <-. lia.
    + split; [by intros [? ?]|]. by intros (? & ? & _).
  - intros hreq ->. split; [|split].
    + intros e ->. eexists. split; [reflexivity|]. done.
    + intros resp -> Hs. rewrite (proj2 (Z.ltb_lt 299 _)) by lia.
      eexists. split; [reflexivity|]. done.
    + intros resp -> Hs. cbv zeta.
      destruct (Z.ltb_spec 299 (StatusCode resp)); [lia|]. done.
Qed.

End PeerProperties.

Section PeerCases.
Import Go Peer PeerExamples.

(** C2, as the design document states it, fails: with [CalcDigest] set the
    reader returned on a 200 is not the response body.  The body holds
    three bytes; the reader hands out one. *)
Lemma DownloadPiece_reader_is_not_the_body :
  exists reader closer,
    DownloadPiece parseURL keepHost peerOK (firstByteRequest true) = Ok reader closer /\
    closer = BodyReader abc EOF /\
    reader <> closer /\
    ReadAll byteSum 512 closer = Some (abc, None) /\
    ReadAll byteSum 512 reader = Some ([Byte.x61], None).
Proof.
  eexists _, _. split; [reflexivity|]. split; [reflexivity|].
  split; [discriminate|]. split; vm_compute; reflexivity.
Qed.

Lemma DownloadPiece_outcome_witness :
  (exists err, DownloadPiece parseURL keepHost peerGone (firstByteRequest false) = Fail err /\
               isConnectionError err = false /\ isPieceNotFound err = true) /\
  (exists err, DownloadPiece parseURL keepHost peerDown (firstByteRequest false) = Fail err /\
               isConnectionError err = true) /\
  DownloadPiece parseURL keepHost peerOK (firstByteRequest false) = Ok (BodyReader abc EOF) (BodyReader abc EOF).
Proof.
  pose proof (fun Do => proj2 (DownloadPiece_outcome (Err := string) parseURL keepHost Do
                                 (firstByteRequest false))
                          _ eq_refl) as H.
  split; [|split].
  - destruct (H peerGone) as (_ & H2 & _).
    destruct (H2 _ eq_refl) as (err & E & Hc & Hn); [vm_compute; discriminate|].
    exists err. split; [exact E|]. split; [exact Hc|]. rewrite Hn. reflexivity.
  - destruct (H peerDown) as (H1 & _ & _).
    destruct (H1 _ eq_refl) as (err & E & Hc & _).
    exists err. split; [exact E|exact Hc].
  - destruct (H peerOK) as (_ & _ & H3).
    rewrite (H3 _ eq_refl) by (vm_compute; reflexivity). reflexivity.
Defined.


(** C4, as the design document states it, fails: a task ID of four bytes
    that ends in a line feed makes a URL text that [url.Parse] refuses; the
    error is dropped, no request is built, and the call panics. *)
Lemma buildDownloadPieceHTTPRequest_unparsable_url :
  (3 <= String.length (DownloadPieceRequest.TaskID lineFeedRequest))%nat /\
  buildDownloadPieceHTTPRequest parseURL keepHost lineFeedRequest = None /\
  DownloadPiece parseURL keepHost peerOK lineFeedRequest = Panics.
Proof. split; [vm_compute; lia|]. split; vm_compute; reflexivity. Qed.

Lemma buildDownloadPieceHTTPRequest_witness :
  buildDownloadPieceHTTPRequest parseURL keepHost sampleRequest =
  Some (HTTPRequest.mk "GET" "http://10.0.0.7:65002/download/0a1/0a1b2c3d4e?peerId=peer-x"%string
          {[ "Range"%string := ["bytes=1024-2047"%string] ]}).
Proof.
  assert (H : (3 <= String.length (DownloadPieceRequest.TaskID sampleRequest))%nat)
    by (vm_compute; lia).
  destruct (buildDownloadPieceHTTPRequest_GET_url_range parseURL keepHost sampleRequest H)
    as [E _].
  rewrite E. vm_compute. reflexivity.
Defined.

(** A task ID shorter than three bytes makes the slice expression panic. *)
Example buildDownloadPieceHTTPRequest_short_task :
  buildDownloadPieceHTTPRequest parseURL keepHost
    (DownloadPieceRequest.mk samplePiece "0a" "peer-a" "peer-x" "10.0.0.7:65002" true) = None.
Proof. reflexivity. Qed.

(** An address that holds a control character is refused as well. *)
Example buildDownloadPieceHTTPRequest_bad_address :
  buildDownloadPieceHTTPRequest parseURL keepHost
    (DownloadPieceRequest.mk samplePiece "0a1b2c3d4e" "peer-a" "peer-x"
       ("10.0.0.7" ++ String (ascii_of_nat 9) "65002") true) = None.
Proof. vm_compute. reflexivity. Qed.

(** An empty piece at offset 0: the end of the range wraps around. *)
Example buildDownloadPieceHTTPRequest_empty_piece :
  HTTPRequest.Header <$>
    buildDownloadPieceHTTPRequest parseURL keepHost
      (DownloadPieceRequest.mk (PieceInfo.mk 0 0 0 "" 0 0) "0a1b2c3d4e" "peer-a" "peer-x"
         "10.0.0.7:65002" false) =
  Some {[ "Range"%string := ["bytes=0-18446744073709551615"%string] ]}.
Proof. vm_compute. reflexivity. Qed.

End PeerCases.

(** ** The stream task under back-source *)

Section StreamTaskProperties.
Import StreamTask.
Local Open Scope nat_scope.

Variable Md5 : bytes -> string.
Variable Sha256 : list string -> string.
Variable origin : bytes.
Variable pieceSize : nat.
Hypothesis pieceSize_pos : 0 < pieceSize.

Local Abbreviation slice := (slice origin pieceSize).
Local Abbreviation sizeOf := (sizeOf origin pieceSize).
Local Abbreviation totalPieces := (totalPieces origin pieceSize).
Local Abbreviation backSource_loop := (backSource_loop Md5 origin pieceSize).
Local Abbreviation complete := (complete Sha256 origin pieceSize).
Local Abbreviation originSign := (originSign Md5 Sha256 origin pieceSize).
Local Abbreviation run := (run Md5 Sha256 origin pieceSize).
Local Abbreviation backSource := (backSource Md5 Sha256 origin pieceSize).
Local Abbreviation readAll := (readAll origin pieceSize).
Local Abbreviation wellFormed := (wellFormed Md5 origin pieceSize).
Local Abbreviation ValidateDigest := (ValidateDigest Sha256 origin pieceSize).

(** The pieces cover the content. *)
Lemma totalPieces_cover : length origin <= totalPieces * pieceSize.
Proof.
  unfold StreamTask.totalPieces, contentLength.
  pose proof (Nat.div_mod (length origin + pieceSize - 1) pieceSize ltac:(lia)) as Hd.
  pose proof (Nat.mod_upper_bound (length origin + pieceSize - 1) pieceSize ltac:(lia)).
  nia.
Qed.

Lemma totalPieces_pos : origin <> [] -> 0 < totalPieces.
Proof.
  intros Hne. unfold StreamTask.totalPieces, contentLength.
  destruct origin as [|b l]; [done|]. cbn [length].
  apply Nat.div_str_pos. lia.
Qed.

(** The next [sizeOf i] bytes of the stream at piece [i] are the piece. *)
Lemma take_sizeOf (i : nat) :
  take (sizeOf i) (drop (i * pieceSize) origin) = slice i.
Proof.
  unfold StreamTask.sizeOf, StreamTask.slice, contentLength.
  destruct (Nat.le_gt_cases pieceSize (length origin - i * pieceSize)).
  - by rewrite Nat.min_l.
  - rewrite Nat.min_r by lia.
    rewrite !take_ge; [done | rewrite length_drop; lia | rewrite length_drop; lia].
Qed.

Lemma drop_sizeOf (i : nat) :
  drop (sizeOf i) (drop (i * pieceSize) origin) = drop (S i * pieceSize) origin.
Proof.
  unfold StreamTask.sizeOf, contentLength. rewrite drop_drop.
  destruct (Nat.le_gt_cases pieceSize (length origin - i * pieceSize)).
  - rewrite Nat.min_l by done. f_equal. lia.
  - rewrite Nat.min_r by lia. rewrite !drop_ge; [done | lia | lia].
Qed.

(** What [Store] leaves in the partition. *)
Lemma Store_pieces (s : PieceStore) (p : PieceInfo) (data : bytes) (j : nat) :
  pieces (snd (Store s p data)) !! j =
  if decide (j = PieceNum p)
  then Some (default (PieceMd5 p, data) (pieces s !! PieceNum p))
  else pieces s !! j.
Proof.
  unfold Store. destruct (pieces s !! PieceNum p) as [[m old]|] eqn:E;
    destruct (decide (j = PieceNum p)) as [->|Hj]; cbn [snd pieces default].
  - done.
  - done.
  - apply lookup_insert_eq.
  - by apply lookup_insert_ne.
Qed.

Lemma Store_dom (s : PieceStore) (p : PieceInfo) (data : bytes) :
  dom (pieces (snd (Store s p data))) = {[PieceNum p]} ∪ dom (pieces s).
Proof.
  unfold Store. destruct (pieces s !! PieceNum p) as [[m old]|] eqn:E; cbn [snd pieces].
  - assert (Hn : PieceNum p ∈ dom (pieces s)) by (apply elem_of_dom; eauto).
    apply set_eq. intros x. rewrite elem_of_union, elem_of_singleton.
    split; [auto | intros [->|]; done].
  - apply dom_insert_L.
Qed.

Lemma Store_meta (s : PieceStore) (p : PieceInfo) (data : bytes) :
  pieceMd5Sign (snd (Store s p data)) = pieceMd5Sign s /\
  invalid (snd (Store s p data)) = invalid s /\
  storeCalls (snd (Store s p data)) = storeCalls s ++ [PieceNum p].
Proof. unfold Store. by destruct (pieces s !! PieceNum p) as [[m old]|]. Qed.

Lemma UpdateTask_meta (s : PieceStore) (sign : option string) :
  pieces (UpdateTask s sign) = pieces s /\
  invalid (UpdateTask s sign) = invalid s /\
  storeCalls (UpdateTask s sign) = storeCalls s /\
  pieceMd5Sign (UpdateTask s sign) =
    match pieceMd5Sign s with Some first => Some first | None => sign end.
Proof.
  unfold UpdateTask. destruct (pieceMd5Sign s) as [first|] eqn:E; cbn; rewrite ?E; auto.
Qed.

(** Storing the bytes of the origin for a piece, under their MD5, keeps the
    conductor well formed. *)
Lemma pieceSucceeded_wellFormed (c : Conductor) (p : PieceInfo) :
  wellFormed c -> PieceMd5 p = Md5 (slice (PieceNum p)) ->
  wellFormed (pieceSucceeded c p (slice (PieceNum p))).
Proof.
  intros [Hdom Hcons] Hmd5. split; cbn [store bitmap pieceSucceeded].
  - rewrite Store_dom. by rewrite Hdom.
  - intros j m d. rewrite Store_pieces. destruct (decide (j = PieceNum p)) as [->|Hj]; [|apply Hcons].
    destruct (pieces (store c) !! PieceNum p) as [[m0 d0]|] eqn:E; cbn [default].
    + intros [= <- <-]. by apply Hcons.
    + intros [= <- <-]. done.
Qed.

Lemma outstanding_above (done : gset nat) (k i n : nat) :
  k < i -> outstanding ({[k]} ∪ done) i n = outstanding done i n.
Proof.
  intros Hk. unfold outstanding. revert i Hk.
  induction n as [|n IH]; intros i Hk; cbn [seq]; [done|].
  destruct (decide (i ∈ done)) as [Hin|Hin].
  - rewrite !filter_cons_False by (intros H; apply H; set_solver). apply IH. lia.
  - rewrite !filter_cons_True; [|done|]. 
    + f_equal. apply IH. lia.
    + rewrite elem_of_union, elem_of_singleton. intros [->|?]; [lia|done].
Qed.

Lemma outstanding_bounds (done : gset nat) (i n j : nat) :
  j ∈ outstanding done i n -> i <= j < i + n /\ j ∉ done.
Proof.
  unfold outstanding. rewrite list_elem_of_filter, list_elem_of_In, in_seq. tauto.
Qed.

(** The back-source loop from piece [i] on: the stream is consumed piece by
    piece; over a piece already done it is only moved forward, and the
    piece is neither stored again nor reported again; any other piece is
    read, stored with the bytes of the origin under their MD5, and
    reported. *)
Lemma backSource_loop_spec (n : nat) :
  forall (i : nat) (stream : OriginStream) (c : Conductor),
  wellFormed c ->
  unread stream = drop (i * pieceSize) origin ->
  let r := backSource_loop n i stream c in
  (unread (fst r) = drop ((i + n) * pieceSize) origin /\
   streamOps (fst r) =
     streamOps stream ++
     map (fun j => if decide (j ∈ bitmap c) then Discarded (sizeOf j)
                   else ReadChunk (sizeOf j)) (seq i n)) /\
  wellFormed (snd r) /\
  bitmap (snd r) = bitmap c ∪ set_seq i n /\
  (state (snd r) = state c /\
   pieceMd5Sign (store (snd r)) = pieceMd5Sign (store c) /\
   invalid (store (snd r)) = invalid (store c)) /\
  (forall j, j ∈ bitmap c -> pieces (store (snd r)) !! j = pieces (store c) !! j) /\
  storeCalls (store (snd r)) = storeCalls (store c) ++ outstanding (bitmap c) i n /\
  reports (snd r) =
    reports c ++ map (sourceReport (bitmap c) i) (outstanding (bitmap c) i n).
Proof.
  induction n as [|n IH]; intros i stream c Hwf Hs; cbn [StreamTask.backSource_loop].
  - cbn [fst snd seq map set_seq outstanding]. unfold outstanding. cbn [seq].
    rewrite Nat.add_0_r, !app_nil_r.
    split; [done|]. split; [done|].
    split; [by rewrite (right_id_L ∅ (∪))|]. done.
  - destruct (decide (i ∈ bitmap c)) as [Hin|Hin].
    + assert (Hs1 : unread (discard (sizeOf i) stream) = drop (S i * pieceSize) origin).
      { cbn [discard unread]. rewrite Hs. apply drop_sizeOf. }
      destruct (IH (S i) (discard (sizeOf i) stream) c Hwf Hs1)
        as ((H1 & H1') & H2 & H3 & H4 & H5 & H6 & H7).
      cbv zeta. split; [split|split; [|split; [|split; [|split; [|split]]]]].
      * rewrite H1. f_equal. lia.
      * rewrite H1'. cbn [discard streamOps seq map].
        rewrite decide_True by done. by rewrite <- (assoc_L app).
      * exact H2.
      * rewrite H3. cbn [set_seq].
        apply set_eq. intros x. rewrite !elem_of_union, elem_of_singleton.
        split; [tauto | intros [?|[->|?]]; tauto].
      * exact H4.
      * exact H5.
      * rewrite H6. f_equal. unfold outstanding. cbn [seq].
        by rewrite filter_cons_False by auto.
      * rewrite H7. f_equal. unfold outstanding at 2. cbn [seq].
        rewrite filter_cons_False by auto. fold (outstanding (bitmap c) (S i) n).
        apply map_ext_in. intros j Hj%list_elem_of_In%outstanding_bounds.
        unfold sourceReport. do 2 f_equal.
        apply set_eq. intros x. rewrite !elem_of_union, !elem_of_set_seq.
        split; [intros [?|?]; [tauto|right; lia] | intros [?|?]; [tauto|]].
        destruct (decide (x = i)) as [->|]; [tauto | right; lia].
    + cbn [readChunk]. rewrite Hs, take_sizeOf.
      set (p := mkPieceInfo i (i * pieceSize) (sizeOf i) (Md5 (slice i))).
      set (stream' := mkOriginStream _ _).
      set (c1 := pieceSucceeded c p (slice i)).
      assert (Hwf1 : wellFormed c1) by (by apply (pieceSucceeded_wellFormed c p)).
      assert (Hs1 : unread stream' = drop (S i * pieceSize) origin).
      { cbn [stream' unread]. apply drop_sizeOf. }
      destruct (IH (S i) stream' c1 Hwf1 Hs1)
        as ((H1 & H1') & H2 & H3 & H4 & H5 & H6 & H7).
      assert (Hb1 : bitmap c1 = {[i]} ∪ bitmap c) by reflexivity.
      destruct (Store_meta (store c) p (slice i)) as (Hm1 & Hm2 & Hm3).
      cbv zeta. split; [split|split; [|split; [|split; [|split; [|split]]]]].
      * rewrite H1. f_equal. lia.
      * rewrite H1'. cbn [stream' streamOps seq map].
        rewrite decide_False by done. rewrite <- (assoc_L app). cbn [app].
        do 2 f_equal. apply map_ext_in. intros j Hj%in_seq. rewrite Hb1.
        destruct (decide (j ∈ bitmap c)) as [Hb|Hb].
        -- rewrite decide_True by (apply elem_of_union; by right). done.
        -- rewrite decide_False; [done|].
           rewrite elem_of_union, elem_of_singleton. intros [->|?]; [lia|done].
      * exact H2.
      * rewrite H3, Hb1. cbn [set_seq].
        apply set_eq. intros x. rewrite !elem_of_union. tauto.
      * destruct H4 as (H41 & H42 & H43). rewrite H41, H42, H43.
        cbn [c1 pieceSucceeded state store]. by rewrite Hm1, Hm2.
      * intros j Hj.
        rewrite H5 by (rewrite Hb1; apply elem_of_union; by right).
        cbn [store c1 pieceSucceeded]. rewrite Store_pieces.
        rewrite decide_False; [done|]. cbn [PieceNum p]. intros ->. done.
      * rewrite H6. cbn [store c1 pieceSucceeded]. rewrite Hm3, Hb1.
        rewrite outstanding_above by lia. rewrite <- (assoc_L app). f_equal.
        unfold outstanding. cbn [seq]. by rewrite filter_cons_True by done.
      * rewrite H7, Hb1. rewrite outstanding_above by lia.
        cbn [reports c1 pieceSucceeded]. rewrite <- (assoc_L app). f_equal.
        unfold outstanding at 2. cbn [seq]. rewrite filter_cons_True by done.
        fold (outstanding (bitmap c) (S i) n). cbn [map app PieceNum p]. f_equal.
        -- unfold sourceReport. do 2 f_equal. rewrite Nat.sub_diag. cbn [set_seq].
           apply set_eq. intros x. rewrite !elem_of_union, elem_of_singleton.
           rewrite elem_of_empty. tauto.
        -- apply map_ext_in. intros j Hj%list_elem_of_In%outstanding_bounds.
           unfold sourceReport. do 2 f_equal.
           apply set_eq. intros x. rewrite !elem_of_union, elem_of_singleton, !elem_of_set_seq.
           split; [intros [[->|?]|?]; [right; lia | tauto | right; lia]|].
           intros [?|?]; [tauto|].
           destruct (decide (x = i)) as [->|]; [tauto | right; lia].
Qed.

(** Reading pieces [i .. i+n) that hold the bytes of the origin gives the
    origin from byte [i * pieceSize] on. *)
Lemma readPieces_slices (s : gmap nat (string * bytes)) (n : nat) :
  forall i,
  (forall j, i <= j < i + n -> s !! j = Some (Md5 (slice j), slice j)) ->
  readPieces s i n = Some (take (n * pieceSize) (drop (i * pieceSize) origin)).
Proof.
  induction n as [|n IH]; intros i Hs; cbn [readPieces].
  - by rewrite take_0.
  - rewrite (Hs i) by lia. rewrite (IH (S i)) by (intros; apply Hs; lia).
    f_equal. unfold StreamTask.slice.
    replace (drop (S i * pieceSize) origin)
      with (drop pieceSize (drop (i * pieceSize) origin))
      by (rewrite drop_drop; f_equal; lia).
    rewrite take_take_drop. f_equal.
Qed.

Lemma pieceMd5s_slices (s : gmap nat (string * bytes)) (n : nat) :
  forall i,
  (forall j, i <= j < i + n -> s !! j = Some (Md5 (slice j), slice j)) ->
  pieceMd5s s i n = Some (map (fun j => Md5 (slice j)) (seq i n)).
Proof.
  induction n as [|n IH]; intros i Hs; cbn [pieceMd5s seq map]; [done|].
  rewrite (Hs i) by lia. by rewrite (IH (S i)) by (intros; apply Hs; lia).
Qed.

(** A well-formed conductor that holds every piece holds the origin. *)
Lemma wellFormed_full (c : Conductor) :
  wellFormed c -> bitmap c = set_seq 0 totalPieces ->
  forall j, j < totalPieces -> pieces (store c) !! j = Some (Md5 (slice j), slice j).
Proof.
  intros [Hdom Hcons] Hbits j Hj.
  assert (Hin : j ∈ dom (pieces (store c))).
  { rewrite Hdom, Hbits. apply elem_of_set_seq. lia. }
  apply elem_of_dom in Hin as [[m d] Hd]. rewrite Hd.
  destruct (Hcons j m d Hd) as [-> ->]. done.
Qed.

(** Completion of a conductor that holds every piece of the origin: the
    final result is sent, and the task succeeds unless a recorded sign
    differs from the aggregate digest of the origin. *)
Lemma complete_full (c : Conductor) :
  wellFormed c -> bitmap c = set_seq 0 totalPieces ->
  let valid := match pieceMd5Sign (store c) with
               | Some sign => String.eqb originSign sign
               | None => true
               end in
  state (complete c) = (if valid then Succeeded else Failed) /\
  invalid (store (complete c)) = (if valid then invalid (store c) else true) /\
  pieces (store (complete c)) = pieces (store c) /\
  storeCalls (store (complete c)) = storeCalls (store c) /\
  reports (complete c) = reports c ++ [mkPieceResult EndPieceNum true totalPieces].
Proof.
  intros Hwf Hbits valid. unfold StreamTask.complete.
  rewrite decide_True by (rewrite Hbits; apply size_set_seq).
  assert (Hv : ValidateDigest (store c) = valid).
  { unfold StreamTask.ValidateDigest, valid. destruct (pieceMd5Sign (store c)); [|done].
    rewrite (pieceMd5s_slices _ totalPieces 0); [done|].
    intros j Hj. apply (wellFormed_full c Hwf Hbits). lia. }
  rewrite Hv. by destruct valid.
Qed.

(** Completion does nothing while a piece is outstanding. *)
Lemma complete_partial (c : Conductor) :
  size (bitmap c) <> totalPieces -> complete c = c.
Proof. intros H. unfold StreamTask.complete. by rewrite decide_False. Qed.

Lemma outstanding_all (done : gset nat) (n : nat) :
  forall i, (forall j, i <= j < i + n -> j ∉ done) -> outstanding done i n = seq i n.
Proof.
  unfold outstanding. induction n as [|n IH]; intros i Hfree; cbn [seq]; [done|].
  rewrite filter_cons_True by (apply Hfree; lia).
  f_equal. apply IH. intros j Hj. apply Hfree. lia.
Qed.

(** The scenario, for any sign the peer advertises: after the packet
    piece 0 is stored; after [NeedBackSource] every piece holds the bytes
    of the origin under their MD5, each piece was stored once and reported
    once, in order, and the final result was sent; the task has succeeded
    unless the advertised sign differs from the aggregate digest of the
    origin, in which case it has failed and its pieces are invalidated. *)
Lemma back_source_partial_run (sign : option string) :
  origin <> [] ->
  let packet := firstPacket origin pieceSize sign (Md5 (slice 0)) (slice 0) in
  let c1 := run [packet] in
  let c2 := run [packet; NeedBackSource] in
  let valid := match sign with
               | Some s => String.eqb originSign s
               | None => true
               end in
  (pieces (store c1) !! 0 = Some (Md5 (slice 0), slice 0) /\
   bitmap c1 = {[0]} /\ storeCalls (store c1) = [0]) /\
  (state c2 = (if valid then Succeeded else Failed) /\
   invalid (store c2) = negb valid) /\
  (forall j, j < totalPieces -> pieces (store c2) !! j = Some (Md5 (slice j), slice j)) /\
  storeCalls (store c2) = seq 0 totalPieces /\
  reports c2 =
    map (fun j => mkPieceResult (Piece j) true (S j)) (seq 0 totalPieces)
      ++ [mkPieceResult EndPieceNum true totalPieces] /\
  (1 < totalPieces ->
   state c1 = Running /\
   reports c1 = [mkPieceResult (Piece 0) true 1] /\
   unread (fst (backSource c1)) = [] /\
   streamOps (fst (backSource c1)) =
     Discarded (sizeOf 0) :: map (fun j => ReadChunk (sizeOf j)) (seq 1 (totalPieces - 1))).
Proof.
  intros Hne packet c1 c2 valid.
  pose proof (totalPieces_pos Hne) as HN.
  set (s0 := UpdateTask (mkPieceStore ∅ None false []) sign).
  set (cr := mkConductor Running s0 ∅ []).
  set (c0 := pieceSucceeded cr (piece0 origin pieceSize (Md5 (slice 0))) (slice 0)).
  assert (Ec1 : c1 = complete c0).
  { unfold c1, StreamTask.run. cbn [fold_left handle start state packet firstPacket].
    f_equal. unfold fetchPiece. cbn [fst snd bitmap start].
    rewrite decide_False by set_solver. cbn [piece0 PieceMd5].
    rewrite String.eqb_refl. reflexivity. }
  destruct (UpdateTask_meta (mkPieceStore ∅ None false []) sign) as (Hu1 & Hu2 & Hu3 & Hu4).
  fold s0 in Hu1, Hu2, Hu3, Hu4. cbn [pieces invalid storeCalls pieceMd5Sign] in Hu1, Hu2, Hu3, Hu4.
  assert (Hwfr : wellFormed cr).
  { split; cbn [store bitmap cr]; rewrite Hu1.
    - apply dom_empty_L.
    - intros j m d. by rewrite lookup_empty. }
  assert (Hwf0 : wellFormed c0) by (by apply (pieceSucceeded_wellFormed cr)).
  assert (Hb0 : bitmap c0 = {[0]}) by (cbn [bitmap c0 pieceSucceeded cr piece0 PieceNum]; set_solver).
  assert (Hsign0 : pieceMd5Sign (store c0) = sign /\ invalid (store c0) = false /\
                   storeCalls (store c0) = [0]).
  { cbn [store c0 pieceSucceeded cr].
    destruct (Store_meta s0 (piece0 origin pieceSize (Md5 (slice 0))) (slice 0)) as (-> & -> & ->).
    rewrite Hu2, Hu3, Hu4. done. }
  destruct Hsign0 as (Hsg0 & Hinv0 & Hcalls0).
  assert (Hp0 : pieces (store c0) !! 0 = Some (Md5 (slice 0), slice 0)).
  { cbn [store c0 pieceSucceeded cr]. rewrite Store_pieces.
    rewrite decide_True by done. cbn [piece0 PieceNum PieceMd5].
    rewrite Hu1. by rewrite lookup_empty. }
  assert (Hr0 : reports c0 = [mkPieceResult (Piece 0) true 1]).
  { assert (Hsz : size ({[0]} ∪ ∅ : gset nat) = 1)
      by (rewrite (right_id_L ∅ (∪)); apply size_singleton).
    cbn [reports c0 pieceSucceeded cr app piece0 PieceNum bitmap]. by rewrite Hsz. }
  destruct (decide (totalPieces = 1)) as [Hone|Hmany].
  - (* the task is complete after piece 0 *)
    assert (Hbits : bitmap c0 = set_seq 0 totalPieces).
    { rewrite Hb0, Hone. cbn [set_seq]. by rewrite (right_id_L ∅ (∪)). }
    destruct (complete_full c0 Hwf0 Hbits) as (Hst & Hiv & Hps & Hcs & Hrs).
    rewrite Hsg0 in Hst, Hiv. fold valid in Hst, Hiv. rewrite <- Ec1 in Hst, Hiv, Hps, Hcs, Hrs.
    assert (Ec2 : c2 = c1).
    { unfold c2, StreamTask.run. cbn [fold_left].
      change (handle Md5 Sha256 origin pieceSize start packet) with c1.
      unfold handle. rewrite Hst. by destruct valid. }
    rewrite Ec2.
    split; [split; [by rewrite Hps | split; [by rewrite Ec1; unfold StreamTask.complete;
                                              destruct (decide _); [destruct (StreamTask.ValidateDigest _ _ _ _)|]
                                            | by rewrite Hcs]]|].
    split; [split; [exact Hst | rewrite Hiv, Hinv0; by destruct valid]|].
    split; [intros j Hj; rewrite Hps; by apply (wellFormed_full c0)|].
    split; [rewrite Hcs, Hcalls0, Hone; done|].
    split; [rewrite Hrs, Hr0, Hone; done|].
    lia.
  - (* pieces are outstanding after piece 0 *)
    assert (Ec1' : c1 = c0).
    { rewrite Ec1. apply complete_partial. rewrite Hb0, size_singleton. lia. }
    set (cb := mkConductor BackSourcing (store c0) (bitmap c0) (reports c0)).
    assert (Hwfb : wellFormed cb) by exact Hwf0.
    pose proof (backSource_loop_spec totalPieces 0 (mkOriginStream origin []) cb Hwfb eq_refl)
      as Hloop.
    cbv zeta in Hloop.
    set (r := backSource_loop totalPieces 0 (mkOriginStream origin []) cb) in *.
    destruct Hloop as ((Hrest & Hops) & Hwf2 & Hbm & (Hstate & Hsg & Hinv) & Hkeep & Hcalls & Hreps).
    assert (Hout : outstanding {[0]} 0 totalPieces = seq 1 (totalPieces - 1)).
    { destruct totalPieces as [|m]; [lia|]. unfold outstanding. cbn [seq].
      rewrite filter_cons_False by (intros H; apply H; set_solver).
      replace (S m - 1) with m by lia. apply outstanding_all.
      intros j Hj. rewrite elem_of_singleton. lia. }
    assert (Hbits : bitmap (snd r) = set_seq 0 totalPieces).
    { rewrite Hbm. cbn [bitmap cb]. rewrite Hb0.
      apply set_eq. intros j. rewrite elem_of_union, elem_of_singleton, elem_of_set_seq. lia. }
    assert (Eback : backSource c1 = (fst r, complete (snd r))).
    { rewrite Ec1'. unfold StreamTask.backSource. fold cb. fold r. by destruct r. }
    assert (Ec2 : c2 = complete (snd r)).
    { unfold c2, StreamTask.run. cbn [fold_left].
      change (handle Md5 Sha256 origin pieceSize start packet) with c1.
      unfold handle. rewrite Ec1'. cbn [state c0 pieceSucceeded cr].
      fold c0. rewrite <- Ec1', Eback. done. }
    destruct (complete_full (snd r) Hwf2 Hbits) as (Hst & Hiv & Hps & Hcs & Hrs).
    rewrite Hsg in Hst, Hiv. cbn [store cb] in Hst, Hiv. rewrite Hsg0 in Hst, Hiv.
    fold valid in Hst, Hiv. rewrite <- Ec2 in Hst, Hiv, Hps, Hcs, Hrs.
    split; [rewrite Ec1'; done|].
    split; [split; [exact Hst | rewrite Hiv, Hinv; cbn [store cb]; rewrite Hinv0; by destruct valid]|].
    split; [intros j Hj; rewrite Hps; by apply (wellFormed_full (snd r))|].
    split.
    { rewrite Hcs, Hcalls. cbn [store cb bitmap]. rewrite Hcalls0, Hb0, Hout.
      destruct totalPieces as [|m]; [lia|]. cbn [seq app]. do 2 f_equal. lia. }
    split.
    { rewrite Hrs, Hreps. cbn [reports cb bitmap]. rewrite Hr0, Hb0, Hout. f_equal.
      destruct totalPieces as [|m]; [lia|]. cbn [seq map app]. f_equal.
      replace (S m - 1) with m by lia.
      apply map_ext_in. intros j Hj%in_seq. unfold sourceReport. do 2 f_equal.
      rewrite Nat.sub_0_r.
      replace ({[0]} ∪ set_seq 0 (S j)) with (set_seq (C := gset nat) 0 (S j)).
      - apply size_set_seq.
      - apply set_eq. intros x. rewrite elem_of_union, elem_of_singleton, elem_of_set_seq. lia. }
    intros _. rewrite Ec1'. split; [done|]. split; [exact Hr0|].
    rewrite <- Ec1', Eback. cbn [fst]. split.
    + rewrite Hrest. apply drop_ge. cbn [Nat.add]. apply totalPieces_cover.
    + rewrite Hops. cbn [streamOps app bitmap cb]. rewrite Hb0.
      destruct totalPieces as [|m]; [lia|]. cbn [seq map].
      rewrite decide_True by set_solver. f_equal.
      replace (S m - 1) with m by lia.
      apply map_ext_in. intros j Hj%in_seq.
      rewrite decide_False; [done|]. rewrite elem_of_singleton. lia.
Qed.

(** C1: the content length is known; piece 0 has been fetched from a peer
    (its bytes passed the MD5 check) and stored; the scheduler then
    answers [NeedBackSource].  The back-source moves over the bytes of
    piece 0 in the origin stream without a [Store] for it, reads, stores
    and reports every other piece, and consumes the stream to its end; every
    stored piece holds the bytes of the origin under their MD5, the digest
    validation passes and the task succeeds; the reader, read to
    completion, yields the origin content byte for byte. *)
Theorem back_source_partial_reads_origin (sign : option string) :
  origin <> [] ->
  (forall advertised, sign = Some advertised ->
     advertised = StreamTask.originSign Md5 Sha256 origin pieceSize) ->
  let packet := firstPacket origin pieceSize sign (Md5 (slice 0)) (slice 0) in
  let c1 := StreamTask.run Md5 Sha256 origin pieceSize [packet] in
  let c2 := StreamTask.run Md5 Sha256 origin pieceSize [packet; NeedBackSource] in
  (pieces (store c1) !! 0 = Some (Md5 (slice 0), slice 0) /\
   bitmap c1 = {[0]} /\ storeCalls (store c1) = [0]) /\
  StreamTask.readAll origin pieceSize c2 = Some origin /\
  (state c2 = Succeeded /\ invalid (store c2) = false) /\
  pieces (store c2) !! 0 = pieces (store c1) !! 0 /\
  (forall j, j < totalPieces ->
     exists d, pieces (store c2) !! j = Some (Md5 d, d) /\ d = slice j) /\
  storeCalls (store c2) = 0 :: seq 1 (totalPieces - 1) /\
  reports c2 =
    mkPieceResult (Piece 0) true 1
      :: map (fun j => mkPieceResult (Piece j) true (S j)) (seq 1 (totalPieces - 1))
      ++ [mkPieceResult EndPieceNum true totalPieces] /\
  (1 < totalPieces ->
   state c1 = Running /\
   unread (fst (StreamTask.backSource Md5 Sha256 origin pieceSize c1)) = [] /\
   streamOps (fst (StreamTask.backSource Md5 Sha256 origin pieceSize c1)) =
     Discarded (sizeOf 0) :: map (fun j => ReadChunk (sizeOf j)) (seq 1 (totalPieces - 1))).
Proof.
  intros Hne Hsign packet c1 c2.
  pose proof (totalPieces_pos Hne) as HN.
  destruct (back_source_partial_run sign Hne)
    as ((Hp1 & Hb1 & Hc1) & (Hst & Hinv) & Hall & Hcalls & Hreps & Hstream).
  fold packet in Hp1, Hb1, Hc1, Hst, Hinv, Hall, Hcalls, Hreps, Hstream.
  fold c1 in Hp1, Hb1, Hc1, Hstream. fold c2 in Hst, Hinv, Hall, Hcalls, Hreps.
  assert (Hvalid : match sign with
                   | Some s => String.eqb originSign s
                   | None => true
                   end = true).
  { destruct sign as [s|]; [|done]. rewrite (Hsign s eq_refl). apply String.eqb_refl. }
  rewrite Hvalid in Hst, Hinv.
  assert (Hseq : seq 0 totalPieces = 0 :: seq 1 (totalPieces - 1)).
  { destruct totalPieces as [|m]; [lia|]. cbn [seq]. do 2 f_equal. lia. }
  split; [done|]. split.
  { unfold StreamTask.readAll. rewrite (readPieces_slices _ totalPieces 0).
    - change (drop (0 * pieceSize) origin) with origin.
      rewrite take_ge by apply totalPieces_cover. done.
    - intros j Hj. apply Hall. lia. }
  split; [done|].
  split; [by rewrite Hp1, Hall by lia|].
  split; [intros j Hj; exists (slice j); by rewrite Hall by lia|].
  split; [by rewrite Hcalls, Hseq|].
  split; [rewrite Hreps, Hseq; done|].
  intros Hmany. destruct (Hstream Hmany) as (H1 & _ & H3 & H4). done.
Qed.

(** The digest validation is live: when the peer advertises a sign that is
    not the aggregate digest of the origin, the same run ends in [Failed]
    with the stored task invalidated. *)
Lemma back_source_partial_sign_mismatch (advertised : string) :
  origin <> [] ->
  advertised <> originSign ->
  let packet := firstPacket origin pieceSize (Some advertised) (Md5 (slice 0)) (slice 0) in
  let c2 := run [packet; NeedBackSource] in
  state c2 = Failed /\ invalid (store c2) = true.
Proof.
  intros Hne Hsign packet c2.
  destruct (back_source_partial_run (Some advertised) Hne) as (_ & (Hst & Hinv) & _).
  fold packet in Hst, Hinv. fold c2 in Hst, Hinv.
  assert (Hneq : String.eqb originSign advertised = false)
    by (apply String.eqb_neq; congruence).
  rewrite Hneq in Hst, Hinv. done.
Qed.

(** The MD5 check of the fetcher is live: a body whose MD5 is not the one
    advertised fails the fetch; nothing is stored and a failure is
    reported. *)
Lemma fetchPiece_digest_mismatch (c : Conductor) (p : PieceInfo) (body : bytes) :
  PieceNum p ∉ bitmap c ->
  Md5 body <> PieceMd5 p ->
  fetchPiece Md5 c (p, Some body) =
    mkConductor (state c) (store c) (bitmap c)
      (reports c ++ [mkPieceResult (Piece (PieceNum p)) false (size (bitmap c))]).
Proof.
  intros Hfree Hmd5. unfold fetchPiece. cbn [fst snd].
  rewrite decide_False by done.
  assert (Hneq : String.eqb (Md5 body) (PieceMd5 p) = false) by (by apply String.eqb_neq).
  by rewrite Hneq.
Qed.

End StreamTaskProperties.

Section StreamTaskCases.
Import StreamTask StreamTaskExamples.

Lemma back_source_partial_witness :
  readAll tenBytes 4 (runTen [honestPacket; NeedBackSource]) = Some tenBytes /\
  state (runTen [honestPacket; NeedBackSource]) = Succeeded /\
  storeCalls (store (runTen [honestPacket; NeedBackSource])) = [0; 1; 2]%nat /\
  streamOps (fst (backSource PeerExamples.byteSum joinDigests tenBytes 4 (runTen [honestPacket])))
    = [Discarded 4; ReadChunk 4; ReadChunk 2].
Proof.
  assert (Hp : (0 < 4)%nat) by lia.
  assert (Hne : tenBytes <> []) by discriminate.
  destruct (back_source_partial_reads_origin PeerExamples.byteSum joinDigests tenBytes 4 Hp
              (Some (originSign PeerExamples.byteSum joinDigests tenBytes 4)) Hne)
    as (_ & Hr & (Hs & _) & _ & _ & Hc & _ & Hstream).
  { intros advertised [= <-]. reflexivity. }
  split; [exact Hr|]. split; [exact Hs|]. split; [exact Hc|].
  destruct Hstream as (_ & _ & Hops); [vm_compute; lia|]. exact Hops.
Defined.

(** A peer that serves altered bytes for piece 0: the MD5 check fails the
    fetch, nothing is stored, and the back-source reads piece 0 from the
    origin like the others. *)
Example back_source_after_digest_failure :
  let altered := PeerPacket None
                   [(piece0 tenBytes 4 (PeerExamples.byteSum (slice tenBytes 4 0)),
                     Some [Byte.x61; Byte.x62; Byte.x63; Byte.x64])] in
  pieces (store (runTen [altered])) = ∅ /\
  reports (runTen [altered]) = [mkPieceResult (Piece 0) false 0] /\
  readAll tenBytes 4 (runTen [altered; NeedBackSource]) = Some tenBytes /\
  storeCalls (store (runTen [altered; NeedBackSource])) = [0; 1; 2]%nat /\
  streamOps (fst (backSource PeerExamples.byteSum joinDigests tenBytes 4 (runTen [altered])))
    = [ReadChunk 4; ReadChunk 4; ReadChunk 2].
Proof. vm_compute. repeat split; reflexivity. Qed.

(** A peer that advertises a sign that is not the digest of the content:
    the pieces are fetched and stored, and the validation at completion
    fails the task. *)
Example back_source_wrong_sign :
  let packet := firstPacket tenBytes 4 (Some "0"%string)
                  (PeerExamples.byteSum (slice tenBytes 4 0)) (slice tenBytes 4 0) in
  state (runTen [packet; NeedBackSource]) = Failed /\
  invalid (store (runTen [packet; NeedBackSource])) = true.
Proof. vm_compute. split; reflexivity. Qed.

(** A task that has ended handles no further directive. *)
Example terminal_state_is_final :
  runTen [honestPacket; NeedBackSource; NeedBackSource; honestPacket]
  = runTen [honestPacket; NeedBackSource].
Proof. vm_compute. reflexivity. Qed.

End StreamTaskCases.

(** ** The registry, the transport, the piece downloader, the host and
    the HDFS client beyond the claims *)

Section RegistryProperties.
Import Source.

Context {ResourceClient : Type} `{EqDecision ResourceClient}.
Context {requestAdapter Hook : Type}.
Variable ToLower : string -> string.
Hypothesis ToLower_idem : forall s, ToLower (ToLower s) = ToLower s.

Implicit Types clients : gmap string (@client ResourceClient requestAdapter Hook).

(** X1: [Register] never replaces or removes an entry of the registry,
    whatever it returns, and touches no scheme but its own. *)
Theorem Register_keeps_entries clients scheme resourceClient adaptor hks :
  let clients' := snd (Register ToLower clients scheme resourceClient adaptor hks) in
  (forall k c, clients !! k = Some c -> clients' !! k = Some c) /\
  (forall k, k <> ToLower scheme -> clients' !! k = clients !! k).
Proof.
  intros clients'. subst clients'. unfold Register, doRegister.
  destruct (clients !! ToLower scheme) as [[w|c0]|] eqn:E; cbn [snd].
  - destruct (decide _); cbn [snd]; done.
  - done.
  - rewrite ToLower_idem. split.
    + intros k c Hk. rewrite lookup_insert_ne; [done|]. congruence.
    + intros k Hk. by rewrite lookup_insert_ne.
Qed.

(** X2: [UnRegister] removes the entry of the scheme, in any letter case, and
    no other; after it a [Register] for the scheme succeeds and stores the
    client given, whatever was registered before. *)
Theorem UnRegister_then_Register clients scheme scheme' resourceClient adaptor hks :
  ToLower scheme' = ToLower scheme ->
  let removed := UnRegister ToLower clients scheme in
  removed !! ToLower scheme = None /\
  (forall k, k <> ToLower scheme -> removed !! k = clients !! k) /\
  (clients !! ToLower scheme = None -> removed = clients) /\
  Register ToLower removed scheme' resourceClient adaptor hks =
    (Return None,
     <[ToLower scheme := Wrapper (mkWrapper adaptor hks resourceClient)]> removed).
Proof.
  intros Hs removed. subst removed. unfold UnRegister.
  split; [apply lookup_delete_eq|].
  split; [intros k Hk; by apply lookup_delete_ne|].
  split; [apply delete_id|].
  unfold Register, doRegister. rewrite Hs, lookup_delete_eq.
  by rewrite ToLower_idem.
Qed.

End RegistryProperties.

Section ManagerProperties.
Import Source SourceManager.

Context {ResourceClient : Type} `{EqDecision ResourceClient}.
Context {requestAdapter Hook : Type}.
Variable ToLower : string -> string.
Hypothesis ToLower_idem : forall s, ToLower (ToLower s) = ToLower s.

Local Abbreviation clientManager := (@clientManager ResourceClient requestAdapter Hook).
Implicit Types (m : clientManager).

(** X3: A registered client is found again: after a first [Register] of a
    scheme, [GetClient] for any spelling of the scheme returns the wrapper
    of the client and leaves the manager alone; no option is run and no
    plugin is loaded. *)
Theorem GetClient_after_Register
    (LoadPlugin : string -> string -> option ResourceClient)
    m scheme scheme' resourceClient adaptor hks
    (options : list (clientManager -> clientManager)) :
  clients m !! ToLower scheme = None ->
  ToLower scheme' = ToLower scheme ->
  exists m1,
    SourceManager.Register ToLower m scheme resourceClient adaptor hks = (Return None, m1) /\
    GetClient ToLower LoadPlugin m1 scheme' options =
      (Some (Wrapper (mkWrapper adaptor hks resourceClient)), true, m1).
Proof.
  intros Hfree Hs. unfold SourceManager.Register, Source.Register, doRegister.
  rewrite Hfree, ToLower_idem. eexists. split; [reflexivity|].
  unfold GetClient. cbn [clients]. rewrite Hs, lookup_insert_eq. done.
Qed.

(** X4: A scheme nobody registered is loaded from its plugin once: the client
    of the plugin is stored under the lower-case scheme, and every later
    [GetClient] for the scheme returns it without running an option or
    loading again. *)
Theorem GetClient_loads_plugin_once
    (LoadPlugin LoadPlugin' : string -> string -> option ResourceClient)
    m scheme scheme' rc0 (options options' : list (clientManager -> clientManager)) :
  clients m !! ToLower scheme = None ->
  ToLower scheme' = ToLower scheme ->
  let m0 := fold_left (fun m opt => opt m) options m in
  LoadPlugin (pluginDir m0) (ToLower scheme) = Some rc0 ->
  let m1 := mkManager (<[ToLower scheme := Plugin rc0]> (clients m0)) (pluginDir m0) in
  GetClient ToLower LoadPlugin m scheme options = (Some (Plugin rc0), true, m1) /\
  GetClient ToLower LoadPlugin' m1 scheme' options' = (Some (Plugin rc0), true, m1).
Proof.
  intros Hfree Hs m0 Hload m1. split.
  - unfold GetClient. rewrite Hfree. fold m0. rewrite Hload.
    unfold doRegister. by rewrite ToLower_idem.
  - unfold GetClient. rewrite Hs. subst m1. cbn [clients].
    by rewrite lookup_insert_eq.
Qed.

(** X5: A client that came from a plugin is not a wrapper: once [GetClient]
    has loaded a scheme, a [Register] for it panics on the type assertion,
    even with the very client the plugin gave. *)
Theorem Register_after_plugin_panics
    (LoadPlugin : string -> string -> option ResourceClient)
    m scheme scheme' rc0 resourceClient adaptor hks :
  clients m !! ToLower scheme = None ->
  ToLower scheme' = ToLower scheme ->
  LoadPlugin (pluginDir m) (ToLower scheme) = Some rc0 ->
  let m1 := snd (GetClient ToLower LoadPlugin m scheme []) in
  SourceManager.Register ToLower m1 scheme' resourceClient adaptor hks = (Panics, m1).
Proof.
  intros Hfree Hs Hload m1. subst m1. unfold GetClient. rewrite Hfree.
  cbn [fold_left]. rewrite Hload. cbn [snd].
  unfold SourceManager.Register, Source.Register, doRegister. cbn [clients pluginDir].
  rewrite Hs, ToLower_idem, lookup_insert_eq. done.
Qed.

End ManagerProperties.

Section EntryPointProperties.
Import Source SourceManager.

Context {ResourceClient : Type} `{EqDecision ResourceClient}.
Context {requestAdapter Hook : Type}.
Variable ToLower : string -> string.
Hypothesis ToLower_idem : forall s, ToLower (ToLower s) = ToLower s.
Variable LoadPlugin : string -> string -> option ResourceClient.
Context {Request Response ExpireInfo E : Type}.
Variable Scheme : Request -> string.
Variable hasDeadline : Request -> bool.
Variable WithTimeout : Request -> Request.
Variable Header_get_Range : Request -> string.
Variable Header_Add_Range_0_0 : Request -> Request.
Variable adapt : requestAdapter -> Request -> Request.
Variable rc_GetContentLength : ResourceClient -> Request -> Z * option (goerror E).
Variable rc_IsSupportRange : ResourceClient -> Request -> bool * option (goerror E).
Variable rc_IsExpired : ResourceClient -> Request -> ExpireInfo -> bool * option (goerror E).
Variable rc_Download : ResourceClient -> Request -> option Response * option (goerror E).
Variable rc_GetLastModified : ResourceClient -> Request -> Z * option (goerror E).

Local Abbreviation clientManager := (@clientManager ResourceClient requestAdapter Hook).
Implicit Types (m : clientManager) (request : Request).

Local Abbreviation GetContentLength' :=
  (GetContentLength ToLower LoadPlugin Scheme hasDeadline WithTimeout adapt rc_GetContentLength).
Local Abbreviation IsSupportRange' :=
  (IsSupportRange ToLower LoadPlugin Scheme hasDeadline WithTimeout
     Header_get_Range Header_Add_Range_0_0 adapt rc_IsSupportRange).
Local Abbreviation IsExpired' :=
  (IsExpired ToLower LoadPlugin Scheme hasDeadline WithTimeout adapt rc_IsExpired).
Local Abbreviation GetLastModified' :=
  (GetLastModified ToLower LoadPlugin Scheme hasDeadline WithTimeout adapt rc_GetLastModified).
Local Abbreviation Download' :=
  (Download ToLower LoadPlugin Scheme adapt rc_Download).

(** X6: Without a client for the scheme of the request (none registered, no
    plugin), every entry point returns its own default value ([-2] for the
    content length, [-1] for the last modification, [false], [nil]) with an
    error that [IsNoClientFoundError] recognises and
    [IsResourceNotReachableError] does not; the manager is left as it was. *)
Theorem no_client_defaults m request info :
  clients m !! ToLower (Scheme request) = None ->
  LoadPlugin (pluginDir m) (ToLower (Scheme request)) = None ->
  exists err : goerror E,
    IsNoClientFoundError err = true /\ IsResourceNotReachableError err = false /\
    GetContentLength' m request = (-2, Some err, m) /\
    IsSupportRange' m request = (false, Some err, m) /\
    IsExpired' m request info = (false, Some err, m) /\
    GetLastModified' m request = (-1, Some err, m) /\
    Download' m request = (None, Some err, m).
Proof.
  intros Hfree Hload.
  exists (noClient Scheme request). split; [reflexivity|]. split; [reflexivity|].
  unfold GetContentLength, IsSupportRange, IsExpired, GetLastModified, Download, GetClient.
  rewrite Hfree. cbn [fold_left]. rewrite Hload. done.
Qed.

(** X7: A registered client is reached through its adapter: after a first
    [Register] of a scheme, an entry point called on a request of that
    scheme returns what the client answers on the adapted request.  The
    request carries the default timeout when it had no deadline, except
    for [Download]; [IsSupportRange] adds a [Range] of [0-0] when the
    request has none. *)
Theorem registered_client_is_called_through_adapter
    m scheme resourceClient adaptor hks request info :
  clients m !! ToLower scheme = None ->
  ToLower (Scheme request) = ToLower scheme ->
  exists m1,
    SourceManager.Register ToLower m scheme resourceClient adaptor hks = (Return None, m1) /\
    let timed := withDefaultTimeout hasDeadline WithTimeout request in
    GetContentLength' m1 request =
      (rc_GetContentLength resourceClient (adapt adaptor timed), m1) /\
    IsSupportRange' m1 request =
      (rc_IsSupportRange resourceClient
         (adapt adaptor
            (if String.eqb (Header_get_Range timed) EmptyString
             then Header_Add_Range_0_0 timed else timed)), m1) /\
    IsExpired' m1 request info =
      (rc_IsExpired resourceClient (adapt adaptor timed) info, m1) /\
    GetLastModified' m1 request =
      (rc_GetLastModified resourceClient (adapt adaptor timed), m1) /\
    Download' m1 request = (rc_Download resourceClient (adapt adaptor request), m1).
Proof.
  intros Hfree Hs. unfold SourceManager.Register, Source.Register, doRegister.
  rewrite Hfree, ToLower_idem. eexists. split; [reflexivity|].
  unfold GetContentLength, IsSupportRange, IsExpired, GetLastModified, Download, GetClient.
  cbn [clients]. rewrite Hs, lookup_insert_eq. done.
Qed.

End EntryPointProperties.

Section RegistryCases.
Import Source SourceManager RegistryExamples.

Lemma Register_keeps_entries_witness :
  snd (Source.Register Go.ToLower {[ "http"%string := Wrapper (mkWrapper tt [] 1%nat) ]}
         "HTTP" 2%nat tt ([] : list unit)) !! "http"%string
  = Some (Wrapper (mkWrapper tt [] 1%nat)).
Proof.
  exact (proj1 (Register_keeps_entries Go.ToLower ToLower_idempotent
                  {[ "http"%string := Wrapper (mkWrapper tt [] 1%nat) ]}
                  "HTTP" 2%nat tt []) "http"%string _ eq_refl).
Defined.

Lemma UnRegister_then_Register_witness :
  Source.Register Go.ToLower
    (Source.UnRegister Go.ToLower {[ "http"%string := Wrapper (mkWrapper tt [] 1%nat) ]} "Http")
    "HTTP" 2%nat tt ([] : list unit)
  = (Return None,
     <["http"%string := Wrapper (mkWrapper tt [] 2%nat)]>
       (Source.UnRegister Go.ToLower {[ "http"%string := Wrapper (mkWrapper tt [] 1%nat) ]} "Http")).
Proof.
  exact (proj2 (proj2 (proj2
           (UnRegister_then_Register Go.ToLower ToLower_idempotent
              {[ "http"%string := Wrapper (mkWrapper tt [] 1%nat) ]}
              "Http" "HTTP" 2%nat tt [] eq_refl)))).
Defined.

Lemma GetClient_after_Register_witness :
  exists m1 : manager,
    SourceManager.Register Go.ToLower empty "HTTP" 1%nat tt [] = (Return None, m1) /\
    GetClient Go.ToLower ossPlugin m1 "http" [fun m => UpdatePluginDir m "/plugins"]
      = (Some (Wrapper (mkWrapper tt [] 1%nat)), true, m1).
Proof.
  exact (GetClient_after_Register Go.ToLower ToLower_idempotent ossPlugin empty
           "HTTP" "http" 1%nat tt [] [fun m => UpdatePluginDir m "/plugins"] eq_refl eq_refl).
Defined.

Lemma GetClient_loads_plugin_once_witness :
  let m1 : manager := mkManager {[ "oss"%string := Plugin 9%nat ]} "/plugins" in
  GetClient Go.ToLower ossPlugin empty "OSS" [fun m => UpdatePluginDir m "/plugins"]
    = (Some (Plugin 9%nat), true, m1) /\
  GetClient Go.ToLower noPlugin m1 "oss" [fun m => UpdatePluginDir m "/elsewhere"]
    = (Some (Plugin 9%nat), true, m1).
Proof.
  exact (GetClient_loads_plugin_once Go.ToLower ToLower_idempotent ossPlugin noPlugin empty
           "OSS" "oss" 9%nat [fun m => UpdatePluginDir m "/plugins"] [fun m => UpdatePluginDir m "/elsewhere"]
           eq_refl eq_refl eq_refl).
Defined.

Lemma Register_after_plugin_panics_witness :
  SourceManager.Register Go.ToLower
    (snd (GetClient Go.ToLower ossPlugin empty "oss" [])) "OSS" 9%nat tt ([] : list unit)
  = (Panics, snd (GetClient Go.ToLower ossPlugin empty "oss" [])).
Proof.
  exact (Register_after_plugin_panics Go.ToLower ToLower_idempotent ossPlugin empty
           "oss" "OSS" 9%nat 9%nat tt [] eq_refl eq_refl eq_refl).
Defined.

Lemma no_client_defaults_witness :
  exists err : goerror string,
    IsNoClientFoundError err = true /\
    fst (GetContentLength Go.ToLower noPlugin id (fun _ => false) id tt_adapt answerLength
           empty "ftp"%string) = (-2, Some err).
Proof.
  destruct (no_client_defaults (Response := list Byte.byte) Go.ToLower noPlugin
              id (fun _ => false) id id id tt_adapt
              answerLength answerBool answerExpired answerDownload answerLength
              empty "ftp"%string tt eq_refl eq_refl) as (err & H1 & _ & H2 & _).
  exists err. split; [exact H1|]. exact (f_equal fst H2).
Defined.

Lemma registered_client_witness :
  exists m1 : manager,
    SourceManager.Register Go.ToLower empty "HTTP" 5%nat tt [] = (Return None, m1) /\
    fst (GetContentLength Go.ToLower noPlugin id (fun _ => false) id tt_adapt answerLength
           m1 "http"%string) = (5, None).
Proof.
  destruct (registered_client_is_called_through_adapter (Response := list Byte.byte)
              Go.ToLower ToLower_idempotent noPlugin
              id (fun _ => false) id id id tt_adapt
              answerLength answerBool answerExpired answerDownload answerLength
              empty "HTTP" 5%nat tt [] "http"%string tt eq_refl eq_refl)
    as (m1 & H1 & H2 & _).
  exists m1. split; [exact H1|]. exact (f_equal fst H2).
Defined.

End RegistryCases.

Section TransportMore.
Import Go Transport.

(** X8: The default predicate routes a request exactly when it is a [GET] and
    its path reads: a non-empty prefix, then [/blobs/sha256], then any
    suffix, with no newline anywhere.  A path that begins with
    [/blobs/sha256] is routed only if the text occurs again further on. *)
Theorem NeedUseDragonfly_path_shape (req : Request.t) :
  NeedUseDragonfly req = true <->
  Request.Method req = "GET"%string /\
  exists p q,
    list_ascii_of_string (URL.Path (Request.URL req))
      = p ++ list_ascii_of_string "/blobs/sha256" ++ q /\
    p <> [] /\ (newline ∉ p) /\ (newline ∉ q).
Proof.
  unfold NeedUseDragonfly, MethodGet.
  rewrite andb_true_iff, String.eqb_eq, MatchString_MatchesIn, layerReg_language. done.
Qed.

(** The removed header names, in canonical form. *)
Local Abbreviation removed :=
  (map CanonicalMIMEHeaderKey (hopHeaders ++ traceContext_Fields)).

(** X9: [delHopHeaders] only removes: what it leaves is what was there; doing
    it twice changes nothing more; and its result does not depend on the
    hop-by-hop and trace headers of its argument. *)
Theorem delHopHeaders_only_removes (h : http_Header) :
  (forall k v, delHopHeaders h !! k = Some v -> h !! k = Some v /\ k ∉ removed) /\
  delHopHeaders (delHopHeaders h) = delHopHeaders h /\
  (forall h2 : http_Header,
     (forall k, k ∉ removed -> h !! k = h2 !! k) -> delHopHeaders h = delHopHeaders h2).
Proof.
  split; [|split].
  - intros k v. rewrite delHopHeaders_lookup. by destruct (decide _).
  - apply map_eq. intros k. rewrite !delHopHeaders_lookup. by destruct (decide _).
  - intros h2 Hagree. apply map_eq. intros k. rewrite !delHopHeaders_lookup.
    destruct (decide _); [done | by apply Hagree].
Qed.

Context {Body Err : Type}.
Variable URL_String : URL.t -> string.
Variable idgen_PeerID : string -> string.
Variable HeaderToMap : http_Header -> gmap string string.
Variable MapToHeader : option (gmap string string) -> http_Header.
Variables HeaderDragonflyTask HeaderDragonflyPeer : string.

Local Abbreviation RoundTrip' :=
  (RoundTrip URL_String idgen_PeerID HeaderToMap MapToHeader
     HeaderDragonflyTask HeaderDragonflyPeer (Body := Body) (Err := Err)).
Local Abbreviation download_request' :=
  (download_request URL_String idgen_PeerID HeaderToMap (Body := Body) (Err := Err)).

Implicit Types (rt : @transport Body Err) (req : Request.t).

(** X10: A round trip calls exactly one collaborator, once: the peer task
    manager for a request the predicate accepts, the base round tripper for
    any other.  A routed request never reaches the origin directly, and a
    passed-through request never starts a stream task. *)
Theorem RoundTrip_calls_one_collaborator rt req :
  exists ev,
    fst (RoundTrip URL_String idgen_PeerID HeaderToMap MapToHeader
           HeaderDragonflyTask HeaderDragonflyPeer rt req) = [ev] /\
    match ev with
    | CallStartStreamTask _ => shouldUseDragonfly rt req = true
    | CallBaseRoundTrip _ => shouldUseDragonfly rt req = false
    end.
Proof.
  unfold RoundTrip. destruct (shouldUseDragonfly rt req).
  - eexists. split; [reflexivity|]. done.
  - destruct (baseRoundTripper rt _). eexists. split; [reflexivity|]. done.
Qed.

(** X11: For a routed request the round trip returns a response or an error,
    never both and never neither; the error case is the failure of
    [StartStreamTask]. *)
Theorem RoundTrip_dragonfly_response_xor_error rt req :
  shouldUseDragonfly rt req = true ->
  let sreq := download_request' rt
                (Request.with_Header (Header_Del (Request.Header req) "Accept-Encoding") req) in
  let '(resp, err) := snd (RoundTrip' rt req) in
  (resp = None <-> err <> None) /\
  (err <> None <-> st_err (StartStreamTask rt sreq) <> None).
Proof.
  intros Hyes sreq. unfold RoundTrip. rewrite Hyes. unfold download. fold sreq.
  cbn [snd]. destruct (st_err (StartStreamTask rt sreq)) as [e|].
  - destruct (st_attr _); split; split; done.
  - split; split; done.
Qed.

(** X12: When [StartStreamTask] fails, a routed request gets no response and
    the error of the peer task manager; the error carries the task and peer
    identifiers of the attribute map when there is one (empty when the map
    lacks them), and is passed on as it is when the map is nil. *)
Theorem RoundTrip_dragonfly_failure rt req e :
  shouldUseDragonfly rt req = true ->
  let sreq := download_request' rt
                (Request.with_Header (Header_Del (Request.Header req) "Accept-Encoding") req) in
  st_err (StartStreamTask rt sreq) = Some e ->
  snd (RoundTrip' rt req) =
    (None,
     Some match st_attr (StartStreamTask rt sreq) with
          | Some attr =>
              TaskPeerError (default EmptyString (attr !! HeaderDragonflyTask))
                            (default EmptyString (attr !! HeaderDragonflyPeer)) e
          | None => Upstream e
          end).
Proof.
  intros Hyes sreq He. unfold RoundTrip. rewrite Hyes. unfold download. fold sreq.
  cbn [snd]. rewrite He. by destruct (st_attr _).
Qed.

(** X13: The stream task of a request does not depend on the headers the
    transport strips: two accepted requests for the same URL whose headers
    agree outside [Accept-Encoding], the hop-by-hop headers and the
    trace-context headers start the same stream task. *)
Theorem RoundTrip_task_ignores_stripped_headers rt req1 req2 :
  shouldUseDragonfly rt req1 = true ->
  shouldUseDragonfly rt req2 = true ->
  Request.URL req1 = Request.URL req2 ->
  (forall k,
     k ∉ map CanonicalMIMEHeaderKey ("Accept-Encoding"%string :: hopHeaders ++ traceContext_Fields) ->
     Request.Header req1 !! k = Request.Header req2 !! k) ->
  fst (RoundTrip' rt req1) = fst (RoundTrip' rt req2).
Proof.
  intros H1 H2 Hurl Hagree. unfold RoundTrip. rewrite H1, H2.
  unfold download. cbn [fst]. do 2 f_equal.
  unfold download_request. cbn [Request.Header Request.with_Header Request.URL].
  rewrite Hurl.
  set (h1 := Header_Del (Request.Header req1) "Accept-Encoding").
  set (h2 := Header_Del (Request.Header req2) "Accept-Encoding").
  assert (Hh : forall k, k ∉ removed -> h1 !! k = h2 !! k).
  { intros k Hk. subst h1 h2. rewrite !Header_Del_lookup.
    destruct (decide _) as [->|Hne]; [done|]. apply Hagree.
    cbn [map]. apply not_elem_of_cons. done. }
  assert (Hget : forall key,
            CanonicalMIMEHeaderKey key ∉ removed -> Header_Get h1 key = Header_Get h2 key).
  { intros key Hk. unfold Header_Get. by rewrite Hh. }
  assert (Hplain : forall key, key ∈ ["Range"; "X-Dragonfly-Filter"; "X-Dragonfly-Biz"]%string ->
                               CanonicalMIMEHeaderKey key ∉ removed).
  { intros key Hkey. repeat (apply elem_of_cons in Hkey as [->|Hkey]);
      [| | |by apply elem_of_nil in Hkey];
      apply (bool_decide_unpack _); vm_compute; exact I. }
  rewrite (Hget "Range"%string) by (apply Hplain; repeat constructor).
  assert (Hpick : forall (a b : http_Header) key d,
            CanonicalMIMEHeaderKey key ∉ removed ->
            (forall k, k ∉ removed -> a !! k = b !! k) ->
            fst (PickHeader a key d) = fst (PickHeader b key d) /\
            (forall k, k ∉ removed -> snd (PickHeader a key d) !! k = snd (PickHeader b key d) !! k)).
  { intros a b key d Hkey Hab.
    assert (Hg : Header_Get a key = Header_Get b key)
      by (unfold Header_Get; by rewrite Hab).
    unfold PickHeader. rewrite Hg. destruct (Header_Get b key); cbn [fst snd].
    - done.
    - split; [done|]. intros k Hk. rewrite !Header_Del_lookup.
      destruct (decide _); [done | by apply Hab]. }
  destruct (Hpick h1 h2 HeaderDragonflyFilter (defaultFilter rt)) as [Hf Hm1];
    [apply Hplain; repeat constructor | exact Hh |].
  destruct (PickHeader h1 HeaderDragonflyFilter (defaultFilter rt)) as [f1 m1].
  destruct (PickHeader h2 HeaderDragonflyFilter (defaultFilter rt)) as [f2 m2].
  cbn [fst snd] in Hf, Hm1. subst f2.
  destruct (Hpick m1 m2 HeaderDragonflyBiz (defaultBiz rt)) as [Ht Hm2];
    [apply Hplain; repeat constructor | exact Hm1 |].
  destruct (PickHeader m1 HeaderDragonflyBiz (defaultBiz rt)) as [t1 n1].
  destruct (PickHeader m2 HeaderDragonflyBiz (defaultBiz rt)) as [t2 n2].
  cbn [fst snd] in Ht, Hm2. subst t2.
  assert (Hdel : delHopHeaders n1 = delHopHeaders n2).
  { apply map_eq. intros k. rewrite !delHopHeaders_lookup.
    destruct (decide _); [done | by apply Hm2]. }
  rewrite Hdel. done.
Qed.

End TransportMore.

Section TransportCases.
Import Go Transport Examples TransportFailureExamples.

Lemma RoundTrip_dragonfly_xor_witness :
  shouldUseDragonfly brokenProxy layerRequest = true /\
  fst (snd (roundTrip brokenProxy layerRequest)) = None /\
  snd (snd (roundTrip brokenProxy layerRequest)) <> None.
Proof.
  assert (H : shouldUseDragonfly brokenProxy layerRequest = true) by (vm_compute; reflexivity).
  split; [exact H|].
  pose proof (RoundTrip_dragonfly_response_xor_error
                (fun u => (URL.Scheme u ++ "://" ++ URL.Host u ++ URL.Path u)%string)
                (fun ip => (ip ++ "-1-uuid")%string) firstValues singleValues
                "X-Dragonfly-Task" "X-Dragonfly-Peer" brokenProxy layerRequest H) as Hx.
  cbv zeta in Hx. fold roundTrip in Hx.
  destruct (snd (roundTrip brokenProxy layerRequest)) as [resp err].
  destruct Hx as [Hr He]. cbn [fst snd].
  assert (Herr : err <> None) by (apply He; discriminate).
  split; [by apply Hr | exact Herr].
Defined.

Lemma RoundTrip_dragonfly_failure_witness :
  shouldUseDragonfly brokenProxy layerRequest = true /\
  snd (roundTrip brokenProxy layerRequest)
    = (None, Some (TaskPeerError "task-1" "peer-1" "back source failed"%string)).
Proof.
  assert (H : shouldUseDragonfly brokenProxy layerRequest = true) by (vm_compute; reflexivity).
  split; [exact H|].
  exact (RoundTrip_dragonfly_failure
           (fun u => (URL.Scheme u ++ "://" ++ URL.Host u ++ URL.Path u)%string)
           (fun ip => (ip ++ "-1-uuid")%string) firstValues singleValues
           "X-Dragonfly-Task" "X-Dragonfly-Peer" brokenProxy layerRequest
           "back source failed"%string H eq_refl).
Defined.

Lemma RoundTrip_task_ignores_stripped_headers_witness :
  Request.Header layerRequest <> Request.Header layerRequestKeepAlive /\
  fst (roundTrip proxy layerRequest) = fst (roundTrip proxy layerRequestKeepAlive).
Proof.
  split; [vm_compute; discriminate|].
  apply (RoundTrip_task_ignores_stripped_headers
           (fun u => (URL.Scheme u ++ "://" ++ URL.Host u ++ URL.Path u)%string)
           (fun ip => (ip ++ "-1-uuid")%string) firstValues singleValues
           "X-Dragonfly-Task" "X-Dragonfly-Peer" proxy layerRequest layerRequestKeepAlive).
  - vm_compute; reflexivity.
  - vm_compute; reflexivity.
  - reflexivity.
  - intros k Hk.
    pose proof (fold_Header_Del_lookup
                  ("Accept-Encoding"%string :: hopHeaders ++ traceContext_Fields)
                  (Request.Header layerRequest) k) as H1.
    pose proof (fold_Header_Del_lookup
                  ("Accept-Encoding"%string :: hopHeaders ++ traceContext_Fields)
                  (Request.Header layerRequestKeepAlive) k) as H2.
    rewrite decide_False in H1 by exact Hk. rewrite decide_False in H2 by exact Hk.
    rewrite <- H1, <- H2.
    assert (E : fold_left Header_Del
                  ("Accept-Encoding"%string :: hopHeaders ++ traceContext_Fields)
                  (Request.Header layerRequest)
                = fold_left Header_Del
                    ("Accept-Encoding"%string :: hopHeaders ++ traceContext_Fields)
                    (Request.Header layerRequestKeepAlive))
      by (vm_compute; reflexivity).
    by rewrite E.
Defined.

End TransportCases.

Section PeerMore.
Import Go Peer.

Context {Err : Type}.
Variable Md5 : list Byte.byte -> string.

Context {U : Type}.
Variable url_Parse : string -> option U.
Variable removeEmptyPort : U -> U.

(** X14: [DownloadPiece] panics exactly when no request is built, that is,
    when the task ID is shorter than three bytes or [url.Parse] refuses the
    URL text; the client is not consulted then. *)
Theorem DownloadPiece_panics_iff_no_request
    (Do : HTTPRequest.t -> @DoResult Err) (req : DownloadPieceRequest.t) :
  let taskID := DownloadPieceRequest.TaskID req in
  (DownloadPiece url_Parse removeEmptyPort Do req = Panics <->
   buildDownloadPieceHTTPRequest url_Parse removeEmptyPort req = None) /\
  (buildDownloadPieceHTTPRequest url_Parse removeEmptyPort req = None <->
   (String.length taskID < 3)%nat \/
   url_Parse ("http://" ++ DownloadPieceRequest.DstAddr req ++ "/download/"
                ++ substring 0 3 taskID ++ "/" ++ taskID
                ++ "?peerId=" ++ DownloadPieceRequest.DstPid req)%string = None).
Proof.
  intros taskID. split; [|apply buildDownloadPieceHTTPRequest_None].
  unfold DownloadPiece.
  destruct (buildDownloadPieceHTTPRequest url_Parse removeEmptyPort req) as [hreq|]; [|done].
  split; [|discriminate].
  destruct (Do hreq) as [e|resp]; [discriminate|].
  destruct (299 <? StatusCode resp); discriminate.
Qed.

(** Reading a response body to its end gives all its bytes, and the error
    that ended it if it was cut. *)
Lemma ReadAll_loop_body (fuel k : nat) :
  (0 < k)%nat ->
  forall (data acc : list Byte.byte) (last : @rerror Err),
  (length data < fuel)%nat ->
  ReadAll_loop Md5 fuel k (BodyReader data last) acc =
  Some (acc ++ data, match last with EOF => None | e => Some e end).
Proof.
  intros Hk. induction fuel as [|fuel IH]; intros data acc last Hfuel; [lia|].
  cbn [ReadAll_loop Read]. destruct data as [|d data].
  - rewrite app_nil_r. by destruct last.
  - set (l := d :: data) in *. rewrite IH.
    2:{ rewrite length_drop. subst l. cbn [length] in *. lia. }
    by rewrite <- (assoc_L app), take_drop.
Qed.

(** X15: Without [CalcDigest] the reader is not limited to the size of the
    piece: read to its end it yields the whole response body, whatever
    [RangeSize] says, and nothing is verified. *)
Theorem DownloadPiece_without_digest_reads_whole_body
    (Do : HTTPRequest.t -> @DoResult Err) (req : DownloadPieceRequest.t)
    (reader closer : @Reader Err) (data : list Byte.byte) (last : @rerror Err) (k : nat) :
  DownloadPiece url_Parse removeEmptyPort Do req = Ok reader closer ->
  DownloadPieceRequest.CalcDigest req = false ->
  closer = BodyReader data last ->
  (0 < k)%nat ->
  ReadAll Md5 k reader = Some (data, match last with EOF => None | e => Some e end).
Proof.
  intros Hok Hcalc -> Hk. unfold DownloadPiece in Hok.
  destruct (buildDownloadPieceHTTPRequest _ _ req) as [hreq|]; [|discriminate].
  destruct (Do hreq) as [e|resp]; [discriminate|].
  destruct (299 <? StatusCode resp); [discriminate|].
  rewrite Hcalc in Hok. injection Hok as <- Hb. rewrite Hb.
  unfold ReadAll. cbn [pending]. by rewrite ReadAll_loop_body by (done || lia).
Qed.

End PeerMore.

Section PieceDownloaderProperties.
Import PieceDownloader.

Context {RoundTripper Err : Type}.
Variable defaultTransport : RoundTripper.

Local Abbreviation option_func := (@option_func RoundTripper Err).
Local Abbreviation pieceDownloader := (@pieceDownloader RoundTripper).

(** X16: A downloader that [NewPieceDownloader] returns always has a transport:
    its HTTP client uses that transport with the timeout given, whatever
    the options did to the client field. *)
Theorem NewPieceDownloader_has_transport
    (timeout : Z) (opts : list option_func) (pd : pieceDownloader) :
  fst (NewPieceDownloader defaultTransport timeout opts) = Some pd ->
  snd (NewPieceDownloader defaultTransport timeout opts) = None /\
  exists rt, transport pd = Some rt /\
             httpClient pd = Some (mkClient (Some rt) timeout).
Proof.
  unfold NewPieceDownloader.
  destruct (apply_opts opts _) as [pd0|e]; cbn [fst snd]; [|discriminate].
  intros [= <-]. split; [done|]. cbn [transport httpClient].
  destruct (transport pd0) as [rt|]; eauto.
Qed.

Lemma apply_opts_app (pre post : list option_func) (pd : pieceDownloader) :
  apply_opts (pre ++ post) pd =
  match apply_opts pre pd with
  | inl pd' => apply_opts post pd'
  | inr e => inr e
  end.
Proof.
  revert pd. induction pre as [|opt pre IH]; intros pd; cbn [apply_opts app]; [done|].
  destruct (opt pd) as [pd' [e|]]; [done | apply IH].
Qed.

Lemma apply_opts_succeed (pre : list option_func) (pd : pieceDownloader) :
  Forall (fun opt : option_func => forall d, snd (opt d) = None) pre ->
  exists pd', apply_opts pre pd = inl pd'.
Proof.
  intros Hpre. revert pd. induction Hpre as [|opt pre Hopt _ IH]; intros pd; cbn [apply_opts].
  - eauto.
  - specialize (Hopt pd). destruct (opt pd) as [pd' o]. cbn [snd] in Hopt. subst o. apply IH.
Qed.

(** X17: The first option that fails ends the construction: no downloader is
    returned, the error is that option's, and the options after it do not
    matter. *)
Theorem NewPieceDownloader_first_error
    (timeout : Z) (pre post : list option_func) (bad : option_func) (e : Err) :
  Forall (fun opt : option_func => forall d, snd (opt d) = None) pre ->
  (forall d, snd (bad d) = Some e) ->
  NewPieceDownloader defaultTransport timeout (pre ++ bad :: post) = (None, Some e).
Proof.
  intros Hpre Hbad. unfold NewPieceDownloader. rewrite apply_opts_app.
  destruct (apply_opts_succeed pre (mkDownloader None None) Hpre) as [pd' ->].
  cbn [apply_opts]. specialize (Hbad pd'). destruct (bad pd') as [d o].
  cbn [snd] in Hbad. subst o. done.
Qed.

(** X18: [WithTransport] decides the transport when it is the last option that
    sets one; a nil transport, or no option at all, gives the default
    transport. *)
Theorem NewPieceDownloader_WithTransport
    (timeout : Z) (pre : list option_func) (rt : option RoundTripper) :
  Forall (fun opt : option_func => forall d, snd (opt d) = None) pre ->
  NewPieceDownloader defaultTransport timeout (pre ++ [WithTransport rt]) =
    (let tr := Some (default defaultTransport rt) in
     (Some (mkDownloader tr (Some (mkClient tr timeout))), None)) /\
  NewPieceDownloader defaultTransport timeout (@nil option_func) =
    (Some (mkDownloader (Some defaultTransport)
             (Some (mkClient (Some defaultTransport) timeout))), None).
Proof.
  intros Hpre. split; [|reflexivity].
  unfold NewPieceDownloader. rewrite apply_opts_app.
  destruct (apply_opts_succeed pre (mkDownloader None None) Hpre) as [pd' ->].
  cbn [apply_opts WithTransport transport]. by destruct rt.
Qed.

End PieceDownloaderProperties.

Section PeerMoreCases.
Import Go Peer PeerExamples PieceDownloader PieceDownloaderExamples.

Lemma DownloadPiece_without_digest_witness :
  PieceInfo.RangeSize (DownloadPieceRequest.piece (firstByteRequest false)) = 1 /\
  ReadAll (Err := string) byteSum 1 (BodyReader abc EOF) = Some (abc, None).
Proof.
  split; [reflexivity|].
  exact (DownloadPiece_without_digest_reads_whole_body byteSum parseURL keepHost peerOK
           (firstByteRequest false)
           (BodyReader abc EOF) (BodyReader abc EOF) abc EOF 1
           eq_refl eq_refl eq_refl ltac:(lia)).
Defined.

Lemma NewPieceDownloader_has_transport_witness :
  snd (NewPieceDownloader (Err := string) "default"%string 30 [WithTransport (Some "custom"%string)])
    = None /\
  exists rt, Some "custom"%string = Some rt /\
             Some (mkClient (Some "custom"%string) 30) = Some (mkClient (Some rt) 30).
Proof.
  exact (NewPieceDownloader_has_transport (Err := string) "default"%string 30
           [WithTransport (Some "custom"%string)]
           (mkDownloader (Some "custom"%string) (Some (mkClient (Some "custom"%string) 30)))
           eq_refl).
Defined.

Lemma NewPieceDownloader_first_error_witness :
  NewPieceDownloader "default"%string 30
    ([WithTransport None] ++ badOption :: [WithTransport (Some "custom"%string)])
  = (None, Some "bad option"%string).
Proof.
  apply NewPieceDownloader_first_error.
  - constructor; [reflexivity | constructor].
  - reflexivity.
Defined.

Lemma NewPieceDownloader_WithTransport_witness :
  NewPieceDownloader (Err := string) "default"%string 30
    ([WithTransport (Some "custom"%string)] ++ [WithTransport None])
  = (Some (mkDownloader (Some "default"%string) (Some (mkClient (Some "default"%string) 30))),
     None).
Proof.
  apply (proj1 (NewPieceDownloader_WithTransport (Err := string) "default"%string 30
                  [WithTransport (Some "custom"%string)] None
                  ltac:(constructor; [reflexivity | constructor]))).
Defined.

End PeerMoreCases.

Section HostProperties.
Import Resource.

Context {Peer : Type}.
Variable Peer_ID : Peer -> string.

Local Abbreviation Host := (@Host Peer).
Local Abbreviation StorePeer := (StorePeer Peer_ID).
Local Abbreviation LoadOrStorePeer := (LoadOrStorePeer Peer_ID).
Implicit Types (h : Host) (p : Peer) (key : string).

(** [LenPeers] counts the entries of the peer map. *)
Lemma LenPeers_size h : LenPeers h = Z.of_nat (size (Peers h)).
Proof.
  unfold LenPeers. rewrite map_fold_foldr, <- length_map_to_list.
  induction (map_to_list (Peers h)) as [|[k v] l IH]; cbn [foldr length]; [done|].
  unfold uncurry at 1. cbn [fst snd]. rewrite IH. lia.
Qed.

(** X19: A stored peer is loaded back under its ID, and storing or deleting a
    peer does not change what any other key loads; a deleted key loads
    nothing. *)
Theorem StorePeer_LoadPeer h p key :
  LoadPeer (StorePeer h p) (Peer_ID p) = (Some p, true) /\
  (key <> Peer_ID p -> LoadPeer (StorePeer h p) key = LoadPeer h key) /\
  LoadPeer (DeletePeer h key) key = (None, false) /\
  (forall key', key' <> key -> LoadPeer (DeletePeer h key) key' = LoadPeer h key').
Proof.
  unfold LoadPeer, Resource.StorePeer, DeletePeer. cbn [Peers with_Peers].
  split; [by rewrite lookup_insert_eq|].
  split; [intros Hk; by rewrite lookup_insert_ne|].
  split; [by rewrite lookup_delete_eq|].
  intros key' Hk. by rewrite lookup_delete_ne.
Qed.

(** X20: [LoadOrStorePeer] never replaces a peer: it returns the peer already
    stored under the ID, leaving the host as it is, and stores the given
    peer only when the ID is free.  Either way the peer it returns is the
    one the ID loads afterwards, and a second call returns it as loaded. *)
Theorem LoadOrStorePeer_keeps_first h p :
  let '(got, loaded, h') := LoadOrStorePeer h p in
  (loaded = true <-> is_Some (Peers h !! Peer_ID p)) /\
  (loaded = true -> h' = h /\ Peers h !! Peer_ID p = Some got) /\
  (loaded = false -> got = p /\ h' = StorePeer h p) /\
  LoadPeer h' (Peer_ID p) = (Some got, true) /\
  LoadOrStorePeer h' p = (got, true, h').
Proof.
  unfold Resource.LoadOrStorePeer, LoadPeer, Resource.StorePeer.
  destruct (Peers h !! Peer_ID p) as [q|] eqn:E.
  - rewrite E. split; [split; eauto|]. split; [done|]. split; [discriminate|]. done.
  - cbn [Peers with_Peers]. rewrite lookup_insert_eq.
    split; [split; [discriminate | by intros [? ?]]|].
    split; [discriminate|]. split; done.
Qed.

(** X21: [LenPeers] follows the map: storing a peer under a new ID adds one,
    storing under an ID already present adds nothing, deleting a present
    key removes one, deleting an absent key removes nothing; the count is
    never negative. *)
Theorem LenPeers_StorePeer_DeletePeer h p key :
  0 <= LenPeers h /\
  LenPeers (StorePeer h p) =
    (match Peers h !! Peer_ID p with Some _ => LenPeers h | None => LenPeers h + 1 end) /\
  LenPeers (DeletePeer h key) =
    (match Peers h !! key with Some _ => LenPeers h - 1 | None => LenPeers h end).
Proof.
  rewrite !LenPeers_size. unfold Resource.StorePeer, DeletePeer. cbn [Peers with_Peers].
  rewrite map_size_insert, map_size_delete.
  split; [lia|]. split.
  - destruct (Peers h !! Peer_ID p); unfold id; lia.
  - destruct (Peers h !! key) as [q|] eqn:E; unfold id; [|lia].
    assert (size (Peers h) <> 0)%nat; [|lia].
    intros H0. apply map_size_empty_inv in H0. rewrite H0 in E.
    by rewrite lookup_empty in E.
Qed.

Lemma LenPeers_StorePeer h p :
  LenPeers (StorePeer h p) =
    (match Peers h !! Peer_ID p with Some _ => LenPeers h | None => LenPeers h + 1 end).
Proof.
  rewrite !LenPeers_size. unfold Resource.StorePeer. cbn [Peers with_Peers].
  rewrite map_size_insert. destruct (Peers h !! Peer_ID p); unfold id; lia.
Qed.

Lemma FreeUploadLoad_in_range h :
  - 2 ^ 31 <= UploadLoadLimit h < 2 ^ 31 ->
  LenPeers h < 2 ^ 31 ->
  - 2 ^ 31 <= UploadLoadLimit h - LenPeers h ->
  FreeUploadLoad h = UploadLoadLimit h - LenPeers h.
Proof.
  intros Hl Hn Hd. pose proof (LenPeers_size h) as Hs.
  unfold FreeUploadLoad, wrap_int32.
  replace ((LenPeers h + 2 ^ 31) mod 2 ^ 32 - 2 ^ 31) with (LenPeers h)
    by (rewrite Z.mod_small; lia).
  rewrite Z.mod_small; lia.
Qed.

(** X22: [FreeUploadLoad] is the limit less the number of peers, as long as
    both fit an [int32]; it is not clamped at zero, so a host that holds
    more peers than its limit has a negative free load. *)
Theorem FreeUploadLoad_limit_minus_peers h :
  - 2 ^ 31 <= UploadLoadLimit h < 2 ^ 31 ->
  LenPeers h < 2 ^ 31 ->
  - 2 ^ 31 <= UploadLoadLimit h - LenPeers h ->
  FreeUploadLoad h = UploadLoadLimit h - LenPeers h /\
  (FreeUploadLoad h < 0 <-> UploadLoadLimit h < LenPeers h).
Proof.
  intros Hl Hn Hd. rewrite FreeUploadLoad_in_range by done. split; [done | lia].
Qed.

(** X23: Storing a peer under a new ID takes one unit of free upload load;
    storing under an ID already present takes none. *)
Theorem FreeUploadLoad_StorePeer h p :
  - 2 ^ 31 < UploadLoadLimit h < 2 ^ 31 ->
  LenPeers h + 1 < 2 ^ 31 ->
  - 2 ^ 31 < UploadLoadLimit h - LenPeers h ->
  FreeUploadLoad (StorePeer h p) =
    (match Peers h !! Peer_ID p with
     | Some _ => FreeUploadLoad h
     | None => FreeUploadLoad h - 1
     end).
Proof.
  intros Hl Hn Hd. pose proof (LenPeers_size h) as H0.
  pose proof (LenPeers_StorePeer h p) as Hs.
  rewrite (FreeUploadLoad_in_range h) by lia.
  rewrite (FreeUploadLoad_in_range (StorePeer h p)).
  - rewrite Hs. cbn [UploadLoadLimit Resource.StorePeer with_Peers].
    destruct (Peers h !! Peer_ID p); lia.
  - cbn [UploadLoadLimit Resource.StorePeer with_Peers]. lia.
  - rewrite Hs. destruct (Peers h !! Peer_ID p); lia.
  - rewrite Hs. cbn [UploadLoadLimit Resource.StorePeer with_Peers].
    destruct (Peers h !! Peer_ID p); lia.
Qed.

(** The options of the package keep the identity of the host and its
    peers. *)
Local Abbreviation offered :=
  (fun opt : @HostOption Peer =>
     (exists limit, opt = WithUploadLoadLimit limit) \/ (exists isCDN, opt = WithIsCDN isCDN)).

Lemma offered_options_frame (options : list (@HostOption Peer)) h :
  Forall offered options ->
  let h' := fold_left (fun h opt => opt h) options h in
  ID h' = ID h /\ IP h' = IP h /\ Hostname h' = Hostname h /\ Port h' = Port h /\
  DownloadPort h' = DownloadPort h /\ Peers h' = Peers h.
Proof.
  intros Hopts. revert h.
  induction Hopts as [|opt options Hopt _ IH]; intros h; cbn [fold_left]; [done|].
  destruct (IH (opt h)) as (H1 & H2 & H3 & H4 & H5 & H6).
  rewrite H1, H2, H3, H4, H5, H6.
  destruct Hopt as [[l ->]|[b ->]]; done.
Qed.

Lemma cdn_options_keep_limit (options : list (@HostOption Peer)) h :
  Forall (fun opt => exists isCDN, opt = WithIsCDN isCDN) options ->
  UploadLoadLimit (fold_left (fun h opt => opt h) options h) = UploadLoadLimit h.
Proof.
  intros Hopts. revert h.
  induction Hopts as [|opt options [b ->] _ IH]; intros h; cbn [fold_left]; [done|].
  by rewrite IH.
Qed.

(** X24: A new host takes its identity from the raw host and holds no peer,
    whatever options of the package are given; its upload limit is that of
    the last [WithUploadLoadLimit] option, and 100 without one, which is
    then also its free upload load. *)
Theorem NewHost_identity_and_limit
    (now1 now2 : Z) (rawHost : PeerHost.t) (options : list (@HostOption Peer)) :
  Forall offered options ->
  let h := NewHost now1 now2 rawHost options in
  (ID h = PeerHost.Uuid rawHost /\ IP h = PeerHost.Ip rawHost /\
   Hostname h = PeerHost.HostName rawHost /\ Port h = PeerHost.RpcPort rawHost /\
   DownloadPort h = PeerHost.DownPort rawHost) /\
  Peers h = ∅ /\ LenPeers h = 0 /\
  (forall pre limit post,
     options = pre ++ WithUploadLoadLimit limit :: post ->
     Forall (fun opt => exists isCDN, opt = WithIsCDN isCDN) post ->
     UploadLoadLimit h = limit) /\
  (Forall (fun opt => exists isCDN, opt = WithIsCDN isCDN) options ->
   UploadLoadLimit h = 100 /\ FreeUploadLoad h = 100).
Proof.
  intros Hopts h. subst h. unfold NewHost.
  set (h0 := mkHost _ _ _ _ _ _ _ _ _ _ _ _ _ _).
  destruct (offered_options_frame options h0 Hopts) as (H1 & H2 & H3 & H4 & H5 & H6).
  split; [by rewrite H1, H2, H3, H4, H5|].
  split; [by rewrite H6|].
  assert (Hlen : LenPeers (fold_left (fun h opt => opt h) options h0) = 0).
  { rewrite LenPeers_size, H6. done. }
  split; [exact Hlen|]. split.
  - intros pre limit post -> Hpost. rewrite fold_left_app. cbn [fold_left].
    by rewrite cdn_options_keep_limit.
  - intros Hcdn. pose proof (cdn_options_keep_limit options h0 Hcdn) as Hl.
    split; [exact Hl|]. unfold FreeUploadLoad. rewrite Hlen, Hl. reflexivity.
Qed.

End HostProperties.

Section HostCases.
Import Resource HostExamples.

Lemma FreeUploadLoad_limit_minus_peers_witness :
  FreeUploadLoad crowded = -1 /\ FreeUploadLoad crowded < 0.
Proof.
  destruct (FreeUploadLoad_limit_minus_peers crowded) as [H1 H2].
  - vm_compute. split; [discriminate | reflexivity].
  - vm_compute. reflexivity.
  - vm_compute. discriminate.
  - split; [exact H1|]. apply H2. vm_compute. reflexivity.
Defined.

Lemma FreeUploadLoad_StorePeer_witness :
  FreeUploadLoad (StorePeer fst host0 ("peer-a"%string, 3)) = FreeUploadLoad host0 - 1 /\
  FreeUploadLoad (StorePeer fst host2 ("peer-a"%string, 7)) = FreeUploadLoad host2.
Proof.
  split.
  - apply (FreeUploadLoad_StorePeer fst host0 ("peer-a"%string, 3));
      vm_compute; try split; (reflexivity || discriminate).
  - apply (FreeUploadLoad_StorePeer fst host2 ("peer-a"%string, 7));
      vm_compute; try split; (reflexivity || discriminate).
Defined.

Lemma NewHost_identity_and_limit_witness :
  let h : @Host (string * Z) :=
    NewHost 1000 1001 rawHost [WithUploadLoadLimit 7; WithUploadLoadLimit 5; WithIsCDN true] in
  ID h = "host-1"%string /\ Peers h = ∅ /\ UploadLoadLimit h = 5.
Proof.
  intros h.
  destruct (NewHost_identity_and_limit (Peer := string * Z) 1000 1001 rawHost
              [WithUploadLoadLimit 7; WithUploadLoadLimit 5; WithIsCDN true])
    as ((Hid & _) & Hp & _ & Hl & _).
  - repeat (apply List.Forall_cons;
              [first [left; eexists; reflexivity | right; eexists; reflexivity]|]).
    apply List.Forall_nil.
  - split; [exact Hid|]. split; [exact Hp|].
    apply (Hl [WithUploadLoadLimit 7] 5 [WithIsCDN true] eq_refl).
    apply List.Forall_cons; [by exists true | apply List.Forall_nil].
Defined.

End HostCases.

Section HDFSProperties.
Import Go HDFS.

(** [strings.Split] and [strings.Join] are inverse: the pieces of a split
    hold no separator and joined by it they spell the text again. *)
Lemma Split_not_nil (sep : ascii) (s : string) : Split sep s <> [].
Proof.
  destruct s as [|c s]; cbn [Split]; [done|].
  destruct (Ascii.eqb c sep); [done|]. by destruct (Split sep s).
Qed.

Lemma Split_concat (sep : ascii) (s : string) :
  String.concat (String sep EmptyString) (Split sep s) = s.
Proof.
  induction s as [|c s IH]; [reflexivity|]. cbn [Split].
  pose proof (Split_not_nil sep s) as Hne.
  destruct (Ascii.eqb_spec c sep) as [->|Hc].
  - destruct (Split sep s) as [|x xs]; [done|].
    change (String.concat (String sep EmptyString) (EmptyString :: x :: xs))
      with (String sep (String.concat (String sep EmptyString) (x :: xs))).
    by rewrite IH.
  - destruct (Split sep s) as [|x xs]; [done|].
    rewrite <- IH. destruct xs as [|y ys]; reflexivity.
Qed.

Lemma Split_no_sep (sep : ascii) (s : string) :
  Forall (fun piece => sep ∉ list_ascii_of_string piece) (Split sep s).
Proof.
  induction s as [|c s IH]; cbn [Split].
  - constructor; [apply not_elem_of_nil | constructor].
  - destruct (Ascii.eqb_spec c sep) as [->|Hc].
    + constructor; [apply not_elem_of_nil | exact IH].
    + destruct (Split sep s) as [|x xs].
      * constructor; [|constructor]. cbn. apply not_elem_of_cons. split; [done|apply not_elem_of_nil].
      * inversion IH as [|? ? Hx Hxs]; subst. constructor; [|done].
        cbn. apply not_elem_of_cons. split; [congruence|done].
Qed.

Context {Client Err : Type}.

Local Abbreviation clientMap := (gmap string Client).
Implicit Types (h : clientMap) (url : Transport.URL.t).

Lemma getHDFSClient_failure_keeps_map
    (user_Current : string + Err) (NewClient : ClientOptions -> Client + Err) h url e h1 :
  getHDFSClient user_Current NewClient h url = (inr e, h1) -> h1 = h.
Proof.
  unfold getHDFSClient. destruct (h !! Transport.URL.Host url); [discriminate|].
  destruct user_Current as [u|e0]; [|congruence].
  destruct (NewClient _); [discriminate|congruence].
Qed.

(** X25: One client per host: a client that [getHDFSClient] created is stored
    under the host of the URL, no other entry changes, and every later call
    for a URL of that host returns the same client without asking for the
    user or creating a client again.  A call that fails stores nothing. *)
Theorem getHDFSClient_one_client_per_host
    (user_Current user_Current' : string + Err)
    (NewClient NewClient' : ClientOptions -> Client + Err) h url url' :
  Transport.URL.Host url' = Transport.URL.Host url ->
  match getHDFSClient user_Current NewClient h url with
  | (inl client, h1) =>
      h1 !! Transport.URL.Host url = Some client /\
      (forall k, k <> Transport.URL.Host url -> h1 !! k = h !! k) /\
      getHDFSClient user_Current' NewClient' h1 url' = (inl client, h1)
  | (inr _, h1) => h1 = h
  end.
Proof.
  intros Hhost. unfold getHDFSClient at 1.
  destruct (h !! Transport.URL.Host url) as [c|] eqn:E.
  - split; [done|]. split; [done|]. unfold getHDFSClient. by rewrite Hhost, E.
  - destruct user_Current as [u|e]; [|done].
    destruct (NewClient _) as [c|e]; [|done].
    split; [apply lookup_insert_eq|].
    split; [intros k Hk; by apply lookup_insert_ne|].
    unfold getHDFSClient. by rewrite Hhost, lookup_insert_eq.
Qed.

(** X26: For a host without a client, the client is created for the current
    user and for the comma-separated addresses of the host: none of the
    addresses holds a comma and joined by commas they spell the host
    again. *)
Theorem getHDFSClient_creates_for_host_addresses
    (NewClient : ClientOptions -> Client + Err) h url (username : string) :
  h !! Transport.URL.Host url = None ->
  exists options,
    fst (getHDFSClient (inl username) NewClient h url) = NewClient options /\
    User options = username /\ UseDatanodeHostname options = true /\
    String.concat "," (Addresses options) = Transport.URL.Host url /\
    Forall (fun a => ","%char ∉ list_ascii_of_string a) (Addresses options).
Proof.
  intros Hfree. unfold getHDFSClient. rewrite Hfree.
  exists (mkOptions (Split ","%char (Transport.URL.Host url)) username true).
  cbn [User UseDatanodeHostname Addresses]. split.
  - by destruct (NewClient _).
  - split; [done|]. split; [done|]. split; [apply Split_concat | apply Split_no_sep].
Qed.

Variable user_Current : string + Err.
Variable NewClient : ClientOptions -> Client + Err.
Variable Stat : Client -> string -> FileInfo + Err.
Variable FormatLastModified : Z -> string.

Local Abbreviation GetContentLength' := (GetContentLength user_Current NewClient Stat).
Local Abbreviation IsSupportRange' := (IsSupportRange user_Current NewClient Stat).
Local Abbreviation IsExpired' := (IsExpired user_Current NewClient Stat FormatLastModified).
Local Abbreviation GetLastModified' := (GetLastModified user_Current NewClient Stat).

(** X27: On any failure the four queries return their default value: [-2] for
    the content length, [-1] for the last modification, [false] for range
    support and for expiry; range support is [true] exactly when there is
    no error.  All four leave the client map as [getHDFSClient] leaves it. *)
Theorem hdfs_queries_defaults_on_error h url lastModified :
  let after := snd (getHDFSClient user_Current NewClient h url) in
  (let '(n, err, h') := GetContentLength' h url in
   (err <> None -> n = -2) /\ h' = after) /\
  (let '(ok, err, h') := IsSupportRange' h url in
   (ok = true <-> err = None) /\ h' = after) /\
  (let '(expired, err, h') := IsExpired' h url lastModified in
   (err <> None -> expired = false) /\ h' = after) /\
  (let '(ms, err, h') := GetLastModified' h url in
   (err <> None -> ms = -1) /\ h' = after).
Proof.
  intros after. subst after.
  unfold GetContentLength, IsSupportRange, IsExpired, GetLastModified, getHDFSClientAndPath.
  destruct (getHDFSClient user_Current NewClient h url) as [[c|e] h1]; cbn [snd].
  - destruct (Stat c _) as [info|e]; repeat split; try done.
  - repeat split; try done.
Qed.

(** X28: When no client can be had for the host, every query reports the
    package's own error, which names the URL; the error of the library or
    of the user lookup is dropped. *)
Theorem hdfs_queries_client_failure h url lastModified e h1 :
  getHDFSClient user_Current NewClient h url = (inr e, h1) ->
  GetContentLength' h url = (-2, Some (CreateClientFailed url), h) /\
  IsSupportRange' h url = (false, Some (CreateClientFailed url), h) /\
  IsExpired' h url lastModified = (false, Some (CreateClientFailed url), h) /\
  GetLastModified' h url = (-1, Some (CreateClientFailed url), h).
Proof.
  intros Hfail.
  assert (h1 = h) as -> by exact (getHDFSClient_failure_keeps_map _ _ _ _ _ _ Hfail).
  unfold GetContentLength, IsSupportRange, IsExpired, GetLastModified, getHDFSClientAndPath.
  rewrite Hfail. done.
Qed.

End HDFSProperties.

Section HDFSCases.
Import HDFS HDFSExamples.

Lemma getHDFSClient_one_client_per_host_witness :
  let created := getHDFSClient (inl "hadoop"%string) newClient ∅ nameNodes in
  fst created = inl 2%nat /\
  getHDFSClient (inr "no user"%string) refuse (snd created) otherFile
    = (inl 2%nat, snd created).
Proof.
  intros created.
  pose proof (getHDFSClient_one_client_per_host
                (inl "hadoop"%string) (inr "no user"%string) newClient refuse
                ∅ nameNodes otherFile eq_refl) as H.
  split; [reflexivity|]. exact (proj2 (proj2 H)).
Defined.

Lemma getHDFSClient_creates_for_host_addresses_witness :
  exists options,
    fst (getHDFSClient (Err := string) (inl "hadoop"%string) newClient ∅ nameNodes)
      = newClient options /\
    User options = "hadoop"%string /\
    String.concat "," (Addresses options) = "nn1:8020,nn2:8020"%string.
Proof.
  destruct (getHDFSClient_creates_for_host_addresses (Err := string) newClient ∅ nameNodes
              "hadoop"%string (lookup_empty _)) as (options & H1 & H2 & _ & H3 & _).
  exists options. split; [exact H1|]. split; [exact H2 | exact H3].
Defined.

Lemma hdfs_queries_client_failure_witness :
  GetContentLength (inl "hadoop"%string) refuse stat ∅ nameNodes
    = (-2, Some (CreateClientFailed nameNodes), ∅) /\
  GetLastModified (inl "hadoop"%string) refuse stat ∅ nameNodes
    = (-1, Some (CreateClientFailed nameNodes), ∅).
Proof.
  assert (Hfail : getHDFSClient (inl "hadoop"%string) refuse (∅ : gmap string nat) nameNodes
                  = (inr "connection refused"%string, ∅)) by reflexivity.
  destruct (hdfs_queries_client_failure (inl "hadoop"%string) refuse stat (fun _ => EmptyString)
              ∅ nameNodes EmptyString "connection refused"%string ∅ Hfail)
    as (H1 & _ & _ & H4).
  split; [exact H1 | exact H4].
Defined.

End HDFSCases.
